(** * BjornUI.ConsoleSSE: the streaming log console of web/js/global.js

    A shallow embedding of the console module (lines 15-350 of
    [web/js/global.js]) and the properties of its line decorator, line
    buffer, renderer, reconnection logic and font controls.

    Modelling conventions.
    - A JavaScript string is a Rocq [string]; each [ascii] stands for one
      UTF-16 code unit below 256.  All patterns of the module are ASCII, so
      the regular expressions and [trim] act on these strings as in the
      source; [toUpperCase] is applied by the source to matches of the level
      pattern only, which consist of ASCII letters and blanks.
    - [innerHTML] of the log container is the string the script wrote to
      it.  The browser gives back its own serialisation of the parsed
      markup, which is that string when the lines rendered are [verbatim]
      (no [&], [<], [>], no-break space, NUL or carriage return).  The
      properties that concern the markup of lines of any content carry
      that condition; the lemmas on [append_line] and [cap_lines] as
      operations on strings do not need it.
    - [style.fontSize] of the log container is the text the script assigned
      to it, which the browser keeps as the inline size when it is a valid
      size ([css_size]).
    - The module-level [state] object is the record [Console]; every
      function of the module takes the record and returns the updated one.
    - Callbacks queued with [setTimeout] / [requestAnimationFrame] and the
      events of the [EventSource] are the constructors of [event]; [step]
      runs the corresponding handler to completion. *)

From Stdlib Require Import Bool Arith PeanoNat Lia List ZArith NArith QArith Qround.
From Stdlib Require Import Strings.String Strings.Ascii Numbers.DecimalString.
From Stdlib Require Numbers.DecimalPos.
From Stdlib Require Numbers.HexadecimalString.
Import ListNotations.
Open Scope string_scope.
Open Scope nat_scope.

(* ===================================================================== *)
(** ** Code units and character classes *)
(* ===================================================================== *)

Definition code (c : ascii) : nat := nat_of_ascii c.

Definition in_range (lo hi : nat) (c : ascii) : bool :=
  (lo <=? code c) && (code c <=? hi).

(** [\d] *)
Definition is_digit (c : ascii) : bool := in_range 48 57 c.
Definition is_upper (c : ascii) : bool := in_range 65 90 c.
Definition is_lower (c : ascii) : bool := in_range 97 122 c.

(** [\w], which is also the class [[A-Za-z0-9_]] and the class that decides
    [\b]. *)
Definition is_word (c : ascii) : bool :=
  is_upper c || is_lower c || is_digit c || (code c =? 95).

Definition is_not (x : ascii) (c : ascii) : bool := negb (Ascii.eqb c x).

(** ASCII upper-casing of one code unit. *)
Definition upper (c : ascii) : ascii :=
  if is_lower c then ascii_of_nat (code c - 32) else c.

(** [String.prototype.toUpperCase], on the strings the level pass applies
    it to (ASCII letters and blanks). *)
Fixpoint toUpperCase (s : string) : string :=
  match s with
  | EmptyString => EmptyString
  | String c s' => String (upper c) (toUpperCase s')
  end.

(** White space and line terminators removed by [trim]: TAB, LF, VT, FF,
    CR, SP and NBSP. *)
Definition is_space (c : ascii) : bool :=
  in_range 9 13 c || (code c =? 32) || (code c =? 160).

Fixpoint trimStart (s : string) : string :=
  match s with
  | String c s' => if is_space c then trimStart s' else s
  | EmptyString => EmptyString
  end.

Fixpoint trimEnd (s : string) : string :=
  match s with
  | EmptyString => EmptyString
  | String c s' =>
      match trimEnd s' with
      | EmptyString => if is_space c then EmptyString else String c EmptyString
      | t => String c t
      end
  end.

Definition trim (s : string) : string := trimEnd (trimStart s).

(** Decimal rendering of a number in a template literal or [String(v)]. *)
Definition N_to_string (n : N) : string := NilZero.string_of_uint (N.to_uint n).
Definition Z_to_string (z : Z) : string := NilZero.string_of_int (Z.to_int z).

Definition concat_str (l : list string) : string :=
  fold_right append EmptyString l.

(** [Array.prototype.join] *)
Fixpoint join (sep : string) (l : list string) : string :=
  match l with
  | [] => EmptyString
  | [x] => x
  | x :: l' => x ++ sep ++ join sep l'
  end.

(** [Array.prototype.slice(-n)]: the last [n] entries; [slice(-0)] is
    [slice(0)], the whole array. *)
Definition slice_last {A} (n : nat) (l : list A) : list A :=
  match n with
  | O => l
  | _ => skipn (List.length l - n) l
  end.

(* ===================================================================== *)
(** ** Regular expressions

    The fragment of ECMAScript regular expressions the module uses, with
    the backtracking semantics of the language: alternatives are tried left
    to right, quantifiers are greedy and give characters back one at a
    time. *)
(* ===================================================================== *)

Inductive regex : Type :=
| Lit (ci : bool) (w : string)      (** literal text; [ci] is the [i] flag *)
| Cls (p : ascii -> bool)           (** one character of a class *)
| Plus (p : ascii -> bool)          (** [[class]+] *)
| Star (p : ascii -> bool)          (** [[class]*] *)
| Bnd                               (** [\b] *)
| Bol                               (** [^] *)
| Seq (r1 r2 : regex)
| Alt (r1 r2 : regex).

(** A continuation receives the character before the current position, the
    rest of the input and the number of characters matched so far. *)
Definition cont : Type := option ascii -> string -> nat -> option nat.

Definition chr_eq (ci : bool) (a c : ascii) : bool :=
  if ci then Ascii.eqb (upper a) (upper c) else Ascii.eqb a c.

Fixpoint lit (ci : bool) (w : string) (prev : option ascii) (s : string)
         (n : nat) (k : cont) : option nat :=
  match w with
  | EmptyString => k prev s n
  | String a w' =>
      match s with
      | String c s' => if chr_eq ci a c then lit ci w' (Some c) s' (S n) k else None
      | EmptyString => None
      end
  end.

(** Greedy repetition of a class: take as many characters as possible, and
    on failure of the continuation retry with one character fewer. *)
Fixpoint many (p : ascii -> bool) (prev : option ascii) (s : string)
         (n : nat) (k : cont) : option nat :=
  match s with
  | String c s' =>
      if p c then
        match many p (Some c) s' (S n) k with
        | Some r => Some r
        | None => k prev s n
        end
      else k prev s n
  | EmptyString => k prev s n
  end.

Definition word_before (prev : option ascii) : bool :=
  match prev with Some c => is_word c | None => false end.

Definition word_after (s : string) : bool :=
  match s with String c _ => is_word c | EmptyString => false end.

Fixpoint rmatch (r : regex) (prev : option ascii) (s : string) (n : nat)
         (k : cont) : option nat :=
  match r with
  | Lit ci w => lit ci w prev s n k
  | Cls p =>
      match s with
      | String c s' => if p c then k (Some c) s' (S n) else None
      | EmptyString => None
      end
  | Plus p =>
      match s with
      | String c s' => if p c then many p (Some c) s' (S n) k else None
      | EmptyString => None
      end
  | Star p => many p prev s n k
  | Bnd => if xorb (word_before prev) (word_after s) then k prev s n else None
  | Bol => match prev with None => k prev s n | Some _ => None end
  | Seq r1 r2 => rmatch r1 prev s n (fun prev' s' n' => rmatch r2 prev' s' n' k)
  | Alt r1 r2 =>
      match rmatch r1 prev s n k with
      | Some r => Some r
      | None => rmatch r2 prev s n k
      end
  end.

(** Length of the match of [r] that starts at the current position. *)
Definition match_at (r : regex) (prev : option ascii) (s : string) : option nat :=
  rmatch r prev s 0 (fun _ _ n => Some n).

(** The pieces of a subject string after matching: a character outside
    every match, or a whole match. *)
Inductive token : Type :=
| Txt (c : ascii)
| Hit (m : string).

(** Left-to-right search as done by [replace] and [split]: at each position
    not covered by an earlier match try the pattern; after a match resume
    behind it.  [skip] counts the characters of the current match still to
    pass over, [live] is false once a non-global pattern has matched.  None
    of the module's patterns matches the empty string, so a match always
    advances. *)
Fixpoint scan (r : regex) (global : bool) (prev : option ascii) (s : string)
         (skip : nat) (live : bool) : list token :=
  match s with
  | EmptyString => []
  | String c s' =>
      match skip with
      | S k => scan r global (Some c) s' k live
      | O =>
          if live then
            match match_at r prev s with
            | Some (S n) =>
                Hit (substring 0 (S n) s) :: scan r global (Some c) s' n global
            | _ => Txt c :: scan r global (Some c) s' 0 live
            end
          else Txt c :: scan r global (Some c) s' 0 live
      end
  end.

Definition tokens (r : regex) (global : bool) (s : string) : list token :=
  scan r global None s 0 true.

(** [String.prototype.replace(re, fn)] *)
Fixpoint render (f : string -> string) (ts : list token) : string :=
  match ts with
  | [] => EmptyString
  | Txt c :: ts' => String c (render f ts')
  | Hit m :: ts' => f m ++ render f ts'
  end.

Definition replace (r : regex) (global : bool) (f : string -> string)
           (s : string) : string :=
  render f (tokens r global s).

(** [String.prototype.split(re)]: the text between matches; when the whole
    pattern is a capture group ([keep]) each match is spliced in as well. *)
Fixpoint chunks (keep : bool) (ts : list token) (cur : string) : list string :=
  match ts with
  | [] => [cur]
  | Txt c :: ts' => chunks keep ts' (cur ++ String c EmptyString)
  | Hit m :: ts' =>
      if keep then cur :: m :: chunks keep ts' EmptyString
      else cur :: chunks keep ts' EmptyString
  end.

Definition split (r : regex) (keep : bool) (s : string) : list string :=
  chunks keep (tokens r true s) EmptyString.

(** [RegExp.prototype.test] *)
Definition test (r : regex) (s : string) : bool :=
  existsb (fun t => match t with Hit _ => true | Txt _ => false end)
          (tokens r false s).

(* ===================================================================== *)
(** ** LineDecorator *)
(* ===================================================================== *)

(** [hueFromString]: [h = (h*31 + charCode) >>> 0] over the characters,
    then [h % 360]. *)
Fixpoint hue_loop (h : N) (str : string) : N :=
  match str with
  | EmptyString => h
  | String c str' => hue_loop ((h * 31 + N.of_nat (code c)) mod 2 ^ 32)%N str'
  end.

Definition hueFromString (str : string) : N := (hue_loop 0 str mod 360)%N.

(** [/(<[^>]+>)/g] *)
Definition re_tag : regex :=
  Seq (Lit false "<") (Seq (Plus (is_not ">")) (Lit false ">")).

(** [/^\d+/] *)
Definition re_line_number : regex := Seq Bol (Plus is_digit).

(** [/\b\d+\b/g] *)
Definition re_number : regex := Seq Bnd (Seq (Plus is_digit) Bnd).

(** [/\b([A-Za-z0-9_]+\.py)\b/g] *)
Definition re_py : regex :=
  Seq Bnd (Seq (Plus is_word) (Seq (Lit false ".py") Bnd)).

(** The double-quote character, and a string between double quotes. *)
Definition dq : ascii := ascii_of_nat 34.
Definition quoted (s : string) : string := String dq (s ++ String dq EmptyString).

(** [/<span[^>]*class="[^"]*logfile/] *)
Definition re_logfile_span : regex :=
  Seq (Lit false "<span")
      (Seq (Star (is_not ">"))
           (Seq (Lit false ("class=" ++ String dq EmptyString))
                (Seq (Star (is_not dq)) (Lit false "logfile")))).

(** [/\b(DEBUG|INFO|WARNING|ERROR|CRITICAL|SUCCESS|failed|Connected|SSE stream closed)\b/gi] *)
Definition level_words : list string :=
  ["DEBUG"; "INFO"; "WARNING"; "ERROR"; "CRITICAL"; "SUCCESS";
   "failed"; "Connected"; "SSE stream closed"].

Fixpoint alternatives (ci : bool) (ws : list string) : regex :=
  match ws with
  | [] => Cls (fun _ => false)
  | [w] => Lit ci w
  | w :: ws' => Alt (Lit ci w) (alternatives ci ws')
  end.

Definition re_level : regex :=
  Seq Bnd (Seq (alternatives true level_words) Bnd).

(** [state.levelClasses[key] || 'info'] *)
Definition levelClasses (key : string) : option string :=
  if String.eqb key "DEBUG" then Some "debug"
  else if String.eqb key "INFO" then Some "info"
  else if String.eqb key "WARNING" then Some "warning"
  else if String.eqb key "ERROR" then Some "error"
  else if String.eqb key "CRITICAL" then Some "critical"
  else if String.eqb key "SUCCESS" then Some "success"
  else None.

Definition span_line_number (m : string) : string :=
  "<span class=" ++ quoted "line-number" ++ ">" ++ m ++ "</span>".

Definition span_number (m : string) : string :=
  "<span class=" ++ quoted "number" ++ ">" ++ m ++ "</span>".

Definition span_logfile (hue : N) (fn : string) : string :=
  "<span class=" ++ quoted "logfile" ++ " style=" ++
  quoted ("--h:" ++ N_to_string hue) ++ ">" ++ fn ++ "</span>".

Definition span_level (cls key : string) : string :=
  "<span class=" ++ quoted ("loglvl " ++ cls) ++ ">" ++ key ++ "</span>".

(** The callback of [highlightNumbersOutsideTags] on a chunk that is not a
    tag: first the leading line number, then every standalone number of
    the result. *)
Definition highlightChunk (chunk : string) : string :=
  let chunk1 := replace re_line_number false span_line_number chunk in
  replace re_number true span_number chunk1.

(** [.map((chunk, i) => ...)] over the pieces of the split: pieces at odd
    indices are the captured tags. *)
Fixpoint map_chunks (i : nat) (cs : list string) : list string :=
  match cs with
  | [] => []
  | chunk :: cs' =>
      (if Nat.odd i then chunk else highlightChunk chunk) :: map_chunks (S i) cs'
  end.

Definition highlightNumbersOutsideTags (html : string) : string :=
  join EmptyString (map_chunks 0 (split re_tag true html)).

(** The three callbacks of [processLogLine]. *)
Definition wrap_py (m : string) : string :=
  if test re_logfile_span m then m
  else span_logfile (hueFromString m) m.

Definition wrap_level (m : string) : string :=
  let key := toUpperCase m in
  let cls := match levelClasses key with Some c => c | None => "info" end in
  span_level cls key.

Definition processLogLine (line : string) : string :=
  let modified := line in
  let modified := replace re_py true wrap_py modified in
  let modified := replace re_level true wrap_level modified in
  let modified := highlightNumbersOutsideTags modified in
  modified.

(* ===================================================================== *)
(** ** Notions used to reason about the decorator *)
(* ===================================================================== *)
(** The character before the position reached after reading [m]. *)
Fixpoint advance (prev : option ascii) (m : string) : option ascii :=
  match m with
  | EmptyString => prev
  | String c m' => advance (Some c) m'
  end.

(** Every character of a string is in a class. *)
Fixpoint all (p : ascii -> bool) (s : string) : bool :=
  match s with
  | EmptyString => true
  | String c s' => p c && all p s'
  end.

(** Two strings agree character by character, up to case under [ci]. *)
Fixpoint same (ci : bool) (w m : string) : bool :=
  match w, m with
  | EmptyString, EmptyString => true
  | String a w', String c m' => chr_eq ci a c && same ci w' m'
  | _, _ => false
  end.

(** Decorated text as a sequence of characters of the log line and of
    markup tags [<body>]. *)
Inductive item : Type :=
| Ch (c : ascii)
| Mk (body : string).

Definition tag (body : string) : string := "<" ++ body ++ ">".

Fixpoint flat (its : list item) : string :=
  match its with
  | [] => EmptyString
  | Ch c :: its' => String c (flat its')
  | Mk b :: its' => tag b ++ flat its'
  end.

Fixpoint text (its : list item) : string :=
  match its with
  | [] => EmptyString
  | Ch c :: its' => String c (text its')
  | Mk _ :: its' => text its'
  end.

Fixpoint chars (s : string) : list item :=
  match s with
  | EmptyString => []
  | String c s' => Ch c :: chars s'
  end.

(** A tag as the pattern [<[^>]+>] sees it: a non-empty body without [>]. *)
Definition tag_body (b : string) : Prop :=
  b <> EmptyString /\ all (is_not ">") b = true.

Definition markup (it : item) : Prop :=
  match it with
  | Ch c => c <> "<"%char
  | Mk b => tag_body b
  end.

(** Removal of all tags, [s.replace(/<[^>]+>/g, '')]. *)
Definition strip_tags (s : string) : string :=
  replace re_tag true (fun _ => EmptyString) s.

Definition tok (it : item) : token :=
  match it with
  | Ch c => Txt c
  | Mk b => Hit (tag b)
  end.

(** The pattern [r] matches at no position inside the tag of an item. *)
Definition quiet (r : regex) (it : item) : Prop :=
  match it with
  | Ch _ => True
  | Mk b => forall u v prev rest,
      tag b = u ++ v -> v <> EmptyString -> match_at r prev (v ++ rest) = None
  end.

(** The pattern [r] matches at no position of [t], whatever follows. *)
Definition silent (r : regex) (t : string) : Prop :=
  forall u v prev rest, t = u ++ v -> v <> "" -> match_at r prev (v ++ rest) = None.

(** The 256 code units. *)
Definition code_units : list ascii := map ascii_of_nat (seq 0 256).


(** Characters that can occur in a match of the three decorating
    patterns: of [re_py], of [re_level], and of the two number patterns. *)
Definition in_py (c : ascii) : bool := is_word c || Ascii.eqb c ".".
Definition in_level (c : ascii) : bool :=
  is_upper c || is_lower c || Ascii.eqb c " ".

(** The bodies of the tags the decorator writes. *)
Definition logfile_body (hue : N) : string :=
  "span class=" ++ quoted "logfile" ++ " style=" ++
  quoted ("--h:" ++ N_to_string hue).
Definition level_body (cls : string) : string :=
  "span class=" ++ quoted ("loglvl " ++ cls).
Definition line_number_body : string := "span class=" ++ quoted "line-number".
Definition number_body : string := "span class=" ++ quoted "number".
Definition close_body : string := "/span".

(** [w] and [v] agree, up to case, as far as both go. *)
Fixpoint agree (w v : string) : bool :=
  match w, v with
  | String a w', String c v' => chr_eq true a c && agree w' v'
  | _, _ => true
  end.

Definition may_start (v : string) : bool :=
  existsb (fun w => agree w v) level_words.

Fixpoint suffixes (t : string) : list string :=
  match t with
  | EmptyString => []
  | String _ t' => t :: suffixes t'
  end.

(** What the source pass writes: characters of the line, logfile tags and
    closing tags. *)
Definition py_item (it : item) : Prop :=
  match it with
  | Ch c => c <> "<"%char
  | Mk b => b = close_body \/ exists hue, b = logfile_body hue
  end.

(** What the line-number replacement writes. *)
Definition ln_item (it : item) : Prop :=
  match it with
  | Ch c => c <> "<"%char
  | Mk b => b = close_body \/ b = line_number_body
  end.

(** A decomposition of markup into tags and the text between them. *)
Inductive piece : Type :=
| Text (t : string)
| Tag (body : string).

Definition piece_src (p : piece) : string :=
  match p with
  | Text t => t
  | Tag b => tag b
  end.

(** What the highlighting pass is to emit for a piece: a tag as it is,
    text through the number callback. *)
Definition piece_out (p : piece) : string :=
  match p with
  | Text t => highlightChunk t
  | Tag b => tag b
  end.

(** No tag starts at a position inside [t] when [t] is followed by
    [after]. *)
Definition tag_free (t after : string) : Prop :=
  forall u v b c : string,
    t = u ++ v -> v <> EmptyString -> tag_body b -> v ++ after <> tag b ++ c.

(** [tagged html ps]: [ps] lists, from left to right, the tags of [html]
    and the text between them, each tag being the first one that starts
    after the previous tag. *)
Inductive tagged : string -> list piece -> Prop :=
| tagged_text t :
    tag_free t EmptyString -> tagged t [Text t]
| tagged_tag t b rest ps :
    tag_free t (tag b ++ rest) -> tag_body b -> tagged rest ps ->
    tagged (t ++ tag b ++ rest) (Text t :: Tag b :: ps).

(** One of the level words, in any case. *)
Definition is_level_word (m : string) : bool :=
  existsb (fun w => same true w m) level_words.

(** Decorated text seen as the line it was made from: the characters of
    the line that were kept, the tags that were added, and the words that
    were replaced by their upper-case form. *)
Inductive part : Type :=
| Kept (c : ascii)
| Added (b : string)
| Upper (m : string).

(** What a part stands for in the line, and what it is in the output. *)
Definition part_src (p : part) : string :=
  match p with
  | Kept c => String c EmptyString
  | Added _ => EmptyString
  | Upper m => m
  end.

Definition part_out (p : part) : string :=
  match p with
  | Kept c => String c EmptyString
  | Added b => tag b
  | Upper m => toUpperCase m
  end.

Definition src_of (ps : list part) : string := concat_str (map part_src ps).
Definition out_of (ps : list part) : string := concat_str (map part_out ps).

Definition kepts (m : string) : list part := map Kept (list_ascii_of_string m).

(** The class names of [state.levelClasses] and the fallback. *)
Definition level_classes : list string :=
  ["debug"; "info"; "warning"; "error"; "critical"; "success"].

(** The bodies of the tags the decorator adds: the closing tag and the
    opening tags of the four kinds of span. *)
Definition added (b : string) : Prop :=
  b = close_body \/ b = line_number_body \/ b = number_body \/
  (exists hue, b = logfile_body hue) \/
  (exists cls, In cls level_classes /\ b = level_body cls).

(** The parts of a decorated line: any character kept, an added tag, a
    level word (in any letter case) in upper case. *)
Definition adorns (p : part) : Prop :=
  match p with
  | Kept _ => True
  | Added b => added b
  | Upper m => is_level_word m = true
  end.

(** A part other than a kept character that a pattern with matches in the
    class [P] leaves alone: the pattern matches nowhere inside, and no
    match can run into it. *)
Definition shut (r : regex) (P : ascii -> bool) (p : part) : Prop :=
  match p with
  | Kept _ => True
  | _ => silent r (part_out p) /\
         exists c x, part_out p = String c x /\ P c = false
  end.

(** Parts of the text between tags. *)
Definition texty (p : part) : Prop :=
  match p with
  | Kept _ => True
  | Added _ => False
  | Upper m => is_level_word m = true
  end.

(** What the file-name pass leaves: kept characters, logfile tags and
    closing tags. *)
Definition py_part (p : part) : Prop :=
  match p with
  | Kept _ => True
  | Added b => b = close_body \/ exists hue, b = logfile_body hue
  | Upper _ => False
  end.

(** What the line-number replacement leaves of the text between tags. *)
Definition ln_part (p : part) : Prop :=
  match p with
  | Kept _ => True
  | Added b => b = close_body \/ b = line_number_body
  | Upper m => is_level_word m = true
  end.

(** The parts of a decorated line without [<]. *)
Definition br_free (p : part) : Prop :=
  match p with
  | Kept c => is_not "<" c = true
  | Added b => added b
  | Upper m => is_level_word m = true
  end.

(** The parts the three callbacks write for a match [m]. *)
Definition logfile_parts (m : string) : list part :=
  Added (logfile_body (hueFromString m)) :: kepts m ++ [Added close_body].

Definition level_parts_of (m : string) : list part :=
  [Added (level_body match levelClasses (toUpperCase m) with
                     | Some c => c
                     | None => "info"
                     end);
   Upper m; Added close_body].

Definition number_parts (m : string) : list part :=
  Added number_body :: kepts m ++ [Added close_body].

(** [rewritten r cb prev ps ps']: a global replacement by the pattern [r]
    turns the parts [ps], met after the character [prev], into [ps']: a
    part is passed over, or a run of kept characters that [r] matches is
    replaced by the parts [cb] gives for it. *)
Inductive rewritten (r : regex) (cb : string -> list part)
  : option ascii -> list part -> list part -> Prop :=
| rw_nil prev : rewritten r cb prev [] []
| rw_pass prev p ps ps' :
    rewritten r cb (advance prev (part_out p)) ps ps' ->
    rewritten r cb prev (p :: ps) (p :: ps')
| rw_hit prev m ps ps' :
    m <> EmptyString ->
    match_at r prev (m ++ out_of ps) = Some (String.length m) ->
    rewritten r cb (advance prev m) ps ps' ->
    rewritten r cb prev (kepts m ++ ps) (cb m ++ ps').

(** [inserted a b]: [b] is [a] with tags of the decorator added. *)
Inductive inserted : list part -> list part -> Prop :=
| ins_nil : inserted [] []
| ins_same p a b : inserted a b -> inserted (p :: a) (p :: b)
| ins_tag t a b : added t -> inserted a b -> inserted a (Added t :: b).

(** No added tag sits inside a word of the line: of the characters of the
    line before and after it, one at least is not a word character.
    [before] is the character of the line before the parts. *)
Fixpoint edged (before : option ascii) (ps : list part) : Prop :=
  match ps with
  | [] => True
  | Added _ :: ps' =>
      word_before before && word_after (src_of ps') = false /\ edged before ps'
  | p :: ps' => edged (advance before (part_src p)) ps'
  end.

(** Every word in upper case stands alone in the line: the character of
    the line before it and the one after it, if any, are not word
    characters. *)
Fixpoint alone (before : option ascii) (ps : list part) : Prop :=
  match ps with
  | [] => True
  | Upper m :: ps' =>
      word_before before = false /\ word_after (src_of ps') = false /\
      alone (advance before m) ps'
  | p :: ps' => alone (advance before (part_src p)) ps'
  end.

(** Kept characters only. *)
Definition is_kept (p : part) : Prop :=
  match p with Kept _ => True | _ => False end.

(* ===================================================================== *)
(** ** The console state *)
(* ===================================================================== *)

(** Scroll geometry of the log container, as laid out by the browser. *)
Record Geometry : Type := mkGeometry {
  scrollHeight : Z;
  scrollTop : Z;
  clientHeight : Z
}.

(** The log container [state.el.logConsole]: its markup as written, the
    text assigned to [style.fontSize] and its scroll geometry. *)
Record LogElement : Type := mkLogElement {
  innerHTML : string;
  style_fontSize : string;
  geometry : Geometry
}.

(** The buffer indicator created by [addFloatingUI]. *)
Record Indicator : Type := mkIndicator {
  ind_display : string;
  ind_textContent : string
}.

(** The range input [#consoleFont]: the numeric values of its [min] and [max] attributes ([None] when [+attr] is NaN), its value and the fill of its track, [(numerator, denominator)] of the percentage. *)
Record FontInput : Type := mkFontInput {
  inp_min : option Z;
  inp_max : option Z;
  inp_value : string;
  inp_fill : option (Z * Z)
}.

(** [EventSource.readyState] *)
Inductive ReadyState : Type := CONNECTING | OPEN | CLOSED.

(** [state.el]; [toggleImg] and [scrollBtn] hold the [src] and the [display] of the element. *)
Record Els : Type := mkEls {
  logConsole : option LogElement;
  toggleImg : option string;
  bufferIndicator : option Indicator;
  scrollBtn : option string
}.

(** The [state] object of the module, followed by the part of the host it
    acts on: [scrollTimeout] tells whether the debounce timer it names is
    pending, [reconnectTimers] and [animationFrames] count the callbacks
    queued by [reconnect] and [forceBottom], [localStorage] is the
    preference store, [storageWritable] tells whether [setItem] succeeds,
    [consoleFont] is the slider and [rootFontVar] the [--console-font]
    property of the console root.  The constant fields [fileColors],
    [levelClasses], [reconnectDelay], [targetSelector] and [fontKey] are not
    part of the record. *)
Record Console : Type := mkConsole {
  el : Els;
  fontSize : Z;
  maxLines : nat;
  eventSource : option ReadyState;
  isConsoleOn : bool;
  reconnectAttempts : nat;
  maxReconnect : nat;
  isUserScrolling : bool;
  autoScroll : bool;
  scrollTimeout : bool;
  logBuffer : list string;
  maxBufferSize : nat;
  reconnectTimers : nat;
  animationFrames : nat;
  localStorage : list (string * string);
  storageWritable : bool;
  consoleFont : option FontInput;
  rootFontVar : string
}.

Definition set_scrollTop (v : Z) (x : Geometry) : Geometry :=
  {| scrollHeight := scrollHeight x;
     scrollTop := v;
     clientHeight := clientHeight x |}.

Arguments set_scrollTop v x /.

Definition set_innerHTML (v : string) (x : LogElement) : LogElement :=
  {| innerHTML := v;
     style_fontSize := style_fontSize x;
     geometry := geometry x |}.

Arguments set_innerHTML v x /.

Definition set_style_fontSize (v : string) (x : LogElement) : LogElement :=
  {| innerHTML := innerHTML x;
     style_fontSize := v;
     geometry := geometry x |}.

Arguments set_style_fontSize v x /.

Definition set_geometry (v : Geometry) (x : LogElement) : LogElement :=
  {| innerHTML := innerHTML x;
     style_fontSize := style_fontSize x;
     geometry := v |}.

Arguments set_geometry v x /.

Definition set_inp_value (v : string) (x : FontInput) : FontInput :=
  {| inp_min := inp_min x;
     inp_max := inp_max x;
     inp_value := v;
     inp_fill := inp_fill x |}.

Arguments set_inp_value v x /.

Definition set_inp_fill (v : option (Z * Z)) (x : FontInput) : FontInput :=
  {| inp_min := inp_min x;
     inp_max := inp_max x;
     inp_value := inp_value x;
     inp_fill := v |}.

Arguments set_inp_fill v x /.

Definition set_logConsole (v : option LogElement) (x : Els) : Els :=
  {| logConsole := v;
     toggleImg := toggleImg x;
     bufferIndicator := bufferIndicator x;
     scrollBtn := scrollBtn x |}.

Arguments set_logConsole v x /.

Definition set_toggleImg (v : option string) (x : Els) : Els :=
  {| logConsole := logConsole x;
     toggleImg := v;
     bufferIndicator := bufferIndicator x;
     scrollBtn := scrollBtn x |}.

Arguments set_toggleImg v x /.

Definition set_bufferIndicator (v : option Indicator) (x : Els) : Els :=
  {| logConsole := logConsole x;
     toggleImg := toggleImg x;
     bufferIndicator := v;
     scrollBtn := scrollBtn x |}.

Arguments set_bufferIndicator v x /.

Definition set_scrollBtn (v : option string) (x : Els) : Els :=
  {| logConsole := logConsole x;
     toggleImg := toggleImg x;
     bufferIndicator := bufferIndicator x;
     scrollBtn := v |}.

Arguments set_scrollBtn v x /.

Definition set_el (v : Els) (x : Console) : Console :=
  {| el := v;
     fontSize := fontSize x;
     maxLines := maxLines x;
     eventSource := eventSource x;
     isConsoleOn := isConsoleOn x;
     reconnectAttempts := reconnectAttempts x;
     maxReconnect := maxReconnect x;
     isUserScrolling := isUserScrolling x;
     autoScroll := autoScroll x;
     scrollTimeout := scrollTimeout x;
     logBuffer := logBuffer x;
     maxBufferSize := maxBufferSize x;
     reconnectTimers := reconnectTimers x;
     animationFrames := animationFrames x;
     localStorage := localStorage x;
     storageWritable := storageWritable x;
     consoleFont := consoleFont x;
     rootFontVar := rootFontVar x |}.

Arguments set_el v x /.

Definition set_fontSize (v : Z) (x : Console) : Console :=
  {| el := el x;
     fontSize := v;
     maxLines := maxLines x;
     eventSource := eventSource x;
     isConsoleOn := isConsoleOn x;
     reconnectAttempts := reconnectAttempts x;
     maxReconnect := maxReconnect x;
     isUserScrolling := isUserScrolling x;
     autoScroll := autoScroll x;
     scrollTimeout := scrollTimeout x;
     logBuffer := logBuffer x;
     maxBufferSize := maxBufferSize x;
     reconnectTimers := reconnectTimers x;
     animationFrames := animationFrames x;
     localStorage := localStorage x;
     storageWritable := storageWritable x;
     consoleFont := consoleFont x;
     rootFontVar := rootFontVar x |}.

Arguments set_fontSize v x /.

Definition set_eventSource (v : option ReadyState) (x : Console) : Console :=
  {| el := el x;
     fontSize := fontSize x;
     maxLines := maxLines x;
     eventSource := v;
     isConsoleOn := isConsoleOn x;
     reconnectAttempts := reconnectAttempts x;
     maxReconnect := maxReconnect x;
     isUserScrolling := isUserScrolling x;
     autoScroll := autoScroll x;
     scrollTimeout := scrollTimeout x;
     logBuffer := logBuffer x;
     maxBufferSize := maxBufferSize x;
     reconnectTimers := reconnectTimers x;
     animationFrames := animationFrames x;
     localStorage := localStorage x;
     storageWritable := storageWritable x;
     consoleFont := consoleFont x;
     rootFontVar := rootFontVar x |}.

Arguments set_eventSource v x /.

Definition set_isConsoleOn (v : bool) (x : Console) : Console :=
  {| el := el x;
     fontSize := fontSize x;
     maxLines := maxLines x;
     eventSource := eventSource x;
     isConsoleOn := v;
     reconnectAttempts := reconnectAttempts x;
     maxReconnect := maxReconnect x;
     isUserScrolling := isUserScrolling x;
     autoScroll := autoScroll x;
     scrollTimeout := scrollTimeout x;
     logBuffer := logBuffer x;
     maxBufferSize := maxBufferSize x;
     reconnectTimers := reconnectTimers x;
     animationFrames := animationFrames x;
     localStorage := localStorage x;
     storageWritable := storageWritable x;
     consoleFont := consoleFont x;
     rootFontVar := rootFontVar x |}.

Arguments set_isConsoleOn v x /.

Definition set_reconnectAttempts (v : nat) (x : Console) : Console :=
  {| el := el x;
     fontSize := fontSize x;
     maxLines := maxLines x;
     eventSource := eventSource x;
     isConsoleOn := isConsoleOn x;
     reconnectAttempts := v;
     maxReconnect := maxReconnect x;
     isUserScrolling := isUserScrolling x;
     autoScroll := autoScroll x;
     scrollTimeout := scrollTimeout x;
     logBuffer := logBuffer x;
     maxBufferSize := maxBufferSize x;
     reconnectTimers := reconnectTimers x;
     animationFrames := animationFrames x;
     localStorage := localStorage x;
     storageWritable := storageWritable x;
     consoleFont := consoleFont x;
     rootFontVar := rootFontVar x |}.

Arguments set_reconnectAttempts v x /.

Definition set_isUserScrolling (v : bool) (x : Console) : Console :=
  {| el := el x;
     fontSize := fontSize x;
     maxLines := maxLines x;
     eventSource := eventSource x;
     isConsoleOn := isConsoleOn x;
     reconnectAttempts := reconnectAttempts x;
     maxReconnect := maxReconnect x;
     isUserScrolling := v;
     autoScroll := autoScroll x;
     scrollTimeout := scrollTimeout x;
     logBuffer := logBuffer x;
     maxBufferSize := maxBufferSize x;
     reconnectTimers := reconnectTimers x;
     animationFrames := animationFrames x;
     localStorage := localStorage x;
     storageWritable := storageWritable x;
     consoleFont := consoleFont x;
     rootFontVar := rootFontVar x |}.

Arguments set_isUserScrolling v x /.

Definition set_autoScroll (v : bool) (x : Console) : Console :=
  {| el := el x;
     fontSize := fontSize x;
     maxLines := maxLines x;
     eventSource := eventSource x;
     isConsoleOn := isConsoleOn x;
     reconnectAttempts := reconnectAttempts x;
     maxReconnect := maxReconnect x;
     isUserScrolling := isUserScrolling x;
     autoScroll := v;
     scrollTimeout := scrollTimeout x;
     logBuffer := logBuffer x;
     maxBufferSize := maxBufferSize x;
     reconnectTimers := reconnectTimers x;
     animationFrames := animationFrames x;
     localStorage := localStorage x;
     storageWritable := storageWritable x;
     consoleFont := consoleFont x;
     rootFontVar := rootFontVar x |}.

Arguments set_autoScroll v x /.

Definition set_scrollTimeout (v : bool) (x : Console) : Console :=
  {| el := el x;
     fontSize := fontSize x;
     maxLines := maxLines x;
     eventSource := eventSource x;
     isConsoleOn := isConsoleOn x;
     reconnectAttempts := reconnectAttempts x;
     maxReconnect := maxReconnect x;
     isUserScrolling := isUserScrolling x;
     autoScroll := autoScroll x;
     scrollTimeout := v;
     logBuffer := logBuffer x;
     maxBufferSize := maxBufferSize x;
     reconnectTimers := reconnectTimers x;
     animationFrames := animationFrames x;
     localStorage := localStorage x;
     storageWritable := storageWritable x;
     consoleFont := consoleFont x;
     rootFontVar := rootFontVar x |}.

Arguments set_scrollTimeout v x /.

Definition set_logBuffer (v : list string) (x : Console) : Console :=
  {| el := el x;
     fontSize := fontSize x;
     maxLines := maxLines x;
     eventSource := eventSource x;
     isConsoleOn := isConsoleOn x;
     reconnectAttempts := reconnectAttempts x;
     maxReconnect := maxReconnect x;
     isUserScrolling := isUserScrolling x;
     autoScroll := autoScroll x;
     scrollTimeout := scrollTimeout x;
     logBuffer := v;
     maxBufferSize := maxBufferSize x;
     reconnectTimers := reconnectTimers x;
     animationFrames := animationFrames x;
     localStorage := localStorage x;
     storageWritable := storageWritable x;
     consoleFont := consoleFont x;
     rootFontVar := rootFontVar x |}.

Arguments set_logBuffer v x /.

Definition set_maxBufferSize (v : nat) (x : Console) : Console :=
  {| el := el x;
     fontSize := fontSize x;
     maxLines := maxLines x;
     eventSource := eventSource x;
     isConsoleOn := isConsoleOn x;
     reconnectAttempts := reconnectAttempts x;
     maxReconnect := maxReconnect x;
     isUserScrolling := isUserScrolling x;
     autoScroll := autoScroll x;
     scrollTimeout := scrollTimeout x;
     logBuffer := logBuffer x;
     maxBufferSize := v;
     reconnectTimers := reconnectTimers x;
     animationFrames := animationFrames x;
     localStorage := localStorage x;
     storageWritable := storageWritable x;
     consoleFont := consoleFont x;
     rootFontVar := rootFontVar x |}.

Arguments set_maxBufferSize v x /.

Definition set_reconnectTimers (v : nat) (x : Console) : Console :=
  {| el := el x;
     fontSize := fontSize x;
     maxLines := maxLines x;
     eventSource := eventSource x;
     isConsoleOn := isConsoleOn x;
     reconnectAttempts := reconnectAttempts x;
     maxReconnect := maxReconnect x;
     isUserScrolling := isUserScrolling x;
     autoScroll := autoScroll x;
     scrollTimeout := scrollTimeout x;
     logBuffer := logBuffer x;
     maxBufferSize := maxBufferSize x;
     reconnectTimers := v;
     animationFrames := animationFrames x;
     localStorage := localStorage x;
     storageWritable := storageWritable x;
     consoleFont := consoleFont x;
     rootFontVar := rootFontVar x |}.

Arguments set_reconnectTimers v x /.

Definition set_animationFrames (v : nat) (x : Console) : Console :=
  {| el := el x;
     fontSize := fontSize x;
     maxLines := maxLines x;
     eventSource := eventSource x;
     isConsoleOn := isConsoleOn x;
     reconnectAttempts := reconnectAttempts x;
     maxReconnect := maxReconnect x;
     isUserScrolling := isUserScrolling x;
     autoScroll := autoScroll x;
     scrollTimeout := scrollTimeout x;
     logBuffer := logBuffer x;
     maxBufferSize := maxBufferSize x;
     reconnectTimers := reconnectTimers x;
     animationFrames := v;
     localStorage := localStorage x;
     storageWritable := storageWritable x;
     consoleFont := consoleFont x;
     rootFontVar := rootFontVar x |}.

Arguments set_animationFrames v x /.

Definition set_localStorage (v : list (string * string)) (x : Console) : Console :=
  {| el := el x;
     fontSize := fontSize x;
     maxLines := maxLines x;
     eventSource := eventSource x;
     isConsoleOn := isConsoleOn x;
     reconnectAttempts := reconnectAttempts x;
     maxReconnect := maxReconnect x;
     isUserScrolling := isUserScrolling x;
     autoScroll := autoScroll x;
     scrollTimeout := scrollTimeout x;
     logBuffer := logBuffer x;
     maxBufferSize := maxBufferSize x;
     reconnectTimers := reconnectTimers x;
     animationFrames := animationFrames x;
     localStorage := v;
     storageWritable := storageWritable x;
     consoleFont := consoleFont x;
     rootFontVar := rootFontVar x |}.

Arguments set_localStorage v x /.

Definition set_consoleFont (v : option FontInput) (x : Console) : Console :=
  {| el := el x;
     fontSize := fontSize x;
     maxLines := maxLines x;
     eventSource := eventSource x;
     isConsoleOn := isConsoleOn x;
     reconnectAttempts := reconnectAttempts x;
     maxReconnect := maxReconnect x;
     isUserScrolling := isUserScrolling x;
     autoScroll := autoScroll x;
     scrollTimeout := scrollTimeout x;
     logBuffer := logBuffer x;
     maxBufferSize := maxBufferSize x;
     reconnectTimers := reconnectTimers x;
     animationFrames := animationFrames x;
     localStorage := localStorage x;
     storageWritable := storageWritable x;
     consoleFont := v;
     rootFontVar := rootFontVar x |}.

Arguments set_consoleFont v x /.

Definition set_rootFontVar (v : string) (x : Console) : Console :=
  {| el := el x;
     fontSize := fontSize x;
     maxLines := maxLines x;
     eventSource := eventSource x;
     isConsoleOn := isConsoleOn x;
     reconnectAttempts := reconnectAttempts x;
     maxReconnect := maxReconnect x;
     isUserScrolling := isUserScrolling x;
     autoScroll := autoScroll x;
     scrollTimeout := scrollTimeout x;
     logBuffer := logBuffer x;
     maxBufferSize := maxBufferSize x;
     reconnectTimers := reconnectTimers x;
     animationFrames := animationFrames x;
     localStorage := localStorage x;
     storageWritable := storageWritable x;
     consoleFont := consoleFont x;
     rootFontVar := v |}.

Arguments set_rootFontVar v x /.

(** Updates of the log container, when there is one. *)
Definition with_logConsole (f : LogElement -> LogElement) (st : Console) : Console :=
  match logConsole (el st) with
  | Some lc => set_el (set_logConsole (Some (f lc)) (el st)) st
  | None => st
  end.

Definition has_logConsole (st : Console) : bool :=
  match logConsole (el st) with Some _ => true | None => false end.

(** The markup of the log container ([""] when there is none). *)
Definition html (st : Console) : string :=
  match logConsole (el st) with Some lc => innerHTML lc | None => EmptyString end.

(** The [const state = {...}] literal, in a page whose storage is
    [storage] and whose slider is [slider]. *)
Definition initial (storage : list (string * string)) (writable : bool)
           (slider : option FontInput) : Console :=
  {| el := {| logConsole := None; toggleImg := None;
              bufferIndicator := None; scrollBtn := None |};
     fontSize := 12;
     maxLines := 200;
     eventSource := None;
     isConsoleOn := false;
     reconnectAttempts := 0;
     maxReconnect := 5;
     isUserScrolling := false;
     autoScroll := true;
     scrollTimeout := false;
     logBuffer := [];
     maxBufferSize := 1000;
     reconnectTimers := 0;
     animationFrames := 0;
     localStorage := storage;
     storageWritable := writable;
     consoleFont := slider;
     rootFontVar := EmptyString |}.

Definition fontKey : string := "Console.fontPx".
Definition img_on : string := "/web/images/on.png".
Definition img_off : string := "/web/images/off.png".
Definition br : string := "<br>".

(** The separator of [innerHTML.split('<br>')]. *)
Definition re_br : regex := Lit false br.

(* ===================================================================== *)
(** ** Helpers *)
(* ===================================================================== *)

Definition px (v : Z) : string := Z_to_string v ++ "px".

Definition forceBottom (st : Console) : Console :=
  if negb (has_logConsole st) then st
  else
    let st := set_isUserScrolling false st in
    let st := set_autoScroll true st in
    set_animationFrames (S (animationFrames st)) st.

Definition isAtBottom (g : Geometry) (threshold : Z) : bool :=
  let scrollBottom := (scrollHeight g - scrollTop g - clientHeight g)%Z in
  (scrollBottom <=? threshold)%Z.

Definition scrollToBottom (st : Console) : Console :=
  if negb (isUserScrolling st) && autoScroll st then
    with_logConsole
      (fun lc => set_geometry
                   (set_scrollTop (scrollHeight (geometry lc)) (geometry lc)) lc)
      st
  else st.

Definition updateBufferIndicator (st : Console) : Console :=
  match bufferIndicator (el st) with
  | None => st
  | Some _ =>
      let ind :=
        if 0 <? List.length (logBuffer st) then
          {| ind_display := "block";
             ind_textContent :=
               N_to_string (N.of_nat (List.length (logBuffer st))) ++ " new logs" |}
        else
          match bufferIndicator (el st) with
          | Some i => {| ind_display := "none"; ind_textContent := ind_textContent i |}
          | None => {| ind_display := "none"; ind_textContent := EmptyString |}
          end in
      set_el (set_bufferIndicator (Some ind) (el st)) st
  end.

(** [innerHTML += processLogLine(s) + '<br>'], on the markup as written:
    the string read is the string written before, which holds of the page
    for logs of verbatim lines. *)
Definition append_line (s : string) (st : Console) : Console :=
  with_logConsole
    (fun lc => set_innerHTML (innerHTML lc ++ processLogLine s ++ br) lc) st.

(** The line cap at the end of [appendLogs], on the markup as written
    (as for [append_line]). *)
Definition cap_lines (st : Console) : Console :=
  let lines := split re_br false (html st) in
  if maxLines st <? List.length lines then
    with_logConsole
      (fun lc => set_innerHTML (join br (slice_last (maxLines st) lines)) lc) st
  else st.

(** [Array.prototype.shift], for its effect on the array. *)
Definition shift {A} (l : list A) : list A := tl l.

Definition appendLogs (raw : string) (st : Console) : Console :=
  let clean := trim raw in
  if String.eqb clean EmptyString || negb (has_logConsole st) then st
  else if isUserScrolling st || negb (autoScroll st) then
    let st := set_logBuffer (logBuffer st ++ [clean]) st in
    let st :=
      if maxBufferSize st <? List.length (logBuffer st)
      then set_logBuffer (shift (logBuffer st)) st else st in
    updateBufferIndicator st
  else
    let st := append_line clean st in
    let st :=
      if autoScroll st && negb (isUserScrolling st) then scrollToBottom st else st in
    cap_lines st.

(** The body of the [for (const l of buf)] loop in [flushBuffer]. *)
Definition flush_line (st : Console) (l : string) : Console :=
  let s := trim l in
  if String.eqb s EmptyString then st else append_line s st.

Definition flushBuffer (st : Console) : Console :=
  if (List.length (logBuffer st) =? 0) || negb (has_logConsole st) then st
  else
    let buf := logBuffer st in
    let st := set_logBuffer [] st in
    let st := fold_left flush_line buf st in
    let st := scrollToBottom st in
    updateBufferIndicator st.

(* ===================================================================== *)
(** ** SSE *)
(* ===================================================================== *)

Definition set_toggle_src (src : string) (st : Console) : Console :=
  match toggleImg (el st) with
  | Some _ => set_el (set_toggleImg (Some src) (el st)) st
  | None => st
  end.

(** [reconnect]: the callback handed to [setTimeout] is queued; it is run
    by [reconnect_timer] below. *)
Definition reconnect (st : Console) : Console :=
  if reconnectAttempts st <? maxReconnect st then
    set_reconnectTimers (S (reconnectTimers st)) st
  else
    let st := set_isConsoleOn false st in
    set_toggle_src img_off st.

Definition stopSSE (st : Console) : Console :=
  match eventSource st with
  | Some _ => set_eventSource None st
  | None => st
  end.

(** [start]; [created] tells whether [new EventSource(...)] returned (the
    [try] branch) or threw (the [catch] branch). *)
Definition start (created : bool) (st : Console) : Console :=
  let st := stopSSE st in
  let st := set_isConsoleOn true st in
  if created then set_eventSource (Some CONNECTING) st
  else if isConsoleOn st then reconnect st else st.

(** The three handlers installed by [start]. *)
Definition onopen (st : Console) : Console := set_reconnectAttempts 0 st.

Definition onmessage (data : string) (st : Console) : Console := appendLogs data st.

Definition onerror (st : Console) : Console :=
  match eventSource st with
  | Some CLOSED =>
      let st := stopSSE st in
      if isConsoleOn st then reconnect st else st
  | _ => st
  end.

(** The callback queued by [reconnect]: [start(); state.reconnectAttempts++]. *)
Definition reconnect_timer (created : bool) (st : Console) : Console :=
  let st := start created st in
  set_reconnectAttempts (S (reconnectAttempts st)) st.

(* ===================================================================== *)
(** ** Public controls *)
(* ===================================================================== *)

Definition stop (st : Console) : Console :=
  let st := stopSSE st in
  let st := set_reconnectAttempts 0 st in
  let st := set_logBuffer [] st in
  updateBufferIndicator st.

Definition toggle (created : bool) (st : Console) : Console :=
  let st := set_isConsoleOn (negb (isConsoleOn st)) st in
  if isConsoleOn st then
    let st := start created st in
    set_toggle_src img_on st
  else
    let st := stop st in
    set_toggle_src img_off st.

(** [adjustFont]: the size of the state moves by [delta], whatever the
    result, and its text is assigned to [style.fontSize]. *)
Definition adjustFont (delta : Z) (st : Console) : Console :=
  let st := set_fontSize (fontSize st + delta)%Z st in
  with_logConsole (fun lc => set_style_fontSize (px (fontSize st)) lc) st.

(** [Math.round]: the nearest integer, halves rounded up. *)
Definition Math_round (x : Q) : Z := Qfloor (Qplus x (Qmake 1 2)).

(** [+attr || dflt] *)
Definition num_or (attr : option Z) (dflt : Z) : Z :=
  match attr with
  | Some 0%Z | None => dflt
  | Some z => z
  end.

Fixpoint setItem (key value : string) (store : list (string * string))
  : list (string * string) :=
  match store with
  | [] => [(key, value)]
  | (k, v) :: store' =>
      if String.eqb k key then (k, value) :: store'
      else (k, v) :: setItem key value store'
  end.

Fixpoint getItem (key : string) (store : list (string * string)) : option string :=
  match store with
  | [] => None
  | (k, v) :: store' => if String.eqb k key then Some v else getItem key store'
  end.

Definition setFont (x : Q) (st : Console) : Console :=
  let inp := consoleFont st in
  let min := match inp with Some i => num_or (inp_min i) 2 | None => 2%Z end in
  let max := match inp with Some i => num_or (inp_max i) 24 | None => 24%Z end in
  let v := Z.max min (Z.min max (Math_round x)) in
  let st := set_fontSize v st in
  let st :=
    if has_logConsole st then
      let st := with_logConsole (fun lc => set_style_fontSize (px v) lc) st in
      set_rootFontVar (px v) st
    else st in
  let st :=
    if storageWritable st
    then set_localStorage (setItem fontKey (Z_to_string v) (localStorage st)) st
    else st in
  match inp with
  | Some i =>
      let i := set_inp_value (Z_to_string v) i in
      let fill :=
        match inp_min i, inp_max i with
        | Some minv, Some maxv => Some (((v - minv) * 100)%Z, (maxv - minv)%Z)
        | _, _ => None
        end in
      set_consoleFont (Some (set_inp_fill fill i)) st
  | None => st
  end.

(* ===================================================================== *)
(** ** UI extras, listeners and lifecycle *)
(* ===================================================================== *)

Definition set_btn_display (d : string) (st : Console) : Console :=
  match scrollBtn (el st) with
  | Some _ => set_el (set_scrollBtn (Some d) (el st)) st
  | None => st
  end.

(** [addFloatingUI] creates the button and the indicator, both hidden. *)
Definition addFloatingUI (st : Console) : Console :=
  if negb (has_logConsole st) then st
  else
    let st := set_el (set_scrollBtn (Some "none") (el st)) st in
    set_el (set_bufferIndicator
              (Some {| ind_display := "none"; ind_textContent := EmptyString |})
              (el st)) st.

(** Click on the scroll-to-bottom button. *)
Definition click_scrollBtn (st : Console) : Console :=
  let st := set_autoScroll true st in
  let st := set_isUserScrolling false st in
  let st := flushBuffer st in
  let st := scrollToBottom st in
  set_btn_display "none" st.

(** The [scroll] listener installed by [addFloatingUI]. *)
Definition scroll_btn_listener (g : Geometry) (st : Console) : Console :=
  set_btn_display (if isAtBottom g 50 then "none" else "block") st.

(** The debounce callback shared by the [scroll] and [wheel] listeners of
    [attachScrollUX]; [g] is the geometry when it runs. *)
Definition scroll_timer (g : Geometry) (st : Console) : Console :=
  if isAtBottom g 50 then
    let st := set_isUserScrolling false st in
    let st := set_autoScroll true st in
    flushBuffer st
  else st.

(** The [scroll] listener of [attachScrollUX]; [g] is the geometry of the
    container when the event is handled. *)
Definition scroll_listener (g : Geometry) (st : Console) : Console :=
  let st := set_scrollTimeout false st in
  let was := isUserScrolling st in
  let st := set_isUserScrolling true st in
  let st :=
    if isAtBottom g 50 then
      let st := set_autoScroll true st in
      let st := set_isUserScrolling false st in
      if was then flushBuffer st else st
    else set_autoScroll false st in
  set_scrollTimeout true st.

(** The [wheel] listener of [attachScrollUX]. *)
Definition wheel_listener (st : Console) : Console :=
  let st := set_scrollTimeout false st in
  let st := set_isUserScrolling true st in
  let st := set_autoScroll false st in
  set_scrollTimeout true st.

(** [parseInt(s, 10)]: leading white space, an optional sign, then the
    longest run of digits; [None] stands for NaN. *)
Fixpoint digits_value (acc : Z) (s : string) : Z :=
  match s with
  | String c s' =>
      if is_digit c then digits_value (acc * 10 + Z.of_nat (code c - 48))%Z s'
      else acc
  | EmptyString => acc
  end.

Definition parse_digits (s : string) : option Z :=
  match s with
  | String c _ => if is_digit c then Some (digits_value 0 s) else None
  | EmptyString => None
  end.

Definition parseInt (s : string) : option Z :=
  match trimStart s with
  | String "-" s' => option_map Z.opp (parse_digits s')
  | String "+" s' => parse_digits s'
  | s' => parse_digits s'
  end.

(** [init]: [container] and [toggleEl] are the results of the two
    [querySelector] calls, [mobile] the result of the user-agent test. *)
Definition init (container : option LogElement) (toggleEl : option string)
           (mobile : bool) (st : Console) : Console :=
  let st := set_el (set_logConsole container (el st)) st in
  let st := set_el (set_toggleImg toggleEl (el st)) st in
  if negb (has_logConsole st) then st
  else
    let stored := getItem fontKey (localStorage st) in
    let missing :=
      match stored with None | Some EmptyString => true | Some _ => false end in
    let st := if mobile && missing then set_fontSize 11 st else st in
    let saved := parseInt (match stored with Some v => v | None => EmptyString end) in
    let st :=
      match saved with
      | Some z => setFont (inject_Z z) st
      | None => with_logConsole (fun lc => set_style_fontSize (px (fontSize st)) lc) st
      end in
    addFloatingUI st.

(** Reply of [/check_console_autostart]. *)
Definition autostart_reply (t : string) (created : bool) (st : Console) : Console :=
  if String.eqb t "True" then start created (set_isConsoleOn true st) else st.

(* ===================================================================== *)
(** ** Events

    Every callback turn of the console: a call of the public surface, an
    event of the current [EventSource], a listener of the log container, or
    a queued callback coming due.  A callback that is not pending, and an
    event of a channel that does not exist, change nothing. *)
(* ===================================================================== *)

Inductive event : Type :=
| Start (created : bool)              (** [start()] *)
| Stop                                (** [stop()] *)
| Toggle (created : bool)             (** [toggle()] *)
| SetFont (x : Q)                     (** [setFont(px)] *)
| AdjustFont (delta : Z)              (** [adjustFont(delta)] *)
| ForceBottom                         (** [forceBottom()] *)
| SseOpen                             (** the channel opens *)
| SseMessage (data : string)          (** the server pushes a line *)
| SseError (closed : bool)            (** the channel fails; [closed] when its
                                          [readyState] is then [CLOSED] *)
| ReconnectTimer (created : bool)     (** a callback of [reconnect] comes due *)
| AnimationFrame                      (** a callback of [forceBottom] runs *)
| Scroll (g : Geometry)
| Wheel
| ScrollTimer (g : Geometry)          (** the debounce timer comes due *)
| ClickScrollBtn
| Unload                              (** [beforeunload] *)
| AutostartReply (t : string) (created : bool).
                                      (** reply of [/check_console_autostart] *)

Definition step (e : event) (st : Console) : Console :=
  match e with
  | Start created => start created st
  | Stop => stop st
  | Toggle created => toggle created st
  | SetFont x => setFont x st
  | AdjustFont delta => adjustFont delta st
  | ForceBottom => forceBottom st
  | SseOpen =>
      match eventSource st with
      | Some CONNECTING => onopen (set_eventSource (Some OPEN) st)
      | _ => st
      end
  | SseMessage data =>
      match eventSource st with
      | Some OPEN => onmessage data st
      | _ => st
      end
  | SseError closed =>
      match eventSource st with
      | Some _ =>
          onerror (set_eventSource (Some (if closed then CLOSED else CONNECTING)) st)
      | None => st
      end
  | ReconnectTimer created =>
      match reconnectTimers st with
      | S n => reconnect_timer created (set_reconnectTimers n st)
      | O => st
      end
  | AnimationFrame =>
      match animationFrames st with
      | S n => scrollToBottom (set_animationFrames n st)
      | O => st
      end
  | Scroll g =>
      if has_logConsole st then scroll_listener g (scroll_btn_listener g st) else st
  | Wheel => if has_logConsole st then wheel_listener st else st
  | ScrollTimer g =>
      if scrollTimeout st then scroll_timer g (set_scrollTimeout false st) else st
  | ClickScrollBtn =>
      match scrollBtn (el st) with Some _ => click_scrollBtn st | None => st end
  | Unload => stopSSE st
  | AutostartReply t created => autostart_reply t created st
  end.

(** A sequence of callback turns, oldest first. *)
Definition run (es : list event) (st : Console) : Console :=
  fold_left (fun st e => step e st) es st.

(* ===================================================================== *)
(** ** Notions used by the statements *)
(* ===================================================================== *)

(** The entries of the rendered log: the pieces of the markup that end in
    [<br>]. *)
Definition rendered (st : Console) : list string :=
  removelast (split re_br false (html st)).

(** The lines pushed by the server during a run, in arrival order, as
    [appendLogs] sees them (trimmed, empty ones dropped). *)
Fixpoint pushed (es : list event) : list string :=
  match es with
  | [] => []
  | SseMessage data :: es' =>
      if String.eqb (trim data) EmptyString then pushed es'
      else trim data :: pushed es'
  | _ :: es' => pushed es'
  end.

(** The view is pinned to the bottom (as opposed to scrolled by the user). *)
Definition pinned (st : Console) : bool :=
  negb (isUserScrolling st) && autoScroll st.

(** A page after [init] found the log container, empty, and the toggle
    image. *)
Definition empty_log : LogElement :=
  {| innerHTML := EmptyString; style_fontSize := EmptyString;
     geometry := {| scrollHeight := 0; scrollTop := 0; clientHeight := 0 |} |}.

Definition ready : Console :=
  init (Some empty_log) (Some img_off) false (initial [] true None).

(** A geometry of the container scrolled to the bottom. *)
Definition at_bottom : Geometry :=
  {| scrollHeight := 1000; scrollTop := 900; clientHeight := 100 |}.

(** [l1] is a subsequence of [l2]: it is [l2] with entries deleted. *)
Inductive sub : list string -> list string -> Prop :=
| sub_nil : sub [] []
| sub_skip x l1 l2 : sub l1 l2 -> sub l1 (x :: l2)
| sub_keep x l1 l2 : sub l1 l2 -> sub (x :: l1) (x :: l2).

(** The markup of a list of lines rendered one after the other. *)
Definition decorated (shown : list string) : string :=
  concat_str (map (fun l => processLogLine l ++ br) shown).

(** Characters that [innerHTML] gives back as they were written in text:
    all but [&], [<] and [>], which the parser reads as markup and the
    serialiser escapes, the no-break space, which is given back as
    [&nbsp;], NUL, which the parser drops, and the carriage return, which
    it turns into a line feed. *)
Definition verbatim_char (c : ascii) : bool :=
  negb (existsb (Nat.eqb (code c)) [0; 13; 38; 60; 62; 160]).

Definition verbatim (s : string) : bool := all verbatim_char s.

(** The log shows the lines [shown], all of them verbatim, and nothing
    else: its markup is then the same as written and as read back. *)
Definition log_of (st : Console) (shown : list string) : Prop :=
  html st = decorated shown /\ forallb verbatim shown = true.

(** The log and the queue hold pushed lines in arrival order: the markup
    of the log is what is left of the decorations of lines [shown] after
    the cap dropped markup from the front, and [shown] followed by the
    queue is a subsequence of what the server pushed. *)
Definition in_arrival_order (es : list event) (st : Console) : Prop :=
  exists shown dropped,
    decorated shown = dropped ++ html st /\
    sub (shown ++ logBuffer st) (pushed es).

Definition no_forceBottom (e : event) : bool :=
  match e with ForceBottom => false | _ => true end.

(** The two scroll classifications, and what a console that was never
    force-pinned keeps true: the queue is empty while pinned and holds
    trimmed, non-empty lines. *)
Definition scroll_consistent (st : Console) : Prop :=
  (isUserScrolling st = false /\ autoScroll st = true /\ logBuffer st = []) \/
  (isUserScrolling st = true /\ autoScroll st = false).

Definition clean_line (l : string) : Prop := trim l = l /\ l <> "".

(** The part of the state that the order of the lines depends on. *)
Definition view (st : Console) : string * list string * bool * bool * bool :=
  (html st, logBuffer st, isUserScrolling st, autoScroll st, has_logConsole st).

Definition touches_log (e : event) : bool :=
  match e with
  | Stop | Toggle _ | SseMessage _ | Scroll _ | Wheel | ScrollTimer _
  | ClickScrollBtn | ForceBottom => true
  | _ => false
  end.

(** What a console that is never force-pinned keeps true. *)
Definition ordered_inv (es : list event) (st : Console) : Prop :=
  has_logConsole st = true /\
  scroll_consistent st /\
  Forall clean_line (logBuffer st) /\
  in_arrival_order es st.

(** [n] copies of an event sequence. *)
Fixpoint times (n : nat) (es : list event) : list event :=
  match n with
  | O => []
  | S n' => es ++ times n' es
  end.

(** [k] reconnection attempts in a row that fail: the reconnect timer
    comes due and opens a channel, which then reports an error and is
    closed. *)
Definition retries (k : nat) : list event :=
  times k [ReconnectTimer true; SseError true].

(** [k] consecutive failed connection attempts with no open in between:
    the attempt of [start()], which fails in the same way, then [k - 1]
    reconnection attempts. *)
Definition failed_attempts (k : nat) : list event :=
  match k with
  | O => []
  | S k' => [Start true; SseError true] ++ retries k'
  end.

(** The client has given up reconnecting. *)
Definition givenUp (st : Console) : Prop :=
  isConsoleOn st = false /\
  eventSource st = None /\
  reconnectTimers st = 0 /\
  (forall src, toggleImg (el st) = Some src -> src = img_off).

(** Callback turns in which [start()] is not called on request: all but
    the calls of [start()] and [toggle()] and the autostart of [init]. *)
Definition automatic (e : event) : bool :=
  match e with
  | Start _ | Toggle _ | AutostartReply _ _ => false
  | _ => true
  end.

(** The queue is within its capacity. *)
Definition buffer_bounded (st : Console) : Prop :=
  List.length (logBuffer st) <= maxBufferSize st.

(** The fields that govern (re)connection. *)
Definition conn (st : Console)
  : option ReadyState * nat * nat * bool * nat * option string :=
  (eventSource st, reconnectTimers st, reconnectAttempts st, isConsoleOn st,
   maxReconnect st, toggleImg (el st)).

(** The client waits for a reconnect timer: enabled, no channel, one
    callback queued, counter [j]. *)
Definition waiting (m : nat) (img : option string) (j : nat) (st : Console) : Prop :=
  conn st = (None, 1, j, true, m, img).


(* ===================================================================== *)
(** ** The page around the console

    The callers of the console in the page script of [web/js/global.js]:
    the Clear button, the font slider and its set-up. *)
(* ===================================================================== *)

(** The [click] listener of [#clearLogs], [$('#logout').innerHTML = ''],
    on a page whose log container is [#logout] (the selector the page
    passes to [init]). *)
Definition clearLogs (st : Console) : Console :=
  with_logConsole (fun lc => set_innerHTML EmptyString lc) st.

(** The slider [#consoleFont] as the page creates it: [min:'2'],
    [max:'24'], [value:'11']. *)
Definition page_slider : FontInput :=
  {| inp_min := Some 2%Z; inp_max := Some 24%Z; inp_value := "11"; inp_fill := None |}.

(** [setupConsoleFontSlider], up to the listener it installs: the slider
    shows the stored size, or 11 when there is none. *)
Definition setupConsoleFontSlider (st : Console) : Console :=
  match consoleFont st with
  | None => st
  | Some inp =>
      let saved :=
        parseInt (match getItem "Console.fontPx" (localStorage st) with
                  | Some v => v
                  | None => EmptyString
                  end) in
      let base := match saved with Some z => z | None => 11%Z end in
      let inp := set_inp_value (Z_to_string base) inp in
      let fill :=
        match inp_min inp, inp_max inp with
        | Some min, Some max => Some (((base - min) * 100)%Z, (max - min)%Z)
        | _, _ => None
        end in
      set_consoleFont (Some (set_inp_fill fill inp)) st
  end.

(** [apply], the body of the [input] listener of the slider; [v] is
    [parseInt(e.target.value, 10)], an integer for a range input. *)
Definition apply (v : Z) (st : Console) : Console :=
  let st := setFont (inject_Z v) st in
  forceBottom st.

(** What happens on the page: a callback turn of the console, a click on
    Clear, or a move of the font slider. *)
Inductive action : Type :=
| Callback (e : event)
| ClearLogs
| FontSlider (v : Z).

Definition act (a : action) (st : Console) : Console :=
  match a with
  | Callback e => step e st
  | ClearLogs => clearLogs st
  | FontSlider v => apply v st
  end.

Definition play (acts : list action) (st : Console) : Console :=
  fold_left (fun st a => act a st) acts st.

(** The callback turns among the actions. *)
Fixpoint events (acts : list action) : list event :=
  match acts with
  | [] => []
  | Callback e :: acts' => e :: events acts'
  | _ :: acts' => events acts'
  end.

(* ===================================================================== *)
(** ** The signal indicator of the Wi-Fi and Bluetooth lists

    [getSignalInfo] and [createSignalIndicator] of [web/js/global.js].
    The level [dbm] is [undefined]/[null] ([None]) or an integer number of
    dBm, as the scan results give it; [String(dbm)] is its decimal
    numeral as long as it is a safe integer. *)
(* ===================================================================== *)

Record SignalInfo : Type := mkSignalInfo {
  bars : nat;
  strength : string;
  color : string
}.

Definition getSignalInfo (dbm : option Z) : SignalInfo :=
  match dbm with
  | None => {| bars := 1; strength := "weak"; color := "var(--danger)" |}
  | Some d =>
      let level := parseInt (Z_to_string d) in
      let ge (bound : Z) :=
        match level with Some l => (bound <=? l)%Z | None => false end in
      if ge (-50)%Z then {| bars := 5; strength := "excellent"; color := "#00ff9a" |}
      else if ge (-60)%Z then {| bars := 4; strength := "good"; color := "#18f0ff" |}
      else if ge (-70)%Z then {| bars := 3; strength := "fair"; color := "#ffd166" |}
      else if ge (-80)%Z then {| bars := 2; strength := "poor"; color := "#ff8a00" |}
      else {| bars := 1; strength := "weak"; color := "#ff3b3b" |}
  end.

(** The element [createSignalIndicator] builds: its class, style and
    title, and the classes of its five children. *)
Record SignalIndicator : Type := mkSignalIndicator {
  sig_class : string;
  sig_style : string;
  sig_title : string;
  sig_bars : list string
}.

Definition createSignalIndicator (dbm : option Z) : SignalIndicator :=
  let info := getSignalInfo dbm in
  {| sig_class := "signal-indicator sig-" ++ strength info;
     sig_style := "--sig-color: " ++ color info;
     sig_title :=
       "Signal: " ++
       match dbm with
       | None | Some 0%Z => "?"
       | Some d => Z_to_string d
       end ++ " dBm";
     sig_bars :=
       map (fun i => "signal-bar " ++ (if i <=? bars info then "active" else ""))
           (seq 1 5) |}.

(* ===================================================================== *)
(** ** Colour helpers of the theme editor

    [isHexColor] and [rgbaToHex] of [web/js/global.js]. *)
(* ===================================================================== *)

(** [[0-9a-f]] under the [i] flag. *)
Definition is_hex (c : ascii) : bool :=
  is_digit c || in_range 97 102 c || in_range 65 70 c.

(** [[class]{n}], [n] at least 1. *)
Fixpoint rep (n : nat) (p : ascii -> bool) : regex :=
  match n with
  | O => Lit false EmptyString
  | S O => Cls p
  | S n' => Seq (Cls p) (rep n' p)
  end.

(** [/^#([0-9a-f]{3}|[0-9a-f]{6}|[0-9a-f]{8})$/i], up to the final [$]. *)
Definition re_hex_color : regex :=
  Seq Bol (Seq (Lit true "#") (Alt (rep 3 is_hex) (Alt (rep 6 is_hex) (rep 8 is_hex)))).

(** [RegExp.prototype.test] for a pattern enclosed in [^] and [$]: the
    pattern is tried at the start of the subject only, and the match has
    to end where the subject ends. *)
Definition test_whole (r : regex) (s : string) : bool :=
  match rmatch r None s 0
          (fun _ rest n => match rest with EmptyString => Some n | _ => None end) with
  | Some _ => true
  | None => false
  end.

Definition isHexColor (v : string) : bool := test_whole re_hex_color (trim v).

(** [Number.prototype.toString(16)] of a non-negative integer. *)
Definition toString16 (n : N) : string :=
  HexadecimalString.NilZero.string_of_uint (N.to_hex_uint n).

(** [String.prototype.padStart(2, '0')] *)
Definition padStart2 (s : string) : string :=
  match String.length s with
  | 0 => "00"
  | 1 => "0" ++ s
  | _ => s
  end.

(** [rgbaToHex], for finite numbers [r], [g], [b]. *)
Definition rgbaToHex (r g b : Q) : string :=
  "#" ++ join EmptyString
           (map (fun n => padStart2 (toString16
                            (Z.to_N (Z.max 0 (Z.min 255 (Math_round n))))))
                [r; g; b]).

(* ===================================================================== *)
(** ** Notions used by the further statements *)
(* ===================================================================== *)

(** Actions that do not pin the view by force: all but [forceBottom()]
    and the font slider, which calls it. *)
Definition no_pin (a : action) : bool :=
  match a with
  | Callback ForceBottom | FontSlider _ => false
  | _ => true
  end.

(** The queued lines [flushBuffer] renders: each one trimmed, the empty
    ones skipped. *)
Definition kept (buf : list string) : list string :=
  filter (fun s => negb (String.eqb s EmptyString)) (map trim buf).

(** The indicator tells the length of the queue: hidden when the queue is
    empty, and otherwise shown with the text "N new logs". *)
Definition indicator_ok (st : Console) : Prop :=
  match bufferIndicator (el st) with
  | None => True
  | Some i =>
      match logBuffer st with
      | [] => ind_display i = "none"
      | _ :: _ =>
          i = {| ind_display := "block";
                 ind_textContent :=
                   N_to_string (N.of_nat (List.length (logBuffer st))) ++ " new logs" |}
      end
  end.

(** The inline font size of the container is the size of the state. *)
Definition font_shown (st : Console) : Prop :=
  match logConsole (el st) with
  | Some lc => style_fontSize lc = px (fontSize st)
  | None => True
  end.

(** A size that the inline style takes and gives back as it was written:
    not negative (a negative [font-size] is refused, and the style keeps
    the value it had) and of at most six digits. *)
Definition css_size (v : Z) : Prop := (0 <= v < 1000000)%Z.

(** The bounds [setFont] clamps to: [+inp.min || 2] and [+inp.max || 24]. *)
Definition font_lo (slider : option FontInput) : Z :=
  match slider with Some i => num_or (inp_min i) 2 | None => 2%Z end.
Definition font_hi (slider : option FontInput) : Z :=
  match slider with Some i => num_or (inp_max i) 24 | None => 24%Z end.

(** The callback turns that bring the view back to the bottom: a click on
    the button, the debounce timer coming due at the bottom, and a scroll
    event at the bottom after the user had scrolled. *)
Definition returns_to_bottom (e : event) (st : Console) : bool :=
  match e with
  | ClickScrollBtn => match scrollBtn (el st) with Some _ => true | None => false end
  | ScrollTimer g => scrollTimeout st && isAtBottom g 50
  | Scroll g => isAtBottom g 50 && isUserScrolling st
  | _ => false
  end.

(** A console without container: nothing rendered or queued, no floating
    UI, nothing scheduled, the view pinned. *)
Definition idle (st : Console) : Prop :=
  has_logConsole st = false /\
  logBuffer st = [] /\
  bufferIndicator (el st) = None /\
  scrollBtn (el st) = None /\
  animationFrames st = 0 /\
  scrollTimeout st = false /\
  pinned st = true.

(** A channel, if there is one, is connecting or open, and the console is
    flagged on. *)
Definition channel_ok (st : Console) : Prop :=
  match eventSource st with
  | None => True
  | Some rs => rs <> CLOSED /\ isConsoleOn st = true
  end.

(** Groups of fields that most operations leave alone. *)
Definition gauge (st : Console) : list string * option Indicator :=
  (logBuffer st, bufferIndicator (el st)).

Definition look (st : Console) : option string * Z :=
  (option_map style_fontSize (logConsole (el st)), fontSize st).

Definition knobs (st : Console) : option string * bool :=
  (scrollBtn (el st), scrollTimeout st).

Definition shell (st : Console)
  : bool * list string * option Indicator * option string * nat * bool * bool * bool :=
  (has_logConsole st, logBuffer st, bufferIndicator (el st), scrollBtn (el st),
   animationFrames st, scrollTimeout st, isUserScrolling st, autoScroll st).

(** Decorated text without digits outside its tags. *)
Definition no_digit (c : ascii) : bool := negb (is_digit c).

Definition plain (it : item) : Prop :=
  match it with
  | Ch c => is_digit c = false /\ c <> "<"%char
  | Mk b => tag_body b
  end.

(** Letters and the underscore. *)
Definition is_letter_us (c : ascii) : bool :=
  is_upper c || is_lower c || (code c =? 95).

(** [Number.isSafeInteger] *)
Definition safe_integer (d : Z) : Prop :=
  (-9007199254740992 < d < 9007199254740992)%Z.

(** The newest [n] entries of a list. *)
Definition newest {A} (n : nat) (l : list A) : list A :=
  skipn (List.length l - n) l.

(** The server pushes the payloads [datas], one message each. *)
Definition pushes (datas : list string) : list event := map SseMessage datas.

(** The log shows whole lines: there is a log container, its markup is
    the decoration of verbatim lines, one after the other, and the queue
    holds verbatim lines. *)
Definition whole_lines (st : Console) : Prop :=
  has_logConsole st = true /\
  forallb verbatim (logBuffer st) = true /\
  exists shown, log_of st shown.

(** The payloads of the actions are verbatim. *)
Definition verbatim_payload (a : action) : bool :=
  match a with
  | Callback (SseMessage data) => verbatim (trim data)
  | _ => true
  end.

(* ===================================================================== *)
(** * Properties *)
(* ===================================================================== *)

(** ** Frame lemmas: what each operation leaves alone *)

Lemma with_logConsole_frame f st :
  logBuffer (with_logConsole f st) = logBuffer st /\
  maxBufferSize (with_logConsole f st) = maxBufferSize st /\
  bufferIndicator (el (with_logConsole f st)) = bufferIndicator (el st) /\
  isUserScrolling (with_logConsole f st) = isUserScrolling st /\
  autoScroll (with_logConsole f st) = autoScroll st /\
  has_logConsole (with_logConsole f st) = has_logConsole st.
Proof.
  unfold with_logConsole, has_logConsole.
  destruct (logConsole (el st)) eqn:E; simpl; rewrite ?E; auto 10.
Qed.

Lemma updateBufferIndicator_frame st :
  logBuffer (updateBufferIndicator st) = logBuffer st /\
  maxBufferSize (updateBufferIndicator st) = maxBufferSize st /\
  html (updateBufferIndicator st) = html st /\
  has_logConsole (updateBufferIndicator st) = has_logConsole st.
Proof.
  unfold updateBufferIndicator, html, has_logConsole.
  destruct (bufferIndicator (el st)); simpl; auto.
Qed.

Lemma scrollToBottom_frame st :
  logBuffer (scrollToBottom st) = logBuffer st /\
  maxBufferSize (scrollToBottom st) = maxBufferSize st /\
  html (scrollToBottom st) = html st /\
  bufferIndicator (el (scrollToBottom st)) = bufferIndicator (el st) /\
  has_logConsole (scrollToBottom st) = has_logConsole st.
Proof.
  unfold scrollToBottom, with_logConsole, html, has_logConsole.
  destruct (negb (isUserScrolling st) && autoScroll st); auto 10.
  destruct (logConsole (el st)) eqn:E; simpl; rewrite ?E; auto 10.
Qed.

Lemma append_line_frame s st :
  logBuffer (append_line s st) = logBuffer st /\
  maxBufferSize (append_line s st) = maxBufferSize st /\
  bufferIndicator (el (append_line s st)) = bufferIndicator (el st) /\
  isUserScrolling (append_line s st) = isUserScrolling st /\
  autoScroll (append_line s st) = autoScroll st /\
  has_logConsole (append_line s st) = has_logConsole st.
Proof. apply with_logConsole_frame. Qed.

Lemma html_append_line s st :
  has_logConsole st = true ->
  html (append_line s st) = html st ++ processLogLine s ++ br.
Proof.
  unfold has_logConsole, append_line, with_logConsole, html.
  destruct (logConsole (el st)); simpl; [reflexivity | discriminate].
Qed.

Lemma cap_lines_frame st :
  logBuffer (cap_lines st) = logBuffer st /\
  maxBufferSize (cap_lines st) = maxBufferSize st /\
  bufferIndicator (el (cap_lines st)) = bufferIndicator (el st).
Proof.
  unfold cap_lines.
  destruct (maxLines st <? _); auto.
  destruct (with_logConsole_frame
              (fun lc => set_innerHTML
                 (join br (slice_last (maxLines st)
                    (split re_br false (html st)))) lc) st)
    as (? & ? & ? & _); auto.
Qed.

Lemma flush_lines_frame buf : forall st,
  logBuffer (fold_left flush_line buf st) = logBuffer st /\
  maxBufferSize (fold_left flush_line buf st) = maxBufferSize st /\
  bufferIndicator (el (fold_left flush_line buf st)) = bufferIndicator (el st) /\
  isUserScrolling (fold_left flush_line buf st) = isUserScrolling st /\
  autoScroll (fold_left flush_line buf st) = autoScroll st /\
  has_logConsole (fold_left flush_line buf st) = has_logConsole st.
Proof.
  induction buf as [|l buf IH]; intros st; simpl; auto 10.
  destruct (IH (flush_line st l)) as (-> & -> & -> & -> & -> & ->).
  unfold flush_line. destruct (String.eqb (trim l) EmptyString); auto 10.
  apply append_line_frame.
Qed.

(** After a flush the queue is empty, whatever the state. *)
Lemma flushBuffer_buffer st :
  has_logConsole st = true ->
  logBuffer (flushBuffer st) = [] /\
  maxBufferSize (flushBuffer st) = maxBufferSize st.
Proof.
  intros Hlc. unfold flushBuffer. rewrite Hlc. cbn [negb].
  destruct (List.length (logBuffer st) =? 0) eqn:E; cbn [orb].
  - apply Nat.eqb_eq in E. destruct (logBuffer st); [auto | discriminate].
  - match goal with
    | |- context [updateBufferIndicator ?s] =>
        destruct (updateBufferIndicator_frame s) as (-> & -> & _)
    end.
    match goal with
    | |- context [scrollToBottom ?s] =>
        destruct (scrollToBottom_frame s) as (-> & -> & _)
    end.
    match goal with
    | |- context [fold_left flush_line ?b ?s] =>
        destruct (flush_lines_frame b s) as (-> & -> & _)
    end.
    auto.
Qed.

Lemma flushBuffer_bound st :
  List.length (logBuffer (flushBuffer st)) <= List.length (logBuffer st) /\
  maxBufferSize (flushBuffer st) = maxBufferSize st.
Proof.
  destruct (has_logConsole st) eqn:Hlc.
  - destruct (flushBuffer_buffer st Hlc) as (-> & ->). simpl. lia.
  - unfold flushBuffer. rewrite Hlc, orb_true_r. auto.
Qed.

(** ** The line buffer *)

Lemma appendLogs_buffer raw st :
  maxBufferSize (appendLogs raw st) = maxBufferSize st /\
  logBuffer (appendLogs raw st) =
    if String.eqb (trim raw) EmptyString || negb (has_logConsole st) then logBuffer st
    else if isUserScrolling st || negb (autoScroll st) then
      if maxBufferSize st <? List.length (logBuffer st ++ [trim raw])%list
      then shift (logBuffer st ++ [trim raw])%list else (logBuffer st ++ [trim raw])%list
    else logBuffer st.
Proof.
  unfold appendLogs.
  destruct (String.eqb (trim raw) EmptyString || negb (has_logConsole st)); auto.
  destruct (isUserScrolling st || negb (autoScroll st)).
  - simpl.
    destruct (maxBufferSize st <? List.length (logBuffer st ++ [trim raw])%list);
      match goal with
      | |- context [updateBufferIndicator ?s] =>
          destruct (updateBufferIndicator_frame s) as (-> & -> & _)
      end; auto.
  - match goal with
    | |- context [cap_lines ?s] => destruct (cap_lines_frame s) as (-> & -> & _)
    end.
    destruct (append_line_frame (trim raw) st) as (Hb & Hm & _ & Hu & Ha & _).
    rewrite Ha, Hu.
    destruct (autoScroll st && negb (isUserScrolling st)).
    + match goal with
      | |- context [scrollToBottom ?s] =>
          destruct (scrollToBottom_frame s) as (-> & -> & _)
      end; auto.
    + auto.
Qed.

Lemma appendLogs_bounded raw st :
  buffer_bounded st -> buffer_bounded (appendLogs raw st).
Proof.
  unfold buffer_bounded. intros H.
  destruct (appendLogs_buffer raw st) as (-> & ->).
  destruct (String.eqb (trim raw) EmptyString || negb (has_logConsole st)); auto.
  destruct (isUserScrolling st || negb (autoScroll st)); auto.
  destruct (maxBufferSize st <? List.length (logBuffer st ++ [trim raw])%list) eqn:E.
  - unfold shift. rewrite length_app in E. simpl in E.
    destruct (logBuffer st) as [|x b]; simpl in *.
    + apply Nat.ltb_lt in E. lia.
    + rewrite length_app. simpl. lia.
  - apply Nat.ltb_ge in E. exact E.
Qed.

Lemma flushBuffer_bounded st :
  buffer_bounded st -> buffer_bounded (flushBuffer st).
Proof.
  unfold buffer_bounded. intros H.
  destruct (flushBuffer_bound st) as (H1 & ->). lia.
Qed.

Lemma stopSSE_frame st :
  logBuffer (stopSSE st) = logBuffer st /\
  maxBufferSize (stopSSE st) = maxBufferSize st /\
  el (stopSSE st) = el st /\
  reconnectTimers (stopSSE st) = reconnectTimers st /\
  reconnectAttempts (stopSSE st) = reconnectAttempts st /\
  isConsoleOn (stopSSE st) = isConsoleOn st /\
  eventSource (stopSSE st) = None.
Proof.
  unfold stopSSE. destruct (eventSource st) eqn:E; simpl; auto 10.
Qed.

Lemma reconnect_frame st :
  logBuffer (reconnect st) = logBuffer st /\
  maxBufferSize (reconnect st) = maxBufferSize st /\
  eventSource (reconnect st) = eventSource st.
Proof.
  unfold reconnect, set_toggle_src.
  destruct (reconnectAttempts st <? maxReconnect st); simpl; auto.
  destruct (toggleImg (el st)); simpl; auto.
Qed.

Lemma start_frame created st :
  logBuffer (start created st) = logBuffer st /\
  maxBufferSize (start created st) = maxBufferSize st.
Proof.
  unfold start. cbn [isConsoleOn set_isConsoleOn]. destruct created.
  - cbn. destruct (stopSSE_frame st) as (-> & -> & _). auto.
  - match goal with
    | |- context [reconnect ?s] => destruct (reconnect_frame s) as (-> & -> & _)
    end.
    cbn. destruct (stopSSE_frame st) as (-> & -> & _). auto.
Qed.

Lemma stop_buffer st :
  logBuffer (stop st) = [] /\ maxBufferSize (stop st) = maxBufferSize st.
Proof.
  unfold stop.
  match goal with
  | |- context [updateBufferIndicator ?s] =>
      destruct (updateBufferIndicator_frame s) as (-> & -> & _)
  end.
  simpl. destruct (stopSSE_frame st) as (_ & -> & _). auto.
Qed.

Lemma set_toggle_src_frame src st :
  logBuffer (set_toggle_src src st) = logBuffer st /\
  maxBufferSize (set_toggle_src src st) = maxBufferSize st.
Proof. unfold set_toggle_src. destruct (toggleImg (el st)); simpl; auto. Qed.

Lemma set_btn_display_frame d st :
  logBuffer (set_btn_display d st) = logBuffer st /\
  maxBufferSize (set_btn_display d st) = maxBufferSize st /\
  has_logConsole (set_btn_display d st) = has_logConsole st.
Proof.
  unfold set_btn_display, has_logConsole.
  destruct (scrollBtn (el st)); simpl; auto.
Qed.

Lemma setFont_frame x st :
  logBuffer (setFont x st) = logBuffer st /\
  maxBufferSize (setFont x st) = maxBufferSize st.
Proof.
  unfold setFont, with_logConsole, has_logConsole.
  destruct (consoleFont st); simpl;
    destruct (logConsole (el st)); simpl;
    destruct (storageWritable st); simpl; auto.
Qed.

Lemma adjustFont_frame d st :
  logBuffer (adjustFont d st) = logBuffer st /\
  maxBufferSize (adjustFont d st) = maxBufferSize st.
Proof.
  unfold adjustFont.
  match goal with
  | |- context [with_logConsole ?f ?s] =>
      destruct (with_logConsole_frame f s) as (-> & -> & _)
  end. auto.
Qed.

(** Every callback turn keeps the queue within its capacity. *)
Ltac use H :=
  match goal with
  | |- buffer_bounded ?s /\ _ => apply (H s); simpl
  end.

Lemma step_bounded e st :
  buffer_bounded st ->
  buffer_bounded (step e st) /\ maxBufferSize (step e st) = maxBufferSize st.
Proof.
  intros H.
  assert (frame : forall st', logBuffer st' = logBuffer st ->
                              maxBufferSize st' = maxBufferSize st ->
                              buffer_bounded st' /\ maxBufferSize st' = maxBufferSize st).
  { unfold buffer_bounded. intros st' -> ->. auto. }
  assert (below : forall st', List.length (logBuffer st') <= List.length (logBuffer st) ->
                              maxBufferSize st' = maxBufferSize st ->
                              buffer_bounded st' /\ maxBufferSize st' = maxBufferSize st).
  { unfold buffer_bounded in *. intros st' ? ->. split; [lia | auto]. }
  destruct e; simpl.
  - use frame; apply start_frame.
  - destruct (stop_buffer st) as (E1 & E2).
    use below; [rewrite E1; simpl; lia | exact E2].
  - unfold toggle.
    set (st1 := set_isConsoleOn (negb (isConsoleOn st)) st).
    assert (B1 : logBuffer st1 = logBuffer st) by reflexivity.
    assert (M1 : maxBufferSize st1 = maxBufferSize st) by reflexivity.
    destruct (isConsoleOn st1).
    + destruct (set_toggle_src_frame img_on (start created st1)) as (E1 & E2).
      destruct (start_frame created st1) as (E3 & E4).
      use frame; congruence.
    + destruct (set_toggle_src_frame img_off (stop st1)) as (E1 & E2).
      destruct (stop_buffer st1) as (E3 & E4).
      use below; [rewrite E1, E3; simpl; lia | congruence].
  - use frame; apply setFont_frame.
  - use frame; apply adjustFont_frame.
  - unfold forceBottom. destruct (negb (has_logConsole st)); use frame; auto.
  - destruct (eventSource st) as [[]|]; use frame; auto.
  - destruct (eventSource st) as [[]|]; try (use frame; reflexivity).
    split; [apply appendLogs_bounded; exact H | apply appendLogs_buffer].
  - destruct (eventSource st) as [rs|]; [|use frame; reflexivity].
    unfold onerror. simpl. destruct closed; simpl; [|use frame; reflexivity].
    match goal with
    | |- context [if ?b then _ else _] => destruct b
    end.
    + match goal with
      | |- context [reconnect ?s] => destruct (reconnect_frame s) as (E1 & E2 & _)
      end.
      use frame; [rewrite E1 | rewrite E2]; reflexivity.
    + use frame; reflexivity.
  - destruct (reconnectTimers st); [use frame; reflexivity|].
    unfold reconnect_timer. simpl.
    match goal with
    | |- context [start ?c ?s] => destruct (start_frame c s) as (E1 & E2)
    end.
    use frame; simpl; [rewrite E1 | rewrite E2]; reflexivity.
  - destruct (animationFrames st); [use frame; reflexivity|].
    match goal with
    | |- context [scrollToBottom ?s] =>
        destruct (scrollToBottom_frame s) as (E1 & E2 & _)
    end.
    use frame; [rewrite E1 | rewrite E2]; reflexivity.
  - destruct (has_logConsole st); [|use frame; reflexivity].
    unfold scroll_listener, scroll_btn_listener. simpl.
    match goal with
    | |- context [set_btn_display ?d st] =>
        destruct (set_btn_display_frame d st) as (E1 & E2 & _);
        generalize dependent (set_btn_display d st)
    end.
    intros st1 E1 E2. destruct (isAtBottom g 50); simpl.
    + destruct (isUserScrolling st1); simpl; [|use frame; auto].
      match goal with
      | |- context [flushBuffer ?s] => destruct (flushBuffer_bound s) as (E3 & E4)
      end.
      simpl in *. use below; [rewrite <- E1; exact E3 | congruence].
    + use frame; auto.
  - destruct (has_logConsole st); use frame; reflexivity.
  - destruct (scrollTimeout st); [|use frame; reflexivity].
    unfold scroll_timer. destruct (isAtBottom g 50); [|use frame; reflexivity].
    match goal with
    | |- context [flushBuffer ?s] => destruct (flushBuffer_bound s) as (E3 & E4)
    end.
    simpl in *. use below; assumption.
  - destruct (scrollBtn (el st)); [|use frame; reflexivity].
    unfold click_scrollBtn.
    match goal with
    | |- context [set_btn_display ?d ?s] =>
        destruct (set_btn_display_frame d s) as (E1 & E2 & _)
    end.
    match goal with
    | |- context [scrollToBottom ?s] =>
        destruct (scrollToBottom_frame s) as (E3 & E4 & _)
    end.
    match goal with
    | |- context [flushBuffer ?s] => destruct (flushBuffer_bound s) as (E5 & E6)
    end.
    simpl in *. use below; [rewrite E1, E3; exact E5 | congruence].
  - use frame; apply stopSSE_frame.
  - unfold autostart_reply. destruct (String.eqb t "True"); [|use frame; reflexivity].
    destruct (start_frame created (set_isConsoleOn true st)) as (E1 & E2).
    use frame; assumption.
Qed.

Lemma run_bounded es : forall st,
  buffer_bounded st ->
  buffer_bounded (run es st) /\ maxBufferSize (run es st) = maxBufferSize st.
Proof.
  induction es as [|e es IH]; intros st H; simpl; [auto|].
  destruct (step_bounded e st H) as (H1 & H2).
  destruct (IH _ H1) as (H3 & H4). split; [exact H3 | congruence].
Qed.

(** C4.  The queue never holds more than [maxBufferSize] lines, whatever
    callbacks run; a line pushed while the view is scrolled and the queue
    is full evicts exactly the oldest queued line; and with capacity 2,
    pushing a, b, c while scrolled leaves [b; c] and the indicator, hidden
    before, shown with the text "2 new logs"; the next flush renders b
    then c, empties the queue and hides the indicator. *)
Theorem buffer_capacity (st : Console) (es : list event)
        (st1 : Console) (raw : string) :
  buffer_bounded st ->
  has_logConsole st1 = true ->
  pinned st1 = false ->
  trim raw <> EmptyString ->
  0 < maxBufferSize st1 ->
  List.length (logBuffer st1) = maxBufferSize st1 ->
  buffer_bounded (run es st) /\
  logBuffer (appendLogs raw st1) = (shift (logBuffer st1) ++ [trim raw])%list /\
  (let scrolled := run [Start true; SseOpen; Wheel] (set_maxBufferSize 2 ready) in
   let full := run [SseMessage "a"; SseMessage "b"; SseMessage "c"] scrolled in
   let flushed := step (ScrollTimer at_bottom) full in
   option_map ind_display (bufferIndicator (el scrolled)) = Some "none" /\
   logBuffer full = ["b"; "c"] /\
   rendered full = [] /\
   bufferIndicator (el full)
   = Some {| ind_display := "block"; ind_textContent := "2 new logs" |} /\
   rendered flushed = ["b"; "c"] /\
   logBuffer flushed = [] /\
   option_map ind_display (bufferIndicator (el flushed)) = Some "none").
Proof.
  intros Hb Hlc Hpin Hraw Hcap Hfull. split; [|split].
  - apply run_bounded. exact Hb.
  - destruct (appendLogs_buffer raw st1) as (_ & ->).
    rewrite Hlc. cbn [negb]. rewrite orb_false_r.
    destruct (String.eqb (trim raw) EmptyString) eqn:E.
    { apply String.eqb_eq in E. contradiction. }
    unfold pinned in Hpin.
    replace (isUserScrolling st1 || negb (autoScroll st1)) with true
      by (destruct (isUserScrolling st1), (autoScroll st1); simpl in *; congruence).
    rewrite length_app, Hfull. simpl.
    replace (maxBufferSize st1 <? maxBufferSize st1 + 1) with true
      by (symmetry; apply Nat.ltb_lt; lia).
    unfold shift. destruct (logBuffer st1); simpl in *; [lia | reflexivity].
  - vm_compute. repeat split; reflexivity.
Qed.

Lemma buffer_capacity_witness :
  let st1 := run [Start true; SseOpen; Wheel; SseMessage "a"; SseMessage "b"]
                 (set_maxBufferSize 2 ready) in
  logBuffer (appendLogs "c" st1) = ["b"; "c"].
Proof.
  intros st1.
  refine (proj1 (proj2 (buffer_capacity ready [Wheel; SseMessage "x"] st1 "c"
                          _ _ _ _ _ _))).
  - unfold buffer_bounded. vm_compute. lia.
  - reflexivity.
  - reflexivity.
  - discriminate.
  - vm_compute. lia.
  - reflexivity.
Defined.

(** ** forceBottom *)

Lemma cap_lines_has st : has_logConsole (cap_lines st) = has_logConsole st.
Proof.
  unfold cap_lines. destruct (maxLines st <? _); [|reflexivity].
  apply with_logConsole_frame.
Qed.

Lemma appendLogs_pinned raw st :
  has_logConsole st = true ->
  pinned st = true ->
  trim raw <> EmptyString ->
  appendLogs raw st = cap_lines (scrollToBottom (append_line (trim raw) st)).
Proof.
  intros Hlc Hpin Hraw. unfold appendLogs, pinned in *.
  rewrite Hlc. cbn [negb]. rewrite orb_false_r.
  destruct (String.eqb (trim raw) EmptyString) eqn:E.
  { apply String.eqb_eq in E. contradiction. }
  apply andb_true_iff in Hpin. destruct Hpin as (Hu & Ha).
  apply negb_true_iff in Hu.
  destruct (append_line_frame (trim raw) st) as (_ & _ & _ & Hu' & Ha' & _).
  rewrite Hu, Ha, Ha', Hu'. rewrite Hu, Ha. reflexivity.
Qed.

(** C10.  [forceBottom] pins the view at once and leaves the queue and the
    rendered log as they were: a line that arrives next is rendered
    directly (where the log shows verbatim lines and the line is verbatim:
    appended to the markup, then capped) while the queued lines stay
    queued, until a debounced scroll at the bottom flushes them. *)
Theorem forceBottom_keeps_buffer (st : Console) (raw : string) (g : Geometry) :
  has_logConsole st = true ->
  trim raw <> EmptyString ->
  isAtBottom g 50 = true ->
  let st' := forceBottom st in
  let next := appendLogs raw st' in
  pinned st' = true /\
  logBuffer st' = logBuffer st /\
  html st' = html st /\
  (forall shown,
     log_of st shown -> verbatim (trim raw) = true ->
     exists mid, html mid = decorated shown ++ processLogLine (trim raw) ++ br /\
                 next = cap_lines mid) /\
  logBuffer next = logBuffer st /\
  logBuffer (scroll_timer g next) = [].
Proof.
  intros Hlc Hraw Hg st' next.
  assert (Hst' : st' = set_animationFrames (S (animationFrames st))
                         (set_autoScroll true (set_isUserScrolling false st))).
  { unfold st', forceBottom. rewrite Hlc. reflexivity. }
  assert (Hlc' : has_logConsole st' = true) by (rewrite Hst'; exact Hlc).
  assert (Hpin : pinned st' = true) by (rewrite Hst'; reflexivity).
  assert (Hbuf : logBuffer st' = logBuffer st) by (rewrite Hst'; reflexivity).
  assert (Hhtml : html st' = html st) by (rewrite Hst'; reflexivity).
  assert (Hnext : next = cap_lines (scrollToBottom (append_line (trim raw) st')))
    by (apply appendLogs_pinned; assumption).
  assert (Hnb : logBuffer next = logBuffer st).
  { destruct (appendLogs_buffer raw st') as (_ & E). unfold next. rewrite E.
    rewrite Hlc'. cbn [negb]. rewrite orb_false_r.
    destruct (String.eqb (trim raw) EmptyString); [exact Hbuf|].
    unfold pinned in Hpin. apply andb_true_iff in Hpin. destruct Hpin as (Hu & Ha).
    apply negb_true_iff in Hu. rewrite Hu, Ha. simpl. exact Hbuf. }
  repeat split; try assumption.
  - intros shown (Hshown & _) _.
    exists (scrollToBottom (append_line (trim raw) st')). split; [|exact Hnext].
    destruct (scrollToBottom_frame (append_line (trim raw) st')) as (_ & _ & -> & _).
    rewrite html_append_line by exact Hlc'. rewrite Hhtml, Hshown. reflexivity.
  - unfold scroll_timer. rewrite Hg.
    apply flushBuffer_buffer.
    change (has_logConsole next = true).
    rewrite Hnext, cap_lines_has.
    destruct (scrollToBottom_frame (append_line (trim raw) st'))
      as (_ & _ & _ & _ & ->).
    destruct (append_line_frame (trim raw) st') as (_ & _ & _ & _ & _ & ->).
    exact Hlc'.
Qed.

Lemma forceBottom_keeps_buffer_witness :
  let st := run [Start true; SseOpen; Wheel; SseMessage "a"] ready in
  logBuffer (forceBottom st) = ["a"] /\
  logBuffer (appendLogs "b" (forceBottom st)) = ["a"] /\
  exists mid, html mid = "b<br>" /\ appendLogs "b" (forceBottom st) = cap_lines mid.
Proof.
  intros st.
  pose proof (forceBottom_keeps_buffer st "b" at_bottom) as H.
  cbv zeta in H.
  destruct H as (_ & H1 & _ & H3 & H2 & _).
  - reflexivity.
  - discriminate.
  - reflexivity.
  - split; [exact H1|]. split; [exact H2|].
    destruct (H3 []) as (mid & Hm & Hn).
    + split; vm_compute; reflexivity.
    + vm_compute. reflexivity.
    + exists mid. split; [rewrite Hm; vm_compute; reflexivity | exact Hn].
Defined.

(** ** The line cap *)

(** C8.  The run: the view is scrolled, the server pushes 201 lines, the
    view returns to the bottom and the queue is flushed.  All 201 lines
    are then in the rendered log, one more than [maxLines]. *)
Theorem flush_exceeds_line_cap :
  let es := ([Start true; SseOpen; Wheel] ++ times 201 [SseMessage "x"]
             ++ [ScrollTimer at_bottom])%list in
  maxLines (run es ready) = 200 /\
  List.length (rendered (run es ready)) = 201.
Proof. vm_compute. split; reflexivity. Qed.

(** The live path does cap: the same 201 lines pushed while pinned leave
    199 entries. *)
Example live_append_caps :
  let es := ([Start true; SseOpen] ++ times 201 [SseMessage "x"])%list in
  List.length (rendered (run es ready)) = 199.
Proof. vm_compute. reflexivity. Qed.

(** ** Font size *)

Lemma getItem_setItem key value store :
  getItem key (setItem key value store) = Some value.
Proof.
  induction store as [|[k v] store IH]; simpl.
  - rewrite String.eqb_refl. reflexivity.
  - destruct (String.eqb k key) eqn:E; simpl; rewrite E; auto.
Qed.

(** [setFont] stores the clamped, rounded size under the fixed key. *)
Lemma setFont_persists x st :
  storageWritable st = true ->
  getItem fontKey (localStorage (setFont x st))
    = Some (Z_to_string (fontSize (setFont x st))) /\
  (exists lo hi, (lo <= hi -> lo <= fontSize (setFont x st) <= hi)%Z /\
     lo = match consoleFont st with Some i => num_or (inp_min i) 2 | None => 2%Z end /\
     hi = match consoleFont st with Some i => num_or (inp_max i) 24 | None => 24%Z end).
Proof.
  intros Hw. unfold setFont, with_logConsole, has_logConsole.
  destruct (consoleFont st) as [i|]; simpl;
    destruct (logConsole (el st)); simpl; rewrite Hw; simpl;
    rewrite getItem_setItem; (split; [reflexivity|]);
    eexists; eexists; (split; [|split; reflexivity]); lia.
Qed.

(** C9.  [adjustFont(1)] on a console just initialised changes the font
    size to 13 and writes nothing to the store; [adjustFont(100)] gives
    112, above the maximum 24 that [setFont] enforces. *)
Theorem adjustFont_not_persisted :
  fontSize (adjustFont 1 ready) = 13%Z /\
  localStorage (adjustFont 1 ready) = localStorage ready /\
  getItem fontKey (localStorage (adjustFont 1 ready)) = None /\
  fontSize (adjustFont 100 ready) = 112%Z /\
  fontSize (setFont (inject_Z 112) ready) = 24%Z /\
  getItem fontKey (localStorage (setFont (inject_Z 13) ready)) = Some "13".
Proof. vm_compute. repeat split; reflexivity. Qed.

(** ** The connection *)

Lemma conn_set_scrollTimeout v st : conn (set_scrollTimeout v st) = conn st.
Proof. reflexivity. Qed.
Lemma conn_set_isUserScrolling v st : conn (set_isUserScrolling v st) = conn st.
Proof. reflexivity. Qed.
Lemma conn_set_autoScroll v st : conn (set_autoScroll v st) = conn st.
Proof. reflexivity. Qed.
Lemma conn_set_animationFrames v st : conn (set_animationFrames v st) = conn st.
Proof. reflexivity. Qed.
Lemma conn_set_logBuffer v st : conn (set_logBuffer v st) = conn st.
Proof. reflexivity. Qed.
Lemma conn_set_fontSize v st : conn (set_fontSize v st) = conn st.
Proof. reflexivity. Qed.

Lemma conn_with_logConsole f st : conn (with_logConsole f st) = conn st.
Proof.
  unfold with_logConsole, conn. destruct (logConsole (el st)); reflexivity.
Qed.

Lemma conn_updateBufferIndicator st : conn (updateBufferIndicator st) = conn st.
Proof.
  unfold updateBufferIndicator, conn. destruct (bufferIndicator (el st)); reflexivity.
Qed.

Lemma conn_scrollToBottom st : conn (scrollToBottom st) = conn st.
Proof.
  unfold scrollToBottom.
  destruct (negb (isUserScrolling st) && autoScroll st); [|reflexivity].
  apply conn_with_logConsole.
Qed.

Lemma conn_flush_lines buf : forall st, conn (fold_left flush_line buf st) = conn st.
Proof.
  induction buf as [|l buf IH]; intros st; simpl; [reflexivity|].
  rewrite IH. unfold flush_line.
  destruct (String.eqb (trim l) EmptyString); [reflexivity|].
  apply conn_with_logConsole.
Qed.

Lemma conn_flushBuffer st : conn (flushBuffer st) = conn st.
Proof.
  unfold flushBuffer.
  destruct ((List.length (logBuffer st) =? 0) || negb (has_logConsole st));
    [reflexivity|].
  rewrite conn_updateBufferIndicator, conn_scrollToBottom, conn_flush_lines.
  reflexivity.
Qed.

Lemma conn_set_btn_display d st : conn (set_btn_display d st) = conn st.
Proof. unfold set_btn_display, conn. destruct (scrollBtn (el st)); reflexivity. Qed.

Lemma conn_setFont x st : conn (setFont x st) = conn st.
Proof.
  unfold setFont, with_logConsole, has_logConsole, conn.
  destruct (consoleFont st); simpl;
    destruct (logConsole (el st)); simpl;
    destruct (storageWritable st); reflexivity.
Qed.

Lemma conn_adjustFont d st : conn (adjustFont d st) = conn st.
Proof. unfold adjustFont. rewrite conn_with_logConsole. reflexivity. Qed.

Lemma conn_forceBottom st : conn (forceBottom st) = conn st.
Proof. unfold forceBottom. destruct (negb (has_logConsole st)); reflexivity. Qed.

Lemma conn_stopSSE st :
  conn (stopSSE st) = (None, reconnectTimers st, reconnectAttempts st,
                       isConsoleOn st, maxReconnect st, toggleImg (el st)).
Proof. unfold stopSSE, conn. destruct (eventSource st) eqn:E; simpl; congruence. Qed.

Lemma conn_stop st :
  conn (stop st) = (None, reconnectTimers st, 0, isConsoleOn st,
                    maxReconnect st, toggleImg (el st)).
Proof.
  unfold stop. rewrite conn_updateBufferIndicator.
  pose proof (conn_stopSSE st) as E. unfold conn in *. simpl.
  inversion E. reflexivity.
Qed.

(** With no channel and no timer queued, only [start()] and [toggle()]
    open a connection. *)
Lemma quiet_step e st :
  automatic e = true ->
  eventSource st = None -> reconnectTimers st = 0 ->
  eventSource (step e st) = None /\ reconnectTimers (step e st) = 0.
Proof.
  intros Ha He Ht.
  assert (same : forall st', conn st' = conn st ->
                             eventSource st' = None /\ reconnectTimers st' = 0).
  { intros st' E. unfold conn in E. inversion E. split; congruence. }
  destruct e; try discriminate; cbn [step].
  - pose proof (conn_stop st) as E. unfold conn in E. inversion E. split; congruence.
  - apply same, conn_setFont.
  - apply same, conn_adjustFont.
  - apply same, conn_forceBottom.
  - rewrite He. auto.
  - rewrite He. auto.
  - rewrite He. auto.
  - rewrite Ht. auto.
  - destruct (animationFrames st); [auto|].
    apply same. rewrite conn_scrollToBottom. reflexivity.
  - destruct (has_logConsole st); [|auto].
    apply same. unfold scroll_listener, scroll_btn_listener.
    match goal with
    | |- context [set_btn_display ?d st] =>
        pose proof (conn_set_btn_display d st) as E;
        generalize dependent (set_btn_display d st)
    end.
    intros st1 E. rewrite <- E. cbv zeta. rewrite conn_set_scrollTimeout.
    destruct (isAtBottom g 50); [|reflexivity].
    match goal with
    | |- context [if ?b then flushBuffer _ else _] => destruct b
    end; [rewrite conn_flushBuffer|]; reflexivity.
  - destruct (has_logConsole st); auto.
  - destruct (scrollTimeout st); [|auto].
    apply same. unfold scroll_timer.
    destruct (isAtBottom g 50); [|reflexivity].
    rewrite conn_flushBuffer. reflexivity.
  - destruct (scrollBtn (el st)); [|auto].
    apply same. unfold click_scrollBtn.
    rewrite conn_set_btn_display, conn_scrollToBottom, conn_flushBuffer.
    reflexivity.
  - pose proof (conn_stopSSE st) as E. unfold conn in E. inversion E. split; congruence.
Qed.

Lemma quiet_run es : forall st,
  forallb automatic es = true ->
  eventSource st = None -> reconnectTimers st = 0 ->
  eventSource (run es st) = None /\ reconnectTimers (run es st) = 0.
Proof.
  induction es as [|e es IH]; intros st Ha He Ht; simpl in *; [auto|].
  apply andb_true_iff in Ha. destruct Ha as (Ha1 & Ha2).
  destruct (quiet_step e st Ha1 He Ht) as (He' & Ht').
  apply IH; assumption.
Qed.

Lemma run_app es1 es2 st : run (es1 ++ es2) st = run es2 (run es1 st).
Proof. unfold run. apply fold_left_app. Qed.

Lemma times_snoc k es : times (S k) es = (times k es ++ es)%list.
Proof.
  induction k as [|k IH]; simpl in *.
  - rewrite app_nil_r. reflexivity.
  - rewrite IH at 1. rewrite app_assoc. reflexivity.
Qed.

Ltac split_pairs H :=
  repeat (apply pair_equal_spec in H;
          let H' := fresh H in destruct H as [H H']).

Lemma channel_lost st rs :
  isConsoleOn st = true -> eventSource st = Some rs ->
  reconnectAttempts st = 0 -> reconnectTimers st = 0 -> 0 < maxReconnect st ->
  waiting (maxReconnect st) (toggleImg (el st)) 0 (step (SseError true) st).
Proof.
  intros Hon Hes Ha Ht Hm. apply Nat.ltb_lt in Hm.
  unfold waiting, conn.
  cbv [step onerror stopSSE reconnect].
  destruct st as [e fs ml es on ra mr us au sto lb mb rt af ls sw cf rv].
  simpl in *. subst. simpl. rewrite Hm. reflexivity.
Qed.

Lemma retry_failure m img j st :
  waiting m img j st -> S j < m ->
  waiting m img (S j) (run [ReconnectTimer true; SseError true] st).
Proof.
  unfold waiting, conn. intros Hw Hj. apply Nat.ltb_lt in Hj.
  cbv [run fold_left step reconnect_timer start onerror stopSSE reconnect].
  destruct st as [e fs ml es on ra mr us au sto lb mb rt af ls sw cf rv].
  simpl in *. inversion Hw; subst. simpl. rewrite Hj. reflexivity.
Qed.

Lemma last_failure m img j st :
  waiting m img j st -> m <= S j ->
  conn (run [ReconnectTimer true; SseError true] st)
    = (None, 0, S j, false, m, option_map (fun _ => img_off) img).
Proof.
  unfold waiting, conn. intros Hw Hj. apply Nat.ltb_ge in Hj.
  cbv [run fold_left step reconnect_timer start onerror stopSSE reconnect set_toggle_src].
  destruct st as [e fs ml es on ra mr us au sto lb mb rt af ls sw cf rv].
  simpl in *. inversion Hw; subst. simpl. rewrite Hj.
  destruct e as [lc [ti|] bi sb]; reflexivity.
Qed.

Lemma retries_snoc k st :
  run (retries (S k)) st = run [ReconnectTimer true; SseError true] (run (retries k) st).
Proof. unfold retries. rewrite times_snoc, run_app. reflexivity. Qed.

(** After the channel is lost and [k] retries have failed,
    [k < maxReconnect], the client waits for its next retry with counter
    [k]. *)
Lemma retries_waiting st rs :
  isConsoleOn st = true -> eventSource st = Some rs ->
  reconnectAttempts st = 0 -> reconnectTimers st = 0 ->
  forall k, k < maxReconnect st ->
  waiting (maxReconnect st) (toggleImg (el st)) k
          (run (retries k) (step (SseError true) st)).
Proof.
  intros Hon Hes Ha Ht k. induction k as [|k IH]; intros Hk.
  - apply (channel_lost st rs); assumption.
  - rewrite retries_snoc. apply retry_failure; [|lia]. apply IH. lia.
Qed.

(** One more failed retry and the client has given up. *)
Lemma retries_give_up st rs :
  isConsoleOn st = true -> eventSource st = Some rs ->
  reconnectAttempts st = 0 -> reconnectTimers st = 0 -> 0 < maxReconnect st ->
  conn (run (retries (maxReconnect st)) (step (SseError true) st))
    = (None, 0, maxReconnect st, false, maxReconnect st,
       option_map (fun _ => img_off) (toggleImg (el st))).
Proof.
  intros Hon Hes Ha Ht Hm.
  destruct (maxReconnect st) as [|m] eqn:Em; [lia|].
  rewrite retries_snoc.
  apply last_failure with (j := m); [|lia].
  rewrite <- Em. apply (retries_waiting st rs); try assumption. lia.
Qed.

(** C2, as the code has it.  Take a client that is enabled with a channel
    (connecting or open), a reconnect counter of 0 and no timer queued.
    When that channel fails and the reconnection attempts that follow fail
    too, each with an error on a closed channel, the client is still
    enabled with one more retry queued after [k] failed reconnection
    attempts, [k < maxReconnect] (5); after exactly [maxReconnect] failed
    reconnection attempts it has given up (flag off, toggle image off, no
    channel, nothing queued) and no callback turn other than [start()],
    [toggle()] or the autostart opens a channel or queues a retry again.
    Counting the failed attempt of [start()] itself, that is the sixth
    consecutive failure, not the fifth. *)
Theorem reconnect_budget (st : Console) (rs : ReadyState) (k : nat)
        (es : list event) :
  isConsoleOn st = true ->
  eventSource st = Some rs ->
  reconnectAttempts st = 0 ->
  reconnectTimers st = 0 ->
  k < maxReconnect st ->
  forallb automatic es = true ->
  let lost := step (SseError true) st in
  let retrying := run (retries k) lost in
  let final := run (retries (maxReconnect st)) lost in
  (isConsoleOn retrying = true /\ reconnectTimers retrying = 1 /\
   reconnectAttempts retrying = k /\ ~ givenUp retrying) /\
  givenUp final /\
  reconnectAttempts final = maxReconnect st /\
  eventSource (run es final) = None /\
  reconnectTimers (run es final) = 0.
Proof.
  intros Hon Hes Ha Ht Hk Hauto lost retrying final.
  assert (Hw : waiting (maxReconnect st) (toggleImg (el st)) k retrying)
    by (apply (retries_waiting st rs); assumption).
  assert (Hf : conn final = (None, 0, maxReconnect st, false, maxReconnect st,
                             option_map (fun _ => img_off) (toggleImg (el st))))
    by (apply (retries_give_up st rs); try assumption; lia).
  unfold waiting, conn in Hw. unfold conn in Hf.
  split_pairs Hw. split_pairs Hf.
  repeat split; try assumption.
  - intros (Hoff & _). congruence.
  - intros src Hsrc. rewrite Hf0 in Hsrc.
    destruct (toggleImg (el st)); simpl in Hsrc; congruence.
  - apply quiet_run; assumption.
  - apply quiet_run; assumption.
Qed.

Lemma reconnect_budget_witness :
  let st := run [Start true] ready in
  givenUp (run (retries (maxReconnect st)) (step (SseError true) st)) /\
  isConsoleOn (run (retries 4) (step (SseError true) st)) = true.
Proof.
  intros st.
  pose proof (reconnect_budget st CONNECTING 4
                [Stop; Scroll at_bottom; SseError true]) as H.
  cbv zeta in H.
  destruct H as ((H1 & _) & H2 & _).
  - vm_compute. reflexivity.
  - vm_compute. reflexivity.
  - vm_compute. reflexivity.
  - vm_compute. reflexivity.
  - vm_compute. lia.
  - vm_compute. reflexivity.
  - split; [exact H2 | exact H1].
Defined.

(** C2, as stated, fails on the fifth failure: the client is still enabled
    and its sixth attempt is queued and made. *)
Lemma five_failures_not_given_up :
  let st := run (failed_attempts 5) ready in
  isConsoleOn st = true /\
  reconnectTimers st = 1 /\
  eventSource (step (ReconnectTimer true) st) = Some CONNECTING /\
  ~ givenUp st.
Proof.
  cbv zeta. repeat split; try reflexivity.
  intros (Hoff & _). vm_compute in Hoff. discriminate.
Qed.

(** C3, as the code has it.  [stop()] in any state closes the channel,
    resets the reconnect counter, empties the queue and hides its
    indicator, leaves the rendered log as it is, and is idempotent; the
    reconnect callbacks already queued stay queued. *)
Theorem stop_effects (st : Console) :
  let st' := stop st in
  eventSource st' = None /\
  reconnectAttempts st' = 0 /\
  logBuffer st' = [] /\
  option_map ind_display (bufferIndicator (el st'))
    = option_map (fun _ => "none") (bufferIndicator (el st)) /\
  html st' = html st /\
  reconnectTimers st' = reconnectTimers st /\
  stop st' = st'.
Proof.
  unfold stop, stopSSE, updateBufferIndicator, html.
  destruct st as [e fs ml es on ra mr us au sto lb mb rt af ls sw cf rv].
  destruct e as [lc ti bi sb].
  destruct es, bi; simpl; repeat split; reflexivity.
Qed.

(** C3, as stated, fails: a reconnect callback queued before [stop()] is
    still queued after it, and when it comes due it opens a channel
    although neither [start()] nor [toggle()] was called. *)
Lemma stop_leaves_reconnect_timer :
  let st := run [Start true; SseError true] ready in
  reconnectTimers (stop st) = 1 /\
  forallb automatic [Stop; ReconnectTimer true] = true /\
  eventSource (run [Stop; ReconnectTimer true] st) = Some CONNECTING /\
  isConsoleOn (run [Stop; ReconnectTimer true] st) = true.
Proof. vm_compute. repeat split; reflexivity. Qed.

(* ===================================================================== *)
(** * The decorator *)
(* ===================================================================== *)
(** ** Strings *)

Lemma sapp_assoc (a b c : string) : (a ++ b) ++ c = a ++ (b ++ c).
Proof. induction a as [|x a IH]; simpl; [reflexivity | rewrite IH; reflexivity]. Qed.

Lemma sapp_nil_r (a : string) : a ++ "" = a.
Proof. induction a as [|x a IH]; simpl; [reflexivity | rewrite IH; reflexivity]. Qed.

Lemma slength_app (a b : string) :
  String.length (a ++ b) = String.length a + String.length b.
Proof. induction a as [|x a IH]; simpl; [reflexivity | rewrite IH; reflexivity]. Qed.

Lemma substring_app (m rest : string) :
  substring 0 (String.length m) (m ++ rest) = m.
Proof. induction m as [|c m IH]; simpl; [destruct rest|rewrite IH]; reflexivity. Qed.

Lemma sapp_inv_head (a b c : string) : a ++ b = a ++ c -> b = c.
Proof. induction a as [|x a IH]; simpl; intros H; [exact H | inversion H; auto]. Qed.

Lemma advance_app prev a b : advance prev (a ++ b) = advance (advance prev a) b.
Proof. revert prev. induction a as [|x a IH]; intros prev; simpl; auto. Qed.

Lemma all_app p a b : all p (a ++ b) = all p a && all p b.
Proof.
  induction a as [|x a IH]; simpl; [reflexivity|].
  rewrite IH, andb_assoc. reflexivity.
Qed.

(** ** Characters: facts checked on the 256 code units *)

Lemma all_code_units (f : ascii -> bool) :
  forallb f code_units = true -> forall c, f c = true.
Proof.
  intros H c. rewrite forallb_forall in H. apply H.
  rewrite <- (ascii_nat_embedding c). unfold code_units.
  apply in_map, in_seq. pose proof (nat_ascii_bounded c). lia.
Qed.

Lemma code_units_impl (p q : ascii -> bool) :
  forallb (fun c => implb (p c) (q c)) code_units = true ->
  forall c, p c = true -> q c = true.
Proof.
  intros H c Hp. pose proof (all_code_units _ H c) as E. cbv beta in E.
  rewrite Hp in E. exact E.
Qed.

Lemma all_code_pairs (f : ascii -> ascii -> bool) :
  forallb (fun a => forallb (f a) code_units) code_units = true ->
  forall a c, f a c = true.
Proof.
  intros H a c.
  apply (all_code_units (f a)).
  apply (all_code_units (fun a => forallb (f a) code_units) H).
Qed.

(** ** The matcher: what a successful match has read *)

Lemma lit_inv ci w : forall prev s n k res,
  lit ci w prev s n k = Some res ->
  exists m s', s = m ++ s' /\ same ci w m = true /\
               k (advance prev m) s' (n + String.length m) = Some res.
Proof.
  induction w as [|a w IH]; intros prev s n k res H; simpl in H.
  - exists "", s. rewrite Nat.add_0_r. auto.
  - destruct s as [|c s]; [discriminate|].
    destruct (chr_eq ci a c) eqn:E; [|discriminate].
    apply IH in H. destruct H as (m & s' & -> & Hs & Hk).
    exists (String c m), s'. simpl. rewrite E, Hs.
    rewrite <- Nat.add_succ_comm. auto.
Qed.

Lemma many_inv p : forall s prev n k res,
  many p prev s n k = Some res ->
  exists m s', s = m ++ s' /\ all p m = true /\
               k (advance prev m) s' (n + String.length m) = Some res.
Proof.
  induction s as [|c s IH]; intros prev n k res H; simpl in H.
  - exists "", "". rewrite Nat.add_0_r. auto.
  - destruct (p c) eqn:E.
    + destruct (many p (Some c) s (S n) k) eqn:M.
      * inversion H; subst. apply IH in M.
        destruct M as (m & s' & -> & Hm & Hk).
        exists (String c m), s'. simpl. rewrite E, Hm.
        rewrite <- Nat.add_succ_comm. auto.
      * exists "", (String c s). rewrite Nat.add_0_r. auto.
    + exists "", (String c s). rewrite Nat.add_0_r. auto.
Qed.

(** A literal that the input starts with is read. *)
Lemma lit_same ci w : forall m prev rest n k,
  same ci w m = true ->
  lit ci w prev (m ++ rest) n k = k (advance prev m) rest (n + String.length m).
Proof.
  induction w as [|a w IH]; intros m prev rest n k H; destruct m as [|c m];
    simpl in *; try discriminate.
  - rewrite Nat.add_0_r. reflexivity.
  - apply andb_true_iff in H. destruct H as (-> & H).
    rewrite (IH _ _ _ _ _ H). rewrite <- Nat.add_succ_comm. reflexivity.
Qed.

Lemma same_refl w : same false w w = true.
Proof.
  induction w as [|a w IH]; simpl; [reflexivity|].
  unfold chr_eq. rewrite Ascii.eqb_refl. exact IH.
Qed.

Lemma same_eq w : forall m, same false w m = true -> m = w.
Proof.
  induction w as [|a w IH]; intros [|c m] H; simpl in H; try discriminate; auto.
  apply andb_true_iff in H. destruct H as (E & H).
  unfold chr_eq in E. apply Ascii.eqb_eq in E. subst. f_equal. auto.
Qed.

(** The run is read to its end when the continuation refuses to stop
    inside it. *)
Lemma many_run p : forall m prev rest n k,
  all p m = true ->
  (forall m1 m2, m = m1 ++ m2 -> m2 <> "" ->
     k (advance prev m1) (m2 ++ rest) (n + String.length m1) = None) ->
  (match rest with String c _ => p c = false | EmptyString => True end) ->
  many p prev (m ++ rest) n k = k (advance prev m) rest (n + String.length m).
Proof.
  induction m as [|c m IH]; intros prev rest n k Hm Hk Hr; simpl.
  - rewrite Nat.add_0_r. destruct rest as [|c rest]; simpl; [reflexivity|].
    rewrite Hr. reflexivity.
  - simpl in Hm. apply andb_true_iff in Hm. destruct Hm as (-> & Hm).
    rewrite IH; try assumption.
    + rewrite <- Nat.add_succ_comm.
      destruct (k (advance (Some c) m) rest (S n + String.length m)) eqn:E;
        [reflexivity|].
      specialize (Hk "" (String c m) eq_refl). simpl in Hk.
      rewrite Nat.add_0_r in Hk. apply Hk. discriminate.
    + intros m1 m2 -> Hne.
      specialize (Hk (String c m1) m2 eq_refl Hne). simpl in Hk.
      rewrite <- Nat.add_succ_comm in Hk. exact Hk.
Qed.

(** ** The search *)

Lemma scan_skip r g live : forall m prev rest,
  scan r g prev (m ++ rest) (String.length m) live
  = scan r g (advance prev m) rest 0 live.
Proof.
  induction m as [|c m IH]; intros prev rest; simpl.
  - destruct rest; reflexivity.
  - apply IH.
Qed.

Lemma scan_dead r g : forall s prev,
  scan r g prev s 0 false = map Txt (list_ascii_of_string s).
Proof.
  induction s as [|c s IH]; intros prev; simpl; [reflexivity|].
  rewrite IH. reflexivity.
Qed.

Lemma scan_txt r g prev c s :
  match_at r prev (String c s) = None ->
  scan r g prev (String c s) 0 true = Txt c :: scan r g (Some c) s 0 true.
Proof. intros H. simpl. rewrite H. reflexivity. Qed.

Lemma scan_hit r g prev c m rest :
  match_at r prev (String c m ++ rest) = Some (String.length (String c m)) ->
  scan r g prev (String c m ++ rest) 0 true
  = Hit (String c m) :: scan r g (advance prev (String c m)) rest 0 g.
Proof.
  intros H. cbn [scan append]. cbn [append] in H. rewrite H.
  cbn [String.length].
  change (String c (m ++ rest)) with (String c m ++ rest).
  change (S (String.length m)) with (String.length (String c m)).
  rewrite substring_app. rewrite scan_skip. reflexivity.
Qed.

(** Where the pattern matches at no position of [t], the search passes
    over [t]. *)
Lemma scan_quiet r g rest : forall t prev,
  (forall u v prev', t = u ++ v -> v <> "" -> match_at r prev' (v ++ rest) = None) ->
  scan r g prev (t ++ rest) 0 true
  = (map Txt (list_ascii_of_string t) ++ scan r g (advance prev t) rest 0 true)%list.
Proof.
  induction t as [|c t IH]; intros prev H; [reflexivity|].
  cbn [append]. rewrite scan_txt.
  - cbn [list_ascii_of_string map app advance]. f_equal. apply IH.
    intros u v prev' -> Hv. apply (H (String c u) v prev' eq_refl Hv).
  - apply (H "" (String c t) prev eq_refl). discriminate.
Qed.

Lemma render_txt f ts : forall t,
  render f (map Txt (list_ascii_of_string t) ++ ts) = t ++ render f ts.
Proof. induction t as [|c t IH]; simpl; [reflexivity | rewrite IH; reflexivity]. Qed.

(** ** Tags *)

Lemma tag_match_inv prev s n :
  match_at re_tag prev s = Some n ->
  exists b rest, s = tag b ++ rest /\ tag_body b /\ n = String.length (tag b).
Proof.
  unfold match_at, re_tag. cbn [rmatch]. intros H.
  apply lit_inv in H. destruct H as (m1 & s1 & -> & H1 & H).
  apply same_eq in H1. subst m1. cbn [append advance] in *.
  destruct s1 as [|c s1]; [discriminate|].
  destruct (is_not ">" c) eqn:Ec; [|discriminate].
  apply many_inv in H. destruct H as (m2 & s2 & -> & H2 & H).
  apply lit_inv in H. destruct H as (m3 & s3 & -> & H3 & H).
  apply same_eq in H3. subst m3. inversion H; subst n.
  exists (String c m2), s3. unfold tag, tag_body. repeat split.
  - cbn [append]. rewrite !sapp_assoc. reflexivity.
  - discriminate.
  - cbn [all]. rewrite Ec, H2. reflexivity.
  - cbn [append String.length]. rewrite slength_app. cbn [String.length]. lia.
Qed.

Lemma tag_match prev b rest :
  tag_body b ->
  match_at re_tag prev (tag b ++ rest) = Some (String.length (tag b)).
Proof.
  intros (Hne & Hb). destruct b as [|c b]; [contradiction|].
  cbn [all] in Hb. apply andb_true_iff in Hb. destruct Hb as (Hc & Hb).
  unfold match_at, re_tag, tag. cbn [rmatch append lit chr_eq].
  rewrite Ascii.eqb_refl. rewrite Hc. rewrite sapp_assoc.
  rewrite many_run.
  - cbn [append lit chr_eq]. rewrite Ascii.eqb_refl.
    cbn [String.length]. rewrite slength_app. cbn [String.length].
    f_equal. lia.
  - exact Hb.
  - intros m1 m2 -> Hne2. destruct m2 as [|x m2]; [contradiction|].
    rewrite all_app in Hb. apply andb_true_iff in Hb. destruct Hb as (_ & Hb).
    cbn [all] in Hb. apply andb_true_iff in Hb. destruct Hb as (Hx & _).
    cbn [append lit chr_eq]. unfold is_not in Hx.
    apply negb_true_iff in Hx. rewrite Ascii.eqb_sym, Hx. reflexivity.
  - reflexivity.
Qed.

Lemma tag_no_match prev c s :
  c <> "<"%char -> match_at re_tag prev (String c s) = None.
Proof.
  intros Hc. unfold match_at, re_tag. cbn [rmatch lit chr_eq].
  apply Ascii.eqb_neq in Hc. rewrite Ascii.eqb_sym, Hc. reflexivity.
Qed.

(** On decorated text the tag pattern finds exactly the markup. *)
Lemma tag_tokens : forall its prev,
  Forall markup its ->
  scan re_tag true prev (flat its) 0 true = map tok its.
Proof.
  induction its as [|[c|b] its IH]; intros prev H; [reflexivity| |];
    inversion H as [|? ? Hit Hits]; subst; cbn [flat map tok].
  - rewrite scan_txt by (apply tag_no_match; exact Hit).
    rewrite IH by exact Hits. reflexivity.
  - unfold tag at 1. cbn [append].
    change (String "<" ((b ++ ">") ++ flat its))
      with (String "<" (b ++ ">") ++ flat its).
    rewrite scan_hit.
    + rewrite IH by exact Hits. reflexivity.
    + apply (tag_match prev b (flat its) Hit).
Qed.

Lemma strip_flat its : Forall markup its -> strip_tags (flat its) = text its.
Proof.
  intros H. unfold strip_tags, replace, tokens. rewrite tag_tokens by exact H.
  induction H as [|[c|b] its Hit Hits IH]; cbn [map tok render text];
    [reflexivity | rewrite IH; reflexivity | exact IH].
Qed.

(** ** Decorated text *)

Lemma flat_app a b : flat (a ++ b) = flat a ++ flat b.
Proof.
  induction a as [|[c|t] a IH]; cbn [app flat append]; [reflexivity| |];
    rewrite IH; [reflexivity|]. rewrite sapp_assoc. reflexivity.
Qed.

Lemma text_app a b : text (a ++ b) = text a ++ text b.
Proof.
  induction a as [|[c|t] a IH]; cbn [app text append]; [reflexivity| |];
    rewrite IH; reflexivity.
Qed.

Lemma flat_chars s : flat (chars s) = s.
Proof. induction s as [|c s IH]; simpl; [|rewrite IH]; reflexivity. Qed.

Lemma text_chars s : text (chars s) = s.
Proof. induction s as [|c s IH]; simpl; [|rewrite IH]; reflexivity. Qed.

Lemma length_chars s : List.length (chars s) = String.length s.
Proof. induction s as [|c s IH]; simpl; [|rewrite IH]; reflexivity. Qed.

Lemma toUpperCase_app a b : toUpperCase (a ++ b) = toUpperCase a ++ toUpperCase b.
Proof. induction a as [|c a IH]; simpl; [|rewrite IH]; reflexivity. Qed.

(** ** A global replacement over decorated text

    A pattern whose matches consist of characters of a class [P] that
    excludes [<], and which matches nowhere inside the tags present,
    rewrites the characters between the tags only. *)

Section ReplaceItems.

Variables (r : regex) (f : string -> string) (P : ascii -> bool).
Variable good : item -> Prop.

Hypothesis match_inv : forall prev s n,
  match_at r prev s = Some n ->
  exists m rest, s = m ++ rest /\ n = String.length m /\
                 m <> "" /\ all P m = true.
Hypothesis P_lt : P "<" = false.
Hypothesis f_flat : forall m,
  all P m = true -> m <> "" ->
  exists out, f m = flat out /\
              toUpperCase (text out) = toUpperCase m /\ Forall good out.

Lemma flat_prefix : forall m its rest,
  all P m = true -> flat its = m ++ rest ->
  exists its2, its = (chars m ++ its2)%list /\ flat its2 = rest.
Proof.
  induction m as [|c m IH]; intros its rest Hm H.
  - exists its. auto.
  - cbn [all] in Hm. apply andb_true_iff in Hm. destruct Hm as (Hc & Hm).
    destruct its as [|[x|b] its]; cbn [flat append] in H.
    + discriminate.
    + inversion H; subst x. destruct (IH its rest Hm H2) as (its2 & -> & E).
      exists its2. auto.
    + unfold tag in H. cbn [append] in H. inversion H; subst c.
      rewrite P_lt in Hc. discriminate.
Qed.

Lemma replace_items : forall n its,
  List.length its <= n -> Forall good its -> Forall (quiet r) its ->
  forall prev, exists its',
    render f (scan r true prev (flat its) 0 true) = flat its' /\
    toUpperCase (text its') = toUpperCase (text its) /\
    Forall good its'.
Proof.
  induction n as [|n IH]; intros its Hn Hg Hq prev.
  { destruct its; [|simpl in Hn; lia]. exists []. auto. }
  destruct its as [|[c|b] its].
  - exists []. auto.
  - inversion Hg as [|? ? Hg1 Hg2]; inversion Hq as [|? ? Hq1 Hq2]; subst.
    cbn [flat].
    destruct (match_at r prev (String c (flat its))) as [k|] eqn:E.
    + destruct (match_inv _ _ _ E) as (m & rest & Hs & -> & Hne & Hm).
      destruct (flat_prefix m (Ch c :: its) rest Hm Hs) as (its2 & Hits & Hrest).
      destruct m as [|c' m]; [contradiction|].
      rewrite Hs in *. rewrite scan_hit by exact E.
      assert (Hlen : List.length its2 <= n).
      { apply (f_equal (@List.length item)) in Hits.
        rewrite length_app, length_chars in Hits. simpl in Hits, Hn. lia. }
      assert (Hg' : Forall good its2).
      { rewrite Hits in Hg. apply Forall_app in Hg. tauto. }
      assert (Hq' : Forall (quiet r) its2).
      { rewrite Hits in Hq. apply Forall_app in Hq. tauto. }
      rewrite <- Hrest.
      destruct (IH its2 Hlen Hg' Hq' (advance prev (String c' m)))
        as (its' & E1 & E2 & E3).
      destruct (f_flat (String c' m) Hm Hne) as (out & F1 & F2 & F3).
      exists (out ++ its')%list. cbn [render].
      rewrite E1, F1, flat_app, text_app, toUpperCase_app, F2, E2.
      rewrite Hits, text_app, text_chars, toUpperCase_app.
      split; [reflexivity|]. split; [reflexivity|]. apply Forall_app. auto.
    + rewrite scan_txt by exact E.
      simpl in Hn.
      destruct (IH its ltac:(lia) Hg2 Hq2 (Some c)) as (its' & E1 & E2 & E3).
      exists (Ch c :: its'). cbn [render flat text toUpperCase].
      rewrite E1, E2. auto.
  - inversion Hg as [|? ? Hg1 Hg2]; inversion Hq as [|? ? Hq1 Hq2]; subst.
    cbn [flat]. rewrite scan_quiet.
    + simpl in Hn.
      destruct (IH its ltac:(lia) Hg2 Hq2 (advance prev (tag b)))
        as (its' & E1 & E2 & E3).
      exists (Mk b :: its'). rewrite render_txt. cbn [flat text].
      rewrite E1, E2. auto.
    + intros u v prev' Huv Hv. apply (Hq1 u v prev' (flat its) Huv Hv).
Qed.

(** A tag without characters of the class is passed over. *)
Lemma quiet_without b : all (fun c => negb (P c)) (tag b) = true -> quiet r (Mk b).
Proof.
  intros H u v prev rest Huv Hv.
  destruct (match_at r prev (v ++ rest)) as [k|] eqn:E; [|reflexivity].
  destruct (match_inv _ _ _ E) as (m & rest' & Hs & _ & Hne & Hm).
  rewrite Huv, all_app in H. apply andb_true_iff in H. destruct H as (_ & H).
  destruct v as [|x v]; [contradiction|]. destruct m as [|y m]; [contradiction|].
  cbn [append] in Hs. inversion Hs; subst y.
  cbn [all] in H, Hm.
  apply andb_true_iff in H. apply andb_true_iff in Hm.
  destruct H as (H & _). destruct Hm as (Hm & _).
  rewrite Hm in H. discriminate.
Qed.

End ReplaceItems.

(** ** The patterns of the decorator *)

Lemma plus_inv p prev s n k res :
  rmatch (Plus p) prev s n k = Some res ->
  exists m s', s = m ++ s' /\ m <> "" /\ all p m = true /\
               k (advance prev m) s' (n + String.length m) = Some res.
Proof.
  cbn [rmatch]. destruct s as [|c s]; [discriminate|].
  destruct (p c) eqn:E; [|discriminate]. intros H.
  apply many_inv in H. destruct H as (m & s' & -> & Hm & Hk).
  exists (String c m), s'. cbn [append all advance String.length].
  rewrite E, Hm. rewrite Nat.add_succ_r.
  repeat split; auto. discriminate.
Qed.

Lemma seq_eq r1 r2 prev s n k :
  rmatch (Seq r1 r2) prev s n k
  = rmatch r1 prev s n (fun prev' s' n' => rmatch r2 prev' s' n' k).
Proof. reflexivity. Qed.

Lemma rlit_inv ci w prev s n k res :
  rmatch (Lit ci w) prev s n k = Some res ->
  exists m s', s = m ++ s' /\ same ci w m = true /\
               k (advance prev m) s' (n + String.length m) = Some res.
Proof. apply lit_inv. Qed.

Ltac seq_in H := cbv beta in H; rewrite seq_eq in H.

Lemma bnd_inv prev s n k res :
  rmatch Bnd prev s n k = Some res -> k prev s n = Some res.
Proof. cbn [rmatch]. destruct (xorb _ _); [auto | discriminate]. Qed.

Lemma all_impl (p q : ascii -> bool) s :
  (forall c, p c = true -> q c = true) -> all p s = true -> all q s = true.
Proof.
  intros H. induction s as [|c s IH]; simpl; [auto|]. intros E.
  apply andb_true_iff in E. destruct E as (E1 & E2).
  rewrite (H _ E1), (IH E2). reflexivity.
Qed.

Lemma word_in_py c : is_word c = true -> in_py c = true.
Proof. unfold in_py. intros ->. reflexivity. Qed.

Lemma digit_in_word c : is_digit c = true -> is_word c = true.
Proof. unfold is_word. intros ->. rewrite !orb_true_r. reflexivity. Qed.

Lemma py_match_inv prev s n :
  match_at re_py prev s = Some n ->
  exists m rest, s = m ++ rest /\ n = String.length m /\
                 m <> "" /\ all in_py m = true.
Proof.
  unfold match_at, re_py. intros H.
  seq_in H. apply bnd_inv in H. seq_in H. apply plus_inv in H.
  destruct H as (m1 & s1 & -> & Hne & Hm1 & H).
  seq_in H. apply rlit_inv in H. destruct H as (m2 & s2 & -> & Hm2 & H).
  apply same_eq in Hm2. subst m2.
  apply bnd_inv in H. inversion H; subst n.
  exists (m1 ++ ".py"), s2. rewrite sapp_assoc, slength_app.
  repeat split; auto.
  - destruct m1; [contradiction | discriminate].
  - rewrite all_app. rewrite (all_impl _ _ _ word_in_py Hm1). reflexivity.
Qed.

Lemma number_match_inv prev s n :
  match_at re_number prev s = Some n ->
  exists m rest, s = m ++ rest /\ n = String.length m /\
                 m <> "" /\ all is_digit m = true.
Proof.
  unfold match_at, re_number. intros H.
  seq_in H. apply bnd_inv in H. seq_in H. apply plus_inv in H.
  destruct H as (m1 & s1 & -> & Hne & Hm1 & H).
  apply bnd_inv in H. inversion H; subst n.
  exists m1, s1. auto.
Qed.

Lemma line_number_match_inv prev s n :
  match_at re_line_number prev s = Some n ->
  prev = None /\
  exists m rest, s = m ++ rest /\ n = String.length m /\
                 m <> "" /\ all is_digit m = true.
Proof.
  unfold match_at, re_line_number. rewrite seq_eq.
  destruct prev; [discriminate|]. intros H. split; [reflexivity|].
  change (rmatch Bol None s 0) with (fun k : cont => k None s 0) in H.
  cbv beta in H. apply plus_inv in H. destruct H as (m1 & s1 & -> & Hne & Hm1 & H).
  inversion H; subst n. exists m1, s1. auto.
Qed.

Lemma alternatives_inv ci : forall ws prev s n k res,
  rmatch (alternatives ci ws) prev s n k = Some res ->
  exists w m s', In w ws /\ same ci w m = true /\ s = m ++ s' /\
                 k (advance prev m) s' (n + String.length m) = Some res.
Proof.
  induction ws as [|w ws IH]; intros prev s n k res H.
  - cbn in H. destruct s; discriminate.
  - destruct ws as [|w' ws].
    + cbn [alternatives rmatch] in H. apply lit_inv in H.
      destruct H as (m & s' & -> & Hs & Hk). exists w, m, s'. simpl. auto.
    + change (alternatives ci (w :: w' :: ws))
        with (Alt (Lit ci w) (alternatives ci (w' :: ws))) in H.
      cbn [rmatch] in H.
      destruct (lit ci w prev s n k) eqn:E.
      * inversion H; subst. apply lit_inv in E.
        destruct E as (m & s' & -> & Hs & Hk). exists w, m, s'. simpl. auto.
      * apply IH in H. destruct H as (x & m & s' & Hin & Hs & -> & Hk).
        exists x, m, s'. simpl. auto.
Qed.

Lemma level_match_word prev s n :
  match_at re_level prev s = Some n ->
  exists w m rest, In w level_words /\ same true w m = true /\
                   s = m ++ rest /\ n = String.length m.
Proof.
  unfold match_at, re_level. intros H.
  seq_in H. apply bnd_inv in H. seq_in H. apply alternatives_inv in H.
  destruct H as (w & m & s' & Hin & Hs & -> & H).
  apply bnd_inv in H. inversion H; subst n.
  exists w, m, s'. auto.
Qed.

(** Case-insensitive agreement with a letter or a blank. *)
Lemma level_chr a c :
  in_level a = true -> chr_eq true a c = true ->
  in_level c = true /\ upper c = upper a.
Proof.
  intros Ha Hc.
  pose proof (all_code_pairs
    (fun a c => implb (in_level a && chr_eq true a c)
                      (in_level c && Ascii.eqb (upper c) (upper a)))) as H.
  specialize (H ltac:(vm_compute; reflexivity) a c). cbv beta in H.
  rewrite Ha, Hc in H. simpl in H.
  apply andb_true_iff in H. destruct H as (H1 & H2).
  apply Ascii.eqb_eq in H2. auto.
Qed.

Lemma same_level w : forall m,
  all in_level w = true -> same true w m = true ->
  all in_level m = true /\ toUpperCase m = toUpperCase w /\
  (w <> "" -> m <> "").
Proof.
  induction w as [|a w IH]; intros [|c m] Hw H; simpl in *; try discriminate.
  - auto.
  - apply andb_true_iff in Hw. destruct Hw as (Ha & Hw).
    apply andb_true_iff in H. destruct H as (Hc & H).
    destruct (level_chr a c Ha Hc) as (-> & ->).
    destruct (IH m Hw H) as (-> & -> & _).
    repeat split; auto. discriminate.
Qed.

Lemma level_words_class :
  forallb (fun w => all in_level w && negb (String.eqb w "")) level_words = true.
Proof. vm_compute. reflexivity. Qed.

Lemma level_match_inv prev s n :
  match_at re_level prev s = Some n ->
  exists m rest, s = m ++ rest /\ n = String.length m /\
                 m <> "" /\ all in_level m = true.
Proof.
  intros H. apply level_match_word in H.
  destruct H as (w & m & rest & Hin & Hs & -> & ->).
  pose proof level_words_class as Hc. rewrite forallb_forall in Hc.
  specialize (Hc w Hin). apply andb_true_iff in Hc. destruct Hc as (Hc1 & Hc2).
  apply negb_true_iff, String.eqb_neq in Hc2.
  destruct (same_level w m Hc1 Hs) as (H1 & _ & H3).
  exists m, rest. auto.
Qed.

(** A level word read at the head of [v ++ rest] agrees with [v]. *)
Lemma agree_same w : forall m x, same true w m = true -> agree w (m ++ x) = true.
Proof.
  induction w as [|a w IH]; intros [|c m] x H; simpl in *; try discriminate; auto.
  apply andb_true_iff in H. destruct H as (-> & H). simpl. auto.
Qed.

Lemma agree_prefix w : forall v rest, agree w (v ++ rest) = true -> agree w v = true.
Proof.
  induction w as [|a w IH]; intros [|c v] rest H; simpl in *; auto.
  apply andb_true_iff in H. destruct H as (-> & H). simpl. eauto.
Qed.

Lemma level_cannot_start v rest prev :
  may_start v = false -> match_at re_level prev (v ++ rest) = None.
Proof.
  intros Hv. destruct (match_at re_level prev (v ++ rest)) as [n|] eqn:E;
    [|reflexivity].
  apply level_match_word in E. destruct E as (w & m & rest' & Hin & Hs & E & _).
  assert (Ha : agree w v = true).
  { apply agree_prefix with (rest := rest). rewrite E. apply agree_same. exact Hs. }
  unfold may_start in Hv.
  assert (existsb (fun w => agree w v) level_words = true).
  { apply existsb_exists. exists w. auto. }
  congruence.
Qed.

(** ** Passing over a piece of text *)

Lemma sapp_split : forall a b u v : string,
  a ++ b = u ++ v ->
  (exists v1, v = v1 ++ b /\ a = u ++ v1) \/
  (exists u2, u = a ++ u2 /\ b = u2 ++ v).
Proof.
  induction a as [|x a IH]; intros b u v H.
  - right. exists u. auto.
  - destruct u as [|y u].
    + left. exists (String x a). auto.
    + cbn [append] in H. inversion H; subst y.
      destruct (IH _ _ _ H2) as [(v1 & -> & ->) | (u2 & -> & ->)].
      * left. exists v1. auto.
      * right. exists u2. auto.
Qed.

Lemma silent_app r a b : silent r a -> silent r b -> silent r (a ++ b).
Proof.
  intros Ha Hb u v prev rest H Hv.
  destruct (sapp_split _ _ _ _ H) as [(v1 & -> & ->) | (u2 & -> & ->)].
  - destruct v1 as [|x v1].
    + apply (Hb "" b prev rest eq_refl Hv).
    + rewrite sapp_assoc. apply (Ha u (String x v1) prev (b ++ rest) eq_refl).
      discriminate.
  - apply (Hb u2 v prev rest eq_refl Hv).
Qed.

Lemma silent_nil r : silent r "".
Proof. intros [|x u] v prev rest H Hv; [|discriminate]. simpl in H. subst. contradiction. Qed.

Lemma silent_suffixes r t :
  (forall v, In v (suffixes t) ->
             forall prev rest, match_at r prev (v ++ rest) = None) ->
  silent r t.
Proof.
  intros H u v prev rest E Hv. apply H. subst t. clear H.
  induction u as [|x u IH]; cbn [append].
  - destruct v; [contradiction | left; reflexivity].
  - cbn [suffixes]. right. exact IH.
Qed.

(** Text without characters of the class of a pattern. *)
Lemma silent_class r (P : ascii -> bool) t :
  (forall prev s n, match_at r prev s = Some n ->
     exists m rest, s = m ++ rest /\ n = String.length m /\
                    m <> "" /\ all P m = true) ->
  all (fun c => negb (P c)) t = true -> silent r t.
Proof.
  intros Hinv H u v prev rest Huv Hv.
  destruct (match_at r prev (v ++ rest)) as [k|] eqn:E; [|reflexivity].
  destruct (Hinv _ _ _ E) as (m & rest' & Hs & _ & Hne & Hm).
  rewrite Huv, all_app in H. apply andb_true_iff in H. destruct H as (_ & H).
  destruct v as [|x v]; [contradiction|]. destruct m as [|y m]; [contradiction|].
  cbn [append] in Hs. inversion Hs; subst y.
  cbn [all] in H, Hm.
  apply andb_true_iff in H. apply andb_true_iff in Hm.
  destruct H as (H & _). destruct Hm as (Hm & _).
  rewrite Hm in H. discriminate.
Qed.

Lemma silent_level_check t :
  forallb (fun v => negb (may_start v)) (suffixes t) = true ->
  silent re_level t.
Proof.
  intros H. apply silent_suffixes. intros v Hin prev rest.
  rewrite forallb_forall in H. specialize (H v Hin).
  apply negb_true_iff in H. apply level_cannot_start. exact H.
Qed.

(** ** The markup written by the callbacks *)

Lemma span_logfile_flat hue fn :
  span_logfile hue fn
  = flat (Mk (logfile_body hue) :: chars fn ++ [Mk close_body]).
Proof.
  cbn [flat]. rewrite flat_app, flat_chars. cbn [flat].
  unfold span_logfile, logfile_body, tag, close_body.
  cbn [append]. rewrite !sapp_assoc. reflexivity.
Qed.

Lemma span_level_flat cls key :
  span_level cls key = flat (Mk (level_body cls) :: chars key ++ [Mk close_body]).
Proof.
  cbn [flat]. rewrite flat_app, flat_chars. cbn [flat].
  unfold span_level, level_body, tag, close_body.
  cbn [append]. rewrite !sapp_assoc. reflexivity.
Qed.

Lemma span_number_flat m :
  span_number m = flat (Mk number_body :: chars m ++ [Mk close_body]).
Proof.
  cbn [flat]. rewrite flat_app, flat_chars. reflexivity.
Qed.

Lemma span_line_number_flat m :
  span_line_number m = flat (Mk line_number_body :: chars m ++ [Mk close_body]).
Proof.
  cbn [flat]. rewrite flat_app, flat_chars. reflexivity.
Qed.

Lemma uint_digits d : all is_digit (NilEmpty.string_of_uint d) = true.
Proof. induction d; simpl; auto. Qed.

Lemma N_to_string_digits n : all is_digit (N_to_string n) = true.
Proof.
  unfold N_to_string, NilZero.string_of_uint.
  destruct (N.to_uint n) eqn:E; try (rewrite <- E; apply uint_digits).
  reflexivity.
Qed.

Lemma digit_not_gt c : is_digit c = true -> is_not ">" c = true.
Proof.
  revert c. apply (code_units_impl is_digit (is_not ">")).
  vm_compute. reflexivity.
Qed.

Lemma tag_body_close : tag_body close_body.
Proof. split; [discriminate | reflexivity]. Qed.

Lemma tag_body_logfile hue : tag_body (logfile_body hue).
Proof.
  split; [discriminate|].
  unfold logfile_body, quoted. rewrite !all_app. cbn [all append].
  rewrite all_app. rewrite (all_impl _ _ _ digit_not_gt (N_to_string_digits hue)).
  reflexivity.
Qed.

Lemma tag_body_number : tag_body number_body.
Proof. split; [discriminate | reflexivity]. Qed.

Lemma tag_body_line_number : tag_body line_number_body.
Proof. split; [discriminate | reflexivity]. Qed.

Lemma tag_body_level m :
  tag_body (level_body
    match levelClasses (toUpperCase m) with Some c => c | None => "info" end).
Proof.
  unfold levelClasses.
  repeat match goal with
         | |- context [if ?b then _ else _] => destruct b
         end; (split; [discriminate | reflexivity]).
Qed.

Lemma py_item_markup it : py_item it -> markup it.
Proof.
  destruct it as [c|b]; simpl; [auto|].
  intros [-> | (hue & ->)]; [apply tag_body_close | apply tag_body_logfile].
Qed.

Lemma ln_item_markup it : ln_item it -> markup it.
Proof.
  destruct it as [c|b]; simpl; [auto|].
  intros [-> | ->]; [apply tag_body_close | apply tag_body_line_number].
Qed.

Lemma Forall_chars (Q : item -> Prop) (p : ascii -> bool) s :
  (forall c, p c = true -> Q (Ch c)) -> all p s = true -> Forall Q (chars s).
Proof.
  intros H. induction s as [|c s IH]; simpl; intros E; constructor.
  - apply H. apply andb_true_iff in E. tauto.
  - apply IH. apply andb_true_iff in E. tauto.
Qed.

Lemma not_lt c : is_not "<" c = true -> c <> "<"%char.
Proof.
  unfold is_not. intros H. apply negb_true_iff in H.
  apply Ascii.eqb_neq. exact H.
Qed.

Lemma in_py_not_lt c : in_py c = true -> is_not "<" c = true.
Proof.
  revert c. apply (code_units_impl in_py (is_not "<")).
  vm_compute. reflexivity.
Qed.

Lemma digit_not_lt c : is_digit c = true -> is_not "<" c = true.
Proof.
  revert c. apply (code_units_impl is_digit (is_not "<")).
  vm_compute. reflexivity.
Qed.

Lemma upper_level_not_lt c : in_level c = true -> is_not "<" (upper c) = true.
Proof.
  revert c.
  apply (code_units_impl in_level (fun c => is_not "<" (upper c))).
  vm_compute. reflexivity.
Qed.

Lemma upper_upper c : upper (upper c) = upper c.
Proof.
  apply Ascii.eqb_eq. revert c.
  apply (all_code_units (fun c => Ascii.eqb (upper (upper c)) (upper c))).
  vm_compute. reflexivity.
Qed.

Lemma toUpperCase_idem s : toUpperCase (toUpperCase s) = toUpperCase s.
Proof.
  induction s as [|c s IH]; simpl; [reflexivity|].
  rewrite upper_upper, IH. reflexivity.
Qed.

Lemma all_toUpperCase (p q : ascii -> bool) s :
  (forall c, p c = true -> q (upper c) = true) ->
  all p s = true -> all q (toUpperCase s) = true.
Proof.
  intros H. induction s as [|c s IH]; simpl; [auto|]. intros E.
  apply andb_true_iff in E. destruct E as (E1 & E2).
  rewrite (H _ E1), (IH E2). reflexivity.
Qed.

(** The guard of the source pass never fires on a file name. *)
Lemma logfile_span_no_match prev c s :
  c <> "<"%char -> match_at re_logfile_span prev (String c s) = None.
Proof.
  intros Hc. unfold match_at, re_logfile_span. rewrite seq_eq.
  cbn [rmatch lit chr_eq].
  apply Ascii.eqb_neq in Hc. rewrite Ascii.eqb_sym, Hc. reflexivity.
Qed.

Lemma guard_dead m : all (is_not "<") m = true -> test re_logfile_span m = false.
Proof.
  intros H. unfold test, tokens.
  assert (E : scan re_logfile_span false None m 0 true
              = map Txt (list_ascii_of_string m)).
  { rewrite <- (sapp_nil_r m) at 1. rewrite scan_quiet.
    - cbn [scan]. apply app_nil_r.
    - intros u v prev' -> Hv. destruct v as [|x v]; [contradiction|].
      rewrite all_app in H. apply andb_true_iff in H. destruct H as (_ & H).
      cbn [all] in H. apply andb_true_iff in H. destruct H as (H & _).
      cbn [append]. apply logfile_span_no_match, not_lt, H. }
  rewrite E. clear. induction (list_ascii_of_string m); simpl; auto.
Qed.

Lemma wrap_py_flat m :
  all in_py m = true -> m <> "" ->
  exists out, wrap_py m = flat out /\
              toUpperCase (text out) = toUpperCase m /\ Forall py_item out.
Proof.
  intros Hm _. unfold wrap_py.
  rewrite guard_dead by (apply (all_impl _ _ _ in_py_not_lt Hm)).
  exists (Mk (logfile_body (hueFromString m)) :: chars m ++ [Mk close_body])%list.
  split; [apply span_logfile_flat|]. split.
  - cbn [text]. rewrite text_app, text_chars. cbn [text].
    rewrite sapp_nil_r. reflexivity.
  - constructor; [right; eexists; reflexivity|].
    apply Forall_app. split.
    + apply (Forall_chars _ in_py); [|exact Hm].
      intros c Hc. apply not_lt, in_py_not_lt, Hc.
    + constructor; [left; reflexivity | constructor].
Qed.

Lemma wrap_level_flat m :
  all in_level m = true -> m <> "" ->
  exists out, wrap_level m = flat out /\
              toUpperCase (text out) = toUpperCase m /\ Forall markup out.
Proof.
  intros Hm _. unfold wrap_level. cbv zeta.
  eexists. split; [apply span_level_flat|]. split.
  - cbn [text]. rewrite text_app, text_chars. cbn [text].
    rewrite sapp_nil_r. apply toUpperCase_idem.
  - constructor; [apply tag_body_level|].
    apply Forall_app. split.
    + apply (Forall_chars _ (is_not "<")); [intros c Hc; apply not_lt, Hc|].
      apply (all_toUpperCase in_level); [apply upper_level_not_lt | exact Hm].
    + constructor; [apply tag_body_close | constructor].
Qed.

Lemma span_number_items m :
  all is_digit m = true -> m <> "" ->
  exists out, span_number m = flat out /\
              toUpperCase (text out) = toUpperCase m /\ Forall markup out.
Proof.
  intros Hm _. eexists. split; [apply span_number_flat|]. split.
  - cbn [text]. rewrite text_app, text_chars. cbn [text].
    rewrite sapp_nil_r. reflexivity.
  - constructor; [apply tag_body_number|].
    apply Forall_app. split.
    + apply (Forall_chars _ is_digit); [|exact Hm].
      intros c Hc. apply not_lt, digit_not_lt, Hc.
    + constructor; [apply tag_body_close | constructor].
Qed.

(** ** The three passes over a line without [<] *)

Lemma py_pass line :
  all (is_not "<") line = true ->
  exists its, replace re_py true wrap_py line = flat its /\
              toUpperCase (text its) = toUpperCase line /\ Forall py_item its.
Proof.
  intros H.
  destruct (replace_items re_py wrap_py in_py py_item py_match_inv eq_refl
              wrap_py_flat (List.length (chars line)) (chars line) (le_n _))
    with (prev := @None ascii) as (its & E1 & E2 & E3).
  - apply (Forall_chars _ (is_not "<")); [intros c Hc; apply not_lt, Hc | exact H].
  - apply (Forall_chars _ (is_not "<")); [intros c Hc; exact I | exact H].
  - rewrite flat_chars in E1. rewrite text_chars in E2.
    exists its. auto.
Qed.

Lemma digit_not_level c : is_digit c = true -> negb (in_level c) = true.
Proof.
  revert c. apply (code_units_impl is_digit (fun c => negb (in_level c))).
  vm_compute. reflexivity.
Qed.

Lemma level_quiet it : py_item it -> quiet re_level it.
Proof.
  destruct it as [c|b]; [intros _; exact I|].
  intros [-> | (hue & ->)].
  - change (silent re_level (tag close_body)).
    apply silent_level_check. vm_compute. reflexivity.
  - change (silent re_level (tag (logfile_body hue))).
    replace (tag (logfile_body hue))
      with (("<span class=" ++ quoted "logfile" ++ " style=" ++ String dq "--h:")
            ++ N_to_string hue ++ String dq ">").
    + apply silent_app; [|apply silent_app].
      * apply silent_level_check. vm_compute. reflexivity.
      * apply (silent_class re_level in_level _ level_match_inv).
        apply (all_impl _ _ _ digit_not_level (N_to_string_digits hue)).
      * apply silent_level_check. vm_compute. reflexivity.
    + unfold tag, logfile_body, quoted. cbn [append]. rewrite !sapp_assoc.
      cbn [append]. reflexivity.
Qed.

Lemma level_pass its :
  Forall py_item its ->
  exists its', replace re_level true wrap_level (flat its) = flat its' /\
               toUpperCase (text its') = toUpperCase (text its) /\
               Forall markup its'.
Proof.
  intros H.
  apply (replace_items re_level wrap_level in_level markup level_match_inv
           eq_refl wrap_level_flat (List.length its) its (le_n _)).
  - apply (Forall_impl _ py_item_markup H).
  - apply (Forall_impl _ level_quiet H).
Qed.

Lemma line_number_later g live : forall s c,
  scan re_line_number g (Some c) s 0 live = map Txt (list_ascii_of_string s).
Proof.
  induction s as [|x s IH]; intros c; [reflexivity|].
  cbn [scan list_ascii_of_string map].
  replace (match_at re_line_number (Some c) (String x s)) with (@None nat)
    by reflexivity.
  rewrite IH. destruct live; reflexivity.
Qed.

Lemma line_number_pass t :
  all (is_not "<") t = true ->
  exists its, replace re_line_number false span_line_number t = flat its /\
              text its = t /\ Forall ln_item its.
Proof.
  intros H. unfold replace, tokens.
  assert (Hch : forall s, all (is_not "<") s = true -> Forall ln_item (chars s)).
  { intros s. apply Forall_chars. intros c Hc. apply not_lt, Hc. }
  destruct t as [|c s]; [exists []; auto|].
  destruct (match_at re_line_number None (String c s)) as [n|] eqn:E.
  - destruct (line_number_match_inv _ _ _ E) as (_ & m & rest & Hs & -> & Hne & Hm).
    destruct m as [|c' m]; [contradiction|].
    rewrite Hs in *. rewrite scan_hit by exact E. rewrite scan_dead.
    exists ((Mk line_number_body :: chars (String c' m) ++ [Mk close_body])
            ++ chars rest)%list.
    rewrite all_app in H. apply andb_true_iff in H. destruct H as (H1 & H2).
    split; [|split].
    + cbn [render]. rewrite flat_app, flat_chars, <- span_line_number_flat.
      rewrite <- (app_nil_r (map Txt (list_ascii_of_string rest))).
      rewrite render_txt. cbn [render]. rewrite sapp_nil_r. reflexivity.
    + rewrite text_app, text_chars. cbn [text]. rewrite text_app, text_chars.
      cbn [text]. rewrite sapp_nil_r. reflexivity.
    + apply Forall_app. split; [|apply Hch, H2].
      constructor; [right; reflexivity|].
      apply Forall_app. split; [apply Hch, H1|].
      constructor; [left; reflexivity | constructor].
  - rewrite scan_txt by exact E. rewrite line_number_later.
    exists (chars (String c s)). cbn [render].
    rewrite <- (app_nil_r (map Txt (list_ascii_of_string s))).
    rewrite render_txt. cbn [render]. rewrite sapp_nil_r.
    rewrite flat_chars, text_chars. auto.
Qed.

Lemma number_quiet it : ln_item it -> quiet re_number it.
Proof.
  destruct it as [c|b]; [intros _; exact I|].
  intros [-> | ->];
    [change (silent re_number (tag close_body))
    |change (silent re_number (tag line_number_body))];
    apply (silent_class re_number is_digit _ number_match_inv); reflexivity.
Qed.

(** The callback of [highlightNumbersOutsideTags] on a chunk of text. *)
Lemma chunk_items t :
  all (is_not "<") t = true ->
  exists out, highlightChunk t = flat out /\
              toUpperCase (text out) = toUpperCase t /\ Forall markup out.
Proof.
  intros H. unfold highlightChunk. cbv zeta.
  destruct (line_number_pass t H) as (its & -> & <- & Hits).
  apply (replace_items re_number span_number is_digit markup number_match_inv
           eq_refl span_number_items (List.length its) its (le_n _)).
  - apply (Forall_impl _ ln_item_markup Hits).
  - apply (Forall_impl _ number_quiet Hits).
Qed.

Lemma join_cons x l : join "" (x :: l) = x ++ join "" l.
Proof. destruct l; simpl; [rewrite sapp_nil_r|]; reflexivity. Qed.

Lemma highlight_chunks : forall its cur i,
  Nat.odd i = false ->
  Forall markup its -> all (is_not "<") cur = true ->
  exists out,
    join "" (map_chunks i (chunks true (map tok its) cur)) = flat out /\
    toUpperCase (text out) = toUpperCase (cur ++ text its) /\
    Forall markup out.
Proof.
  induction its as [|[c|b] its IH]; intros cur i Hi Hits Hcur;
    cbn [map tok chunks map_chunks].
  - rewrite Hi. cbn [join text]. rewrite sapp_nil_r. apply chunk_items, Hcur.
  - inversion Hits as [|? ? Hc Hits']; subst.
    destruct (IH (cur ++ String c "") i Hi Hits') as (out & E1 & E2 & E3).
    + rewrite all_app, Hcur. cbn [all]. unfold is_not.
      apply Ascii.eqb_neq in Hc. rewrite Hc. reflexivity.
    + exists out. rewrite E1, E2. cbn [text]. rewrite sapp_assoc. auto.
  - inversion Hits as [|? ? Hb Hits']; subst.
    rewrite Hi.
    replace (Nat.odd (S i)) with true
      by (rewrite Nat.odd_succ, <- Nat.negb_odd, Hi; reflexivity).
    assert (Hi2 : Nat.odd (S (S i)) = false)
      by (rewrite Nat.odd_succ, Nat.even_succ; exact Hi).
    destruct (IH "" (S (S i)) Hi2 Hits' eq_refl) as (out & E1 & E2 & E3).
    destruct (chunk_items cur Hcur) as (oc & C1 & C2 & C3).
    exists (oc ++ Mk b :: out)%list.
    rewrite !join_cons, E1, C1, flat_app. cbn [flat text].
    rewrite text_app, !toUpperCase_app, C2. cbn [text]. rewrite E2.
    split; [reflexivity|]. split; [reflexivity|].
    apply Forall_app. auto.
Qed.

Lemma highlight_pass its :
  Forall markup its ->
  exists out, highlightNumbersOutsideTags (flat its) = flat out /\
              toUpperCase (text out) = toUpperCase (text its) /\
              Forall markup out.
Proof.
  intros H. unfold highlightNumbersOutsideTags, split, tokens.
  rewrite tag_tokens by exact H.
  apply (highlight_chunks its "" 0); auto.
Qed.

(** On a line without [<], removing every tag from the decorated line
    gives back the text of the line up to letter case. *)
Lemma tags_stripped_up_to_case (line : string) :
  all (is_not "<") line = true ->
  toUpperCase (strip_tags (processLogLine line)) = toUpperCase line.
Proof.
  intros H. unfold processLogLine. cbv zeta.
  destruct (py_pass line H) as (its1 & -> & E1 & H1).
  destruct (level_pass its1 H1) as (its2 & -> & E2 & H2).
  destruct (highlight_pass its2 H2) as (its3 & -> & E3 & H3).
  rewrite strip_flat by exact H3. congruence.
Qed.

Lemma same_length ci w : forall m, same ci w m = true -> String.length m = String.length w.
Proof.
  induction w as [|a w IH]; intros [|c m] H; simpl in *; try discriminate; auto.
  apply andb_true_iff in H. destruct H as (_ & H). f_equal. auto.
Qed.

Lemma sapp_inv_length : forall a b x y : string,
  String.length a = String.length b -> a ++ x = b ++ y -> a = b /\ x = y.
Proof.
  induction a as [|c a IH]; intros [|d b] x y Hl H; simpl in *; try discriminate; auto.
  injection H as Hc Ht. subst d. destruct (IH b x y ltac:(lia) Ht) as (-> & ->). auto.
Qed.

Lemma level_words_ends :
  forallb (fun w => word_after w && word_before (advance None w)) level_words = true.
Proof. vm_compute. reflexivity. Qed.

Lemma word_upper c : is_word (upper c) = is_word c.
Proof.
  apply Bool.eqb_prop. revert c.
  apply (all_code_units (fun c => Bool.eqb (is_word (upper c)) (is_word c))).
  vm_compute. reflexivity.
Qed.

Lemma word_chr_eq a c : chr_eq true a c = true -> is_word c = is_word a.
Proof.
  unfold chr_eq. rewrite Ascii.eqb_eq. intros H.
  rewrite <- (word_upper c), <- (word_upper a), H. reflexivity.
Qed.

Lemma same_word_after w m : same true w m = true -> word_after m = word_after w.
Proof.
  destruct w as [|a w], m as [|c m]; simpl; try discriminate; auto.
  intros H. apply andb_true_iff in H. destruct H as (H & _).
  apply word_chr_eq, H.
Qed.

Lemma same_word_before : forall w m p q,
  same true w m = true -> w <> "" ->
  word_before (advance p m) = word_before (advance q w).
Proof.
  induction w as [|a w IH]; intros m p q H Hne; [contradiction|].
  destruct m as [|c m]; [discriminate|].
  cbn [same] in H. apply andb_true_iff in H. destruct H as (Hc & H).
  cbn [advance]. destruct w as [|a' w].
  - destruct m; [|discriminate]. cbn. apply word_chr_eq, Hc.
  - apply IH; [exact H | discriminate].
Qed.

Lemma bnd_inv_edge prev s n k res :
  rmatch Bnd prev s n k = Some res ->
  xorb (word_before prev) (word_after s) = true /\ k prev s n = Some res.
Proof. cbn [rmatch]. destruct (xorb _ _); [auto | discriminate]. Qed.

(** A match of the level pattern is a level word, up to case, between two
    word boundaries. *)
Lemma level_match_edges prev s n :
  match_at re_level prev s = Some n ->
  exists w m rest, In w level_words /\ same true w m = true /\
                   s = m ++ rest /\ n = String.length m /\
                   xorb (word_before prev) (word_after s) = true /\
                   xorb (word_before (advance prev m)) (word_after rest) = true.
Proof.
  unfold match_at, re_level. intros H.
  seq_in H. apply bnd_inv_edge in H. destruct H as (B1 & H).
  seq_in H. apply alternatives_inv in H.
  destruct H as (w & m & s' & Hin & Hs & -> & H).
  apply bnd_inv_edge in H. destruct H as (B2 & H). inversion H; subst n.
  exists w, m, s'. auto 10.
Qed.

(** ** Decorated text as parts of the line *)

Lemma src_of_app a b : src_of (a ++ b) = src_of a ++ src_of b.
Proof.
  unfold src_of. induction a as [|p a IH]; cbn [app map concat_str fold_right];
    [reflexivity|].
  unfold concat_str in IH. rewrite IH, sapp_assoc. reflexivity.
Qed.

Lemma out_of_app a b : out_of (a ++ b) = out_of a ++ out_of b.
Proof.
  unfold out_of. induction a as [|p a IH]; cbn [app map concat_str fold_right];
    [reflexivity|].
  unfold concat_str in IH. rewrite IH, sapp_assoc. reflexivity.
Qed.

Lemma out_of_cons p ps : out_of (p :: ps) = part_out p ++ out_of ps.
Proof. reflexivity. Qed.

Lemma src_of_cons p ps : src_of (p :: ps) = part_src p ++ src_of ps.
Proof. reflexivity. Qed.

Lemma src_kepts m : src_of (kepts m) = m.
Proof.
  induction m as [|c m IH]; [reflexivity|].
  change (kepts (String c m)) with (Kept c :: kepts m).
  rewrite src_of_cons, IH. reflexivity.
Qed.

Lemma out_kepts m : out_of (kepts m) = m.
Proof.
  induction m as [|c m IH]; [reflexivity|].
  change (kepts (String c m)) with (Kept c :: kepts m).
  rewrite out_of_cons, IH. reflexivity.
Qed.

Lemma length_kepts m : List.length (kepts m) = String.length m.
Proof.
  unfold kepts. rewrite length_map.
  induction m as [|c m IH]; simpl; [|rewrite IH]; reflexivity.
Qed.

Lemma Forall_kepts (Q : part -> Prop) m : (forall c, Q (Kept c)) -> Forall Q (kepts m).
Proof.
  intros H. unfold kepts. induction (list_ascii_of_string m); simpl; constructor; auto.
Qed.

(** A span is its opening tag, the text it holds and the closing tag. *)
Lemma span_parts b m :
  tag b ++ m ++ tag close_body = out_of (Added b :: kepts m ++ [Added close_body]) /\
  src_of (Added b :: kepts m ++ [Added close_body]) = m.
Proof.
  rewrite out_of_cons, src_of_cons, out_of_app, src_of_app, out_kepts, src_kepts.
  cbn [part_out part_src out_of src_of map concat_str fold_right append].
  rewrite !sapp_nil_r. auto.
Qed.

(** ** A global replacement over the parts *)

Section ReplaceParts.

Variables (r : regex) (f : string -> string) (P : ascii -> bool).
Variable cb : string -> list part.

Hypothesis match_inv : forall prev s n,
  match_at r prev s = Some n ->
  exists m rest, s = m ++ rest /\ n = String.length m /\
                 m <> "" /\ all P m = true.
Hypothesis f_parts : forall m,
  all P m = true -> m <> "" -> f m = out_of (cb m).

(** A match that starts on a kept character covers kept characters only. *)
Lemma out_prefix : forall m ps rest,
  all P m = true -> Forall (shut r P) ps -> out_of ps = m ++ rest ->
  exists ps2, ps = (kepts m ++ ps2)%list /\ out_of ps2 = rest.
Proof.
  induction m as [|c m IH]; intros ps rest Hm Hs H.
  - exists ps. auto.
  - cbn [all] in Hm. apply andb_true_iff in Hm. destruct Hm as (Hc & Hm).
    destruct ps as [|p ps]; [discriminate|].
    inversion Hs as [|? ? Hp Hps]; subst.
    rewrite out_of_cons in H.
    destruct p as [x|b|w].
    + cbn [part_out append] in H. injection H as -> H.
      destruct (IH ps rest Hm Hps H) as (ps2 & -> & E).
      exists ps2. auto.
    + destruct Hp as (_ & y & t & E & Hy). rewrite E in H.
      cbn [append] in H. injection H as -> _. congruence.
    + destruct Hp as (_ & y & t & E & Hy). rewrite E in H.
      cbn [append] in H. injection H as -> _. congruence.
Qed.

Lemma replace_parts : forall n ps,
  List.length ps <= n -> Forall (shut r P) ps ->
  forall prev, exists ps',
    render f (scan r true prev (out_of ps) 0 true) = out_of ps' /\
    rewritten r cb prev ps ps'.
Proof.
  induction n as [|n IH]; intros ps Hn Hq prev.
  { destruct ps; [|simpl in Hn; lia]. exists []. split; [reflexivity | constructor]. }
  destruct ps as [|p ps]; [exists []; split; [reflexivity | constructor]|].
  inversion Hq as [|? ? Hq1 Hq2]; subst.
  assert (Hshut : silent r (part_out p) ->
            exists ps', render f (scan r true prev (out_of (p :: ps)) 0 true)
                        = out_of ps' /\
                        rewritten r cb prev (p :: ps) ps').
  { intros Hsil. rewrite out_of_cons, scan_quiet.
    - simpl in Hn.
      destruct (IH ps ltac:(lia) Hq2 (advance prev (part_out p))) as (ps' & E1 & E2).
      exists (p :: ps'). rewrite render_txt, E1, out_of_cons.
      split; [reflexivity | constructor; exact E2].
    - intros u v prev' Huv Hv. apply (Hsil u v prev' (out_of ps) Huv Hv). }
  destruct p as [c|b|w].
  - clear Hshut. rewrite out_of_cons. cbn [part_out append].
    destruct (match_at r prev (String c (out_of ps))) as [k|] eqn:E.
    + destruct (match_inv _ _ _ E) as (m & rest & Hs & -> & Hne & Hm).
      change (String c (out_of ps)) with (out_of (Kept c :: ps)) in Hs.
      destruct (out_prefix m (Kept c :: ps) rest Hm Hq Hs) as (ps2 & Hps & Hrest).
      rewrite Hps.
      destruct m as [|c' m]; [contradiction|].
      change (String c (out_of ps)) with (out_of (Kept c :: ps)) in *.
      rewrite Hs in *. rewrite scan_hit by exact E.
      assert (Hlen : List.length ps2 <= n).
      { apply (f_equal (@List.length part)) in Hps.
        rewrite length_app, length_kepts in Hps. simpl in Hps, Hn. lia. }
      assert (Hq' : Forall (shut r P) ps2).
      { rewrite Hps in Hq. apply Forall_app in Hq. tauto. }
      rewrite <- Hrest in *.
      destruct (IH ps2 Hlen Hq' (advance prev (String c' m))) as (ps' & E1 & E2).
      exists (cb (String c' m) ++ ps')%list. cbn [render].
      rewrite E1, (f_parts _ Hm Hne), out_of_app.
      split; [reflexivity|]. apply rw_hit; assumption.
    + rewrite scan_txt by exact E.
      simpl in Hn.
      destruct (IH ps ltac:(lia) Hq2 (Some c)) as (ps' & E1 & E2).
      exists (Kept c :: ps'). cbn [render].
      rewrite E1, out_of_cons. split; [reflexivity|].
      constructor. exact E2.
  - destruct Hq1 as (Hsil & _). apply Hshut, Hsil.
  - destruct Hq1 as (Hsil & _). apply Hshut, Hsil.
Qed.

End ReplaceParts.

(** What a replacement keeps of the parts. *)
Lemma rewritten_src r cb :
  (forall m, src_of (cb m) = m) ->
  forall prev ps ps', rewritten r cb prev ps ps' -> src_of ps' = src_of ps.
Proof.
  intros Hcb. induction 1 as [|prev p ps ps' _ IH|prev m ps ps' _ _ _ IH];
    [reflexivity | |].
  - rewrite !src_of_cons, IH. reflexivity.
  - rewrite !src_of_app, IH, Hcb, src_kepts. reflexivity.
Qed.

Lemma rewritten_Forall r cb (good : part -> Prop) :
  (forall prev m rest, m <> "" ->
     match_at r prev (m ++ rest) = Some (String.length m) -> Forall good (cb m)) ->
  forall prev ps ps',
    rewritten r cb prev ps ps' -> Forall good ps -> Forall good ps'.
Proof.
  intros Hcb. induction 1 as [|prev p ps ps' _ IH|prev m ps ps' Hne Hm _ IH];
    intros H; [constructor | |].
  - inversion H; subst. constructor; auto.
  - apply Forall_app in H. apply Forall_app. split; [|apply IH; tauto].
    apply (Hcb prev m (out_of ps) Hne Hm).
Qed.

(** Adding tags. *)
Lemma inserted_refl ps : inserted ps ps.
Proof. induction ps; constructor; assumption. Qed.

Lemma inserted_app a a' b b' :
  inserted a a' -> inserted b b' -> inserted (a ++ b) (a' ++ b').
Proof.
  intros Ha Hb. induction Ha; cbn [app]; [exact Hb | |]; constructor; auto.
Qed.

Lemma inserted_trans a b : inserted a b -> forall c, inserted b c -> inserted a c.
Proof.
  intros H c Hc. revert a H.
  induction Hc as [|p b c Hc IH|t b c Ht Hc IH]; intros a H.
  - exact H.
  - inversion H; subst.
    + apply ins_same. apply IH. assumption.
    + apply ins_tag; [assumption|]. apply IH. assumption.
  - apply ins_tag; [exact Ht|]. apply IH, H.
Qed.

Lemma inserted_src a b : inserted a b -> src_of b = src_of a.
Proof.
  induction 1 as [|p a b _ IH|t a b _ _ IH]; [reflexivity | |].
  - rewrite !src_of_cons, IH. reflexivity.
  - rewrite src_of_cons, IH. reflexivity.
Qed.

Lemma inserted_adorns a b : inserted a b -> Forall adorns a -> Forall adorns b.
Proof.
  induction 1 as [|p a b _ IH|t a b Ht _ IH]; intros H; [constructor | |].
  - inversion H; subst. constructor; auto.
  - constructor; [exact Ht | auto].
Qed.

Lemma inserted_alone a b :
  inserted a b -> forall before, alone before a -> alone before b.
Proof.
  induction 1 as [|p a b Hab IH|t a b _ _ IH]; intros before H; [exact H | |].
  - destruct p as [c|t|m]; cbn [alone] in *.
    + apply IH, H.
    + apply IH, H.
    + destruct H as (H1 & H2 & H3). rewrite (inserted_src a b Hab).
      auto.
  - cbn [alone part_src advance]. apply IH, H.
Qed.

(** ** The passes of the decorator over the parts *)

Lemma span_logfile_tags hue fn :
  span_logfile hue fn = tag (logfile_body hue) ++ fn ++ tag close_body.
Proof.
  unfold span_logfile, logfile_body, tag, close_body.
  cbn [append]. rewrite !sapp_assoc. reflexivity.
Qed.

Lemma span_level_tags cls key :
  span_level cls key = tag (level_body cls) ++ key ++ tag close_body.
Proof.
  unfold span_level, level_body, tag, close_body.
  cbn [append]. rewrite !sapp_assoc. reflexivity.
Qed.

(** Facts on the parts. *)
Lemma advance_last p q m : m <> "" -> advance p m = advance q m.
Proof. destruct m; [contradiction | reflexivity]. Qed.

Lemma edged_kepts m : forall before ps,
  edged before (kepts m ++ ps) = edged (advance before m) ps.
Proof.
  induction m as [|c m IH]; intros before ps; [reflexivity|].
  change (kepts (String c m)) with (Kept c :: kepts m).
  cbn [app edged part_src advance append]. apply IH.
Qed.

Lemma kept_out ps : Forall is_kept ps -> out_of ps = src_of ps.
Proof.
  induction 1 as [|p ps Hp _ IH]; [reflexivity|].
  rewrite out_of_cons, src_of_cons, IH.
  destruct p; [reflexivity | destruct Hp | destruct Hp].
Qed.

Lemma src_logfile_parts m : src_of (logfile_parts m) = m.
Proof. apply span_parts. Qed.

Lemma src_level_parts m : src_of (level_parts_of m) = m.
Proof.
  unfold level_parts_of, src_of. cbn [map part_src concat_str fold_right append].
  apply sapp_nil_r.
Qed.

Lemma src_number_parts m : src_of (number_parts m) = m.
Proof. apply span_parts. Qed.

Lemma inserted_span b m :
  added b -> inserted (kepts m) (Added b :: kepts m ++ [Added close_body]).
Proof.
  intros Hb. apply ins_tag; [exact Hb|].
  rewrite <- (app_nil_r (kepts m)) at 1.
  apply inserted_app; [apply inserted_refl|].
  apply ins_tag; [left; reflexivity | constructor].
Qed.

Lemma rewritten_inserted r cb :
  (forall m, inserted (kepts m) (cb m)) ->
  forall prev ps ps', rewritten r cb prev ps ps' -> inserted ps ps'.
Proof.
  intros Hcb. induction 1 as [|prev p ps ps' _ IH|prev m ps ps' _ _ _ IH].
  - constructor.
  - constructor. exact IH.
  - apply inserted_app; [apply Hcb | exact IH].
Qed.

(** A match of the file-name pattern stands between a character that is
    not a word character (or the start) and one that is not (or the end). *)
Lemma py_match_isolated prev s n :
  match_at re_py prev s = Some n ->
  exists m rest, s = m ++ rest /\ n = String.length m /\
                 word_before prev = false /\ word_after rest = false.
Proof.
  unfold match_at, re_py. intros H.
  seq_in H. apply bnd_inv_edge in H. destruct H as (B1 & H).
  seq_in H. apply plus_inv in H.
  destruct H as (m1 & s1 & -> & Hne & Hm1 & H).
  seq_in H. apply rlit_inv in H. destruct H as (m2 & s2 & -> & Hm2 & H).
  apply same_eq in Hm2. subst m2.
  apply bnd_inv_edge in H. destruct H as (B2 & H). inversion H; subst n.
  exists (m1 ++ ".py"), s2. rewrite sapp_assoc, slength_app.
  repeat split; auto.
  - destruct m1 as [|c m1]; [contradiction|].
    cbn [all] in Hm1. apply andb_true_iff in Hm1. destruct Hm1 as (Hc & _).
    cbn [append word_after] in B1. rewrite Hc in B1.
    destruct (word_before prev); [discriminate | reflexivity].
  - cbn [advance word_before] in B2.
    destruct (word_after s2); [discriminate | reflexivity].
Qed.

(** The tags of the file-name pass stand at the ends of words. *)
Lemma py_edged prev ps ps' :
  rewritten re_py logfile_parts prev ps ps' -> Forall is_kept ps ->
  edged prev ps'.
Proof.
  induction 1 as [|prev p ps ps' _ IH|prev m ps ps' Hne Hm Hr IH]; intros Hk.
  - exact I.
  - inversion Hk as [|? ? Hp Hps]; subst.
    destruct p as [c|b|w]; [|destruct Hp | destruct Hp].
    cbn [edged]. apply IH, Hps.
  - apply Forall_app in Hk. destruct Hk as (_ & Hk).
    destruct (py_match_isolated _ _ _ Hm) as (m' & rest & E & Hl & Hb & Ha).
    destruct (sapp_inv_length _ _ _ _ Hl E) as (<- & <-).
    unfold logfile_parts. cbn [app edged]. rewrite <- app_assoc.
    rewrite edged_kepts. cbn [app edged]. rewrite Hb.
    rewrite (rewritten_src _ _ src_logfile_parts _ _ _ Hr), <- (kept_out ps Hk), Ha.
    rewrite andb_false_r. auto.
Qed.

Lemma py_parts line :
  exists ps, replace re_py true wrap_py line = out_of ps /\
             src_of ps = line /\ Forall py_part ps /\ edged None ps.
Proof.
  assert (Hk : Forall is_kept (kepts line)) by (apply Forall_kepts; intros; exact I).
  destruct (replace_parts re_py wrap_py in_py logfile_parts py_match_inv)
    with (n := List.length (kepts line)) (ps := kepts line) (prev := @None ascii)
    as (ps & E1 & E2).
  - intros m Hm _. unfold wrap_py.
    rewrite guard_dead by (apply (all_impl _ _ _ in_py_not_lt Hm)).
    rewrite span_logfile_tags. apply span_parts.
  - apply le_n.
  - apply Forall_kepts. intros; exact I.
  - rewrite out_kepts in E1. exists ps. split; [exact E1|]. split; [|split].
    + rewrite (rewritten_src _ _ src_logfile_parts _ _ _ E2). apply src_kepts.
    + refine (rewritten_Forall re_py logfile_parts py_part _ _ _ _ E2 _).
      * intros _ m _ _ _. constructor; [right; eexists; reflexivity|].
        apply Forall_app. split; [apply Forall_kepts; intros; exact I|].
        constructor; [left; reflexivity | constructor].
      * apply Forall_kepts. intros; exact I.
    + apply (py_edged _ _ _ E2 Hk).
Qed.

(** A word the level pattern has matched, and what becomes of it. *)
Lemma level_word_facts m :
  is_level_word m = true ->
  m <> "" /\ all in_level m = true /\
  exists w, In w level_words /\ toUpperCase m = toUpperCase w.
Proof.
  unfold is_level_word. intros H. apply existsb_exists in H.
  destruct H as (w & Hin & Hs).
  pose proof level_words_class as Hc. rewrite forallb_forall in Hc.
  specialize (Hc w Hin). apply andb_true_iff in Hc. destruct Hc as (Hc1 & Hc2).
  apply negb_true_iff, String.eqb_neq in Hc2.
  destruct (same_level w m Hc1 Hs) as (H1 & H2 & H3).
  split; [auto|]. split; [exact H1|]. exists w. auto.
Qed.

Lemma level_class_listed key :
  In match levelClasses key with Some c => c | None => "info" end level_classes.
Proof.
  unfold levelClasses.
  repeat match goal with
         | |- context [if ?b then _ else _] => destruct b
         end; simpl; tauto.
Qed.

Lemma level_matched prev m rest :
  match_at re_level prev (m ++ rest) = Some (String.length m) ->
  is_level_word m = true.
Proof.
  intros H. apply level_match_word in H.
  destruct H as (w & m' & rest' & Hin & Hs & E & Hl).
  destruct (sapp_inv_length _ _ _ _ Hl E) as (-> & _).
  unfold is_level_word. apply existsb_exists. exists w. auto.
Qed.

Lemma upper_in_level c : in_level c = true -> in_level (upper c) = true.
Proof.
  revert c. apply (code_units_impl in_level (fun c => in_level (upper c))).
  vm_compute. reflexivity.
Qed.

Lemma upper_level_word m :
  is_level_word m = true ->
  toUpperCase m <> "" /\ all in_level (toUpperCase m) = true.
Proof.
  intros H. destruct (level_word_facts m H) as (Hne & Hl & _). split.
  - destruct m; [contradiction | discriminate].
  - apply (all_toUpperCase in_level in_level); [apply upper_in_level | exact Hl].
Qed.

(** A level word in upper case is passed over by a pattern whose matches
    have no letter and no blank. *)
Lemma shut_upper r (P : ascii -> bool) m :
  (forall prev s n, match_at r prev s = Some n ->
     exists m rest, s = m ++ rest /\ n = String.length m /\
                    m <> "" /\ all P m = true) ->
  (forall c, in_level c = true -> P c = false) ->
  is_level_word m = true -> shut r P (Upper m).
Proof.
  intros Hinv HP H. destruct (upper_level_word m H) as (Hne & Hl).
  cbn [shut part_out]. split.
  - apply (silent_class r P _ Hinv).
    apply (all_impl in_level); [|exact Hl].
    intros c Hc. rewrite (HP c Hc). reflexivity.
  - destruct (toUpperCase m) as [|c x]; [contradiction|].
    exists c, x. split; [reflexivity|]. apply HP.
    cbn [all] in Hl. apply andb_true_iff in Hl. tauto.
Qed.

Lemma shut_tag r (P : ascii -> bool) b :
  P "<"%char = false -> silent r (tag b) -> shut r P (Added b).
Proof.
  intros HP H. cbn [shut part_out]. split; [exact H|].
  exists "<"%char, (b ++ ">"). auto.
Qed.

Lemma word_after_app m x : m <> "" -> word_after (m ++ x) = word_after m.
Proof. destruct m; [contradiction | reflexivity]. Qed.

Lemma advance_tag prev b : advance prev (tag b) = Some ">"%char.
Proof.
  unfold tag. cbn [append advance]. rewrite advance_app. reflexivity.
Qed.

(** A match of the level pattern starts and ends with a word character and
    stands between two characters that are not (or the ends). *)
Lemma level_match_alone prev m rest :
  match_at re_level prev (m ++ rest) = Some (String.length m) ->
  word_before prev = false /\ word_after rest = false /\
  word_after m = true /\ word_before (advance None m) = true.
Proof.
  intros H. apply level_match_edges in H.
  destruct H as (w & m' & rest' & Hin & Hs & E & Hl & B1 & B2).
  destruct (sapp_inv_length _ _ _ _ Hl E) as (<- & <-).
  pose proof level_words_class as Hc. rewrite forallb_forall in Hc.
  specialize (Hc w Hin). apply andb_true_iff in Hc. destruct Hc as (Hw & Hne).
  apply negb_true_iff, String.eqb_neq in Hne.
  destruct (same_level w m Hw Hs) as (Hm & _ & Hnm). specialize (Hnm Hne).
  pose proof level_words_ends as He. rewrite forallb_forall in He.
  specialize (He w Hin). apply andb_true_iff in He. destruct He as (He1 & He2).
  assert (Ha : word_after m = true) by (rewrite (same_word_after w m Hs); exact He1).
  assert (Hb : word_before (advance None m) = true)
    by (rewrite (same_word_before w m None None Hs Hne); exact He2).
  rewrite (word_after_app m rest Hnm), Ha in B1.
  rewrite (advance_last prev None m Hnm), Hb in B2.
  repeat split; auto.
  - destruct (word_before prev); [discriminate | reflexivity].
  - destruct (word_after rest); [discriminate | reflexivity].
Qed.

(** The words the level pass puts in upper case stand alone in the line:
    [prev] is the character before in the decorated text, [before] the
    one before in the line. *)
Lemma level_alone prev ps ps' :
  rewritten re_level level_parts_of prev ps ps' ->
  Forall py_part ps ->
  forall before, edged before ps ->
  (prev = before \/
   (word_before prev = false /\
    word_before before && word_after (src_of ps) = false)) ->
  alone before ps'.
Proof.
  induction 1 as [|prev p ps ps' _ IH|prev m ps ps' Hne Hm Hr IH];
    intros Hp before He Hl.
  - exact I.
  - inversion Hp as [|? ? Hp1 Hps]; subst.
    destruct p as [c|b|w]; [| |destruct Hp1].
    + cbn [alone part_src]. cbn [edged part_src] in He.
      apply IH; [exact Hps | exact He | left; reflexivity].
    + cbn [alone part_src advance]. cbn [edged] in He. destruct He as (He1 & He2).
      apply IH; [exact Hps | exact He2 | right].
      cbn [part_out]. rewrite advance_tag. split; [reflexivity | exact He1].
  - apply Forall_app in Hp. destruct Hp as (_ & Hp).
    rewrite edged_kepts in He.
    destruct (level_match_alone _ _ _ Hm) as (Hb & Ha & Hw1 & Hw2).
    unfold level_parts_of. cbn [app alone part_src advance].
    rewrite src_of_cons. cbn [part_src append].
    rewrite (rewritten_src _ _ src_level_parts _ _ _ Hr).
    split; [|split].
    + destruct Hl as [<- | (_ & Hl)]; [exact Hb|].
      rewrite src_of_app, src_kepts, (word_after_app _ _ Hne), Hw1 in Hl.
      rewrite andb_true_r in Hl. exact Hl.
    + destruct ps as [|p ps]; [reflexivity|].
      inversion Hp as [|? ? Hp1 _]; subst.
      destruct p as [c|b|w]; [exact Ha | | destruct Hp1].
      cbn [edged] in He. destruct He as (He & _).
      rewrite (advance_last before None m Hne), Hw2 in He.
      rewrite src_of_cons. exact He.
    + apply IH; [exact Hp | exact He | left].
      apply advance_last, Hne.
Qed.

Lemma level_parts ps :
  Forall py_part ps -> edged None ps ->
  exists ps', replace re_level true wrap_level (out_of ps) = out_of ps' /\
              src_of ps' = src_of ps /\ Forall adorns ps' /\ alone None ps'.
Proof.
  intros H He.
  destruct (replace_parts re_level wrap_level in_level level_parts_of level_match_inv)
    with (n := List.length ps) (ps := ps) (prev := @None ascii)
    as (ps' & E1 & E2).
  - intros m _ _. unfold wrap_level. cbv zeta. rewrite span_level_tags.
    unfold level_parts_of, out_of. cbn [map part_out concat_str fold_right].
    rewrite sapp_nil_r. reflexivity.
  - apply le_n.
  - apply (Forall_impl _ (P := py_part)); [|exact H].
    intros [c|b|m] Hp; [exact I | | destruct Hp].
    apply shut_tag; [reflexivity|].
    apply (level_quiet (Mk b)). exact Hp.
  - exists ps'. split; [exact E1|]. split; [|split].
    + apply (rewritten_src _ _ src_level_parts _ _ _ E2).
    + refine (rewritten_Forall re_level level_parts_of adorns _ _ _ _ E2 _).
      * intros prev m rest _ Hm. apply level_matched in Hm.
        unfold level_parts_of.
        constructor; [|constructor; [exact Hm|constructor; [left; reflexivity|constructor]]].
        right. right. right. right. eexists. split; [apply level_class_listed | reflexivity].
      * apply (Forall_impl _ (P := py_part)); [|exact H].
        intros [c|b|m]; cbn [py_part adorns]; [auto | | tauto].
        intros [-> | (hue & ->)]; [left; reflexivity|].
        right. right. right. left. exists hue. reflexivity.
    + apply (level_alone _ _ _ E2 H None He). left. reflexivity.
Qed.

Lemma added_tag_body b : added b -> tag_body b.
Proof.
  intros [-> | [-> | [-> | [(hue & ->) | (cls & Hin & ->)]]]].
  - apply tag_body_close.
  - apply tag_body_line_number.
  - apply tag_body_number.
  - apply tag_body_logfile.
  - simpl in Hin.
    repeat (destruct Hin as [<- | Hin]; [split; [discriminate | reflexivity]|]).
    destruct Hin.
Qed.

Lemma level_not_digit c : in_level c = true -> is_digit c = false.
Proof.
  intros H. apply negb_true_iff. revert c H.
  apply (code_units_impl in_level (fun c => negb (is_digit c))).
  vm_compute. reflexivity.
Qed.

Lemma level_not_angle c :
  in_level c = true -> is_not "<" c = true /\ is_not ">" c = true.
Proof.
  intros H. apply andb_true_iff. revert c H.
  apply (code_units_impl in_level (fun c => is_not "<" c && is_not ">" c)).
  vm_compute. reflexivity.
Qed.

Lemma texty_shut r p :
  (forall prev s n, match_at r prev s = Some n ->
     exists m rest, s = m ++ rest /\ n = String.length m /\
                    m <> "" /\ all is_digit m = true) ->
  texty p -> shut r is_digit p.
Proof.
  intros Hinv. destruct p as [c|b|m]; cbn [texty]; [auto | tauto|].
  apply (shut_upper r is_digit m Hinv level_not_digit).
Qed.

Lemma span_line_number_tags m :
  span_line_number m = tag line_number_body ++ m ++ tag close_body.
Proof.
  unfold span_line_number, line_number_body, tag, close_body.
  cbn [append]. rewrite !sapp_assoc. reflexivity.
Qed.

Lemma span_number_tags m :
  span_number m = tag number_body ++ m ++ tag close_body.
Proof.
  unfold span_number, number_body, tag, close_body.
  cbn [append]. rewrite !sapp_assoc. reflexivity.
Qed.

Lemma line_number_class prev s n :
  match_at re_line_number prev s = Some n ->
  exists m rest, s = m ++ rest /\ n = String.length m /\
                 m <> "" /\ all is_digit m = true.
Proof. intros H. apply (line_number_match_inv _ _ _ H). Qed.

(** The replacement of a leading line number, on text between tags. *)
Lemma ln_parts cs :
  Forall texty cs ->
  exists qs, replace re_line_number false span_line_number (out_of cs) = out_of qs /\
             inserted cs qs /\ Forall ln_part qs.
Proof.
  intros H. unfold replace, tokens.
  assert (Hsame : Forall ln_part cs).
  { apply (Forall_impl _ (P := texty)); [|exact H]. intros [c|b|m]; cbn [texty ln_part]; tauto. }
  destruct (out_of cs) as [|c s] eqn:Eo.
  { exists cs. rewrite Eo. split; [reflexivity|]. split; [apply inserted_refl | exact Hsame]. }
  destruct (match_at re_line_number None (String c s)) as [n|] eqn:E.
  - destruct (line_number_match_inv _ _ _ E) as (_ & m & rest & Hs & -> & Hne & Hm).
    destruct (out_prefix re_line_number is_digit m cs rest Hm) as (cs2 & Hcs & Hrest).
    { apply (Forall_impl _ (P := texty)); [|exact H].
      intros p. apply texty_shut, line_number_class. }
    { rewrite Eo. exact Hs. }
    destruct m as [|c' m]; [contradiction|].
    rewrite Hs in *. rewrite scan_hit by exact E. rewrite scan_dead.
    destruct (span_parts line_number_body (String c' m)) as (T & S).
    exists ((Added line_number_body :: kepts (String c' m) ++ [Added close_body])
            ++ cs2)%list.
    split; [|split].
    + cbn [render]. rewrite <- (app_nil_r (map Txt (list_ascii_of_string rest))).
      rewrite render_txt. cbn [render]. rewrite sapp_nil_r.
      rewrite out_of_app, <- T, Hrest, span_line_number_tags, !sapp_assoc.
      reflexivity.
    + rewrite Hcs. apply inserted_app; [|apply inserted_refl].
      apply inserted_span. right. left. reflexivity.
    + rewrite Hcs in Hsame. apply Forall_app in Hsame.
      apply Forall_app. split; [|tauto].
      constructor; [right; reflexivity|].
      apply Forall_app. split; [tauto|].
      constructor; [left; reflexivity | constructor].
  - rewrite scan_txt by exact E. rewrite line_number_later.
    exists cs. cbn [render].
    rewrite <- (app_nil_r (map Txt (list_ascii_of_string s))).
    rewrite render_txt. cbn [render]. rewrite sapp_nil_r, Eo.
    split; [reflexivity|]. split; [apply inserted_refl | exact Hsame].
Qed.

(** The callback of [highlightNumbersOutsideTags] on the text between two
    tags: tags are added, nothing else changes. *)
Lemma chunk_parts cs :
  Forall texty cs ->
  exists qs, highlightChunk (out_of cs) = out_of qs /\ inserted cs qs.
Proof.
  intros H. unfold highlightChunk. cbv zeta.
  destruct (ln_parts cs H) as (qs & -> & Hi & Hqs).
  destruct (replace_parts re_number span_number is_digit number_parts number_match_inv)
    with (n := List.length qs) (ps := qs) (prev := @None ascii)
    as (qs' & E1 & E2).
  - intros m _ _. rewrite span_number_tags. apply span_parts.
  - apply le_n.
  - apply (Forall_impl _ (P := ln_part)); [|exact Hqs].
    intros [c|b|m] Hp; [exact I | |].
    + apply shut_tag; [reflexivity|].
      apply (number_quiet (Mk b)). exact Hp.
    + apply (shut_upper re_number is_digit m number_match_inv level_not_digit Hp).
  - exists qs'. split; [exact E1|].
    apply (inserted_trans _ _ Hi).
    apply (rewritten_inserted re_number number_parts) with (prev := @None ascii);
      [|exact E2].
    intros m. apply inserted_span. right. right. left. reflexivity.
Qed.

(** ** The split at the tags *)

Lemma silent_tag t : all (is_not "<") t = true -> silent re_tag t.
Proof.
  intros H u v prev rest -> Hv.
  destruct v as [|c v]; [contradiction|].
  rewrite all_app in H. apply andb_true_iff in H. destruct H as (_ & H).
  cbn [all] in H. apply andb_true_iff in H. destruct H as (H & _).
  cbn [append]. apply tag_no_match, not_lt, H.
Qed.

Lemma chunks_txt keep ts : forall t cur,
  chunks keep (map Txt (list_ascii_of_string t) ++ ts) cur = chunks keep ts (cur ++ t).
Proof.
  induction t as [|c t IH]; intros cur; cbn [list_ascii_of_string map app chunks].
  - rewrite sapp_nil_r. reflexivity.
  - rewrite IH, sapp_assoc. reflexivity.
Qed.

(** Text without [>] in front of the first [>]. *)
Lemma first_gt : forall x b y rest,
  all (is_not ">") x = true -> all (is_not ">") b = true ->
  x ++ y = b ++ String ">" rest ->
  exists b', b = x ++ b' /\ y = b' ++ String ">" rest.
Proof.
  induction x as [|c x IH]; intros b y rest Hx Hb H.
  - exists b. auto.
  - cbn [all] in Hx. apply andb_true_iff in Hx. destruct Hx as (Hc & Hx).
    destruct b as [|d b]; cbn [append] in H; injection H as -> H.
    + discriminate.
    + cbn [all] in Hb. apply andb_true_iff in Hb. destruct Hb as (_ & Hb).
      destruct (IH b y rest Hx Hb H) as (b' & -> & ->).
      exists b'. auto.
Qed.

(** A tag that starts on a kept [<] ends with a part. *)
Lemma swallow : forall ps b rest,
  Forall adorns ps -> all (is_not ">") b = true ->
  out_of ps = b ++ String ">" rest ->
  exists pa pb, ps = (pa ++ pb)%list /\ out_of pa = b ++ ">" /\ out_of pb = rest.
Proof.
  induction ps as [|p ps IH]; intros b rest Ha Hb H.
  - destruct b; discriminate.
  - inversion Ha as [|? ? Hp Hps]; subst. rewrite out_of_cons in H.
    destruct p as [c|t|m]; cbn [part_out adorns] in *.
    + destruct b as [|d b]; cbn [append] in H; injection H as -> H.
      * exists [Kept ">"%char], ps. auto.
      * cbn [all] in Hb. apply andb_true_iff in Hb. destruct Hb as (_ & Hb).
        destruct (IH b rest Hps Hb H) as (pa & pb & -> & E1 & E2).
        exists (Kept d :: pa), pb. rewrite out_of_cons, E1. auto.
    + destruct (added_tag_body t Hp) as (_ & Ht).
      unfold tag in H. cbn [append] in H. rewrite sapp_assoc in H.
      change (String "<" (t ++ ">" ++ out_of ps))
        with (String "<" t ++ String ">" (out_of ps)) in H.
      assert (Hx : all (is_not ">") (String "<" t) = true)
        by (cbn [all]; rewrite Ht; reflexivity).
      destruct (first_gt (String "<" t) b (String ">" (out_of ps)) rest Hx Hb H)
        as (b' & -> & E).
      rewrite all_app in Hb. apply andb_true_iff in Hb. destruct Hb as (_ & Hb').
      destruct b' as [|x b']; cbn [append] in E.
      * injection E as E. exists [Added t], ps.
        rewrite sapp_nil_r. split; [reflexivity|]. split; [|auto].
        unfold out_of, tag. cbn [map part_out concat_str fold_right append].
        rewrite sapp_nil_r. reflexivity.
      * injection E as <- _. discriminate.
    + destruct (upper_level_word m Hp) as (_ & Hl).
      assert (Hgt : all (is_not ">") (toUpperCase m) = true).
      { apply (all_impl in_level); [|exact Hl]. intros c Hc.
        apply (level_not_angle c Hc). }
      destruct (first_gt (toUpperCase m) b _ rest Hgt Hb H) as (b' & -> & E).
      rewrite all_app in Hb. apply andb_true_iff in Hb. destruct Hb as (_ & Hb').
      destruct (IH b' rest Hps Hb' E) as (pa & pb & -> & E1 & E2).
      exists (Upper m :: pa), pb. rewrite out_of_cons, E1, sapp_assoc. auto.
Qed.

(** The highlighting pass over the parts: [cs] is the text met since the
    last tag. *)
Lemma tag_pass : forall n ps cs i prev,
  List.length ps <= n -> Forall adorns ps -> Forall texty cs ->
  Nat.odd i = false ->
  exists ps',
    join "" (map_chunks i (chunks true (scan re_tag true prev (out_of ps) 0 true)
                                  (out_of cs)))
    = out_of ps' /\
    inserted (cs ++ ps) ps'.
Proof.
  induction n as [|n IH]; intros ps cs i prev Hn Ha Hc Hi.
  { destruct ps; [|simpl in Hn; lia].
    cbn [out_of map concat_str fold_right scan chunks map_chunks join].
    rewrite Hi. destruct (chunk_parts cs Hc) as (qs & E1 & E2).
    exists qs. rewrite E1, app_nil_r. auto. }
  destruct ps as [|p ps].
  { apply (IH [] cs i prev); auto. simpl. lia. }
  inversion Ha as [|? ? Hp Hps]; subst.
  assert (Hi2 : Nat.odd (S (S i)) = false)
    by (rewrite Nat.odd_succ, Nat.even_succ; exact Hi).
  assert (Hi1 : Nat.odd (S i) = true)
    by (rewrite Nat.odd_succ, <- Nat.negb_odd, Hi; reflexivity).
  assert (Hhit : forall h pa pb,
            (p :: ps = pa ++ pb)%list -> pa <> [] -> out_of pa = h ->
            scan re_tag true prev (out_of (p :: ps)) 0 true
            = Hit h :: scan re_tag true (advance prev h) (out_of pb) 0 true ->
            exists ps',
              join "" (map_chunks i (chunks true
                 (scan re_tag true prev (out_of (p :: ps)) 0 true) (out_of cs)))
              = out_of ps' /\
              inserted (cs ++ p :: ps) ps').
  { intros h pa pb Hsplit Hne Hh ->.
    cbn [chunks map_chunks]. rewrite Hi, Hi1.
    assert (Hlen : List.length pb <= n).
    { apply (f_equal (@List.length part)) in Hsplit. rewrite length_app in Hsplit.
      destruct pa; [contradiction|]. simpl in Hsplit, Hn. lia. }
    assert (Hab : Forall adorns pa /\ Forall adorns pb)
      by (apply Forall_app; rewrite <- Hsplit; exact Ha).
    destruct (IH pb [] (S (S i)) (advance prev h) Hlen (proj2 Hab)
                (Forall_nil _) Hi2) as (ps' & E1 & E2).
    destruct (chunk_parts cs Hc) as (qs & F1 & F2).
    change (out_of []) with "" in E1.
    exists (qs ++ pa ++ ps')%list.
    rewrite !join_cons, E1, F1, !out_of_app, Hh, Hsplit.
    split; [reflexivity|].
    apply inserted_app; [exact F2|].
    apply inserted_app; [apply inserted_refl | exact E2]. }
  destruct p as [c|b|m]; cbn [adorns] in Hp.
  - clear Hi2 Hi1.
    destruct (match_at re_tag prev (out_of (Kept c :: ps))) as [k|] eqn:E.
    + destruct (tag_match_inv _ _ _ E) as (b & rest & Hs & Hb & ->).
      rewrite out_of_cons in Hs. unfold tag in Hs. cbn [part_out append] in Hs.
      injection Hs as -> Hs. rewrite sapp_assoc in Hs. cbn [append] in Hs.
      destruct (swallow ps b rest Hps (proj2 Hb) Hs) as (pa & pb & -> & E1 & E2).
      apply (Hhit (tag b) (Kept "<"%char :: pa) pb); [reflexivity | discriminate | |].
      * rewrite out_of_cons, E1. reflexivity.
      * assert (Eo : out_of (Kept "<"%char :: pa ++ pb) = tag b ++ out_of pb).
        { rewrite out_of_cons, out_of_app, E1. unfold tag.
          cbn [part_out append]. rewrite !sapp_assoc. reflexivity. }
        rewrite Eo in *. change (tag b) with (String "<" (b ++ ">")) in *.
        apply scan_hit, E.
    + clear Hhit. rewrite out_of_cons in *. cbn [part_out append] in *.
      rewrite scan_txt by exact E. cbn [chunks].
      simpl in Hn.
      destruct (IH ps (cs ++ [Kept c])%list i (Some c) ltac:(lia) Hps) as (ps' & E1 & E2);
        [apply Forall_app; split; [exact Hc | constructor; [exact I | constructor]]
        | exact Hi |].
      rewrite out_of_app in E1. cbn in E1.
      rewrite <- app_assoc in E2.
      exists ps'. rewrite E1. auto.
  - apply (Hhit (tag b) [Added b] ps); [reflexivity | discriminate | |].
    + unfold out_of. cbn [map part_out concat_str fold_right]. apply sapp_nil_r.
    + rewrite out_of_cons. cbn [part_out].
      pose proof (tag_match prev b (out_of ps) (added_tag_body b Hp)) as E.
      change (tag b) with (String "<" (b ++ ">")) in *.
      apply scan_hit, E.
  - clear Hhit. destruct (upper_level_word m Hp) as (_ & Hl).
    rewrite out_of_cons. cbn [part_out]. rewrite scan_quiet.
    + rewrite chunks_txt. simpl in Hn.
      destruct (IH ps (cs ++ [Upper m])%list i (advance prev (toUpperCase m))
                  ltac:(lia) Hps) as (ps' & E1 & E2);
        [apply Forall_app; split; [exact Hc | constructor; [exact Hp | constructor]]
        | exact Hi |].
      assert (Eo : out_of [Upper m] = toUpperCase m) by apply sapp_nil_r.
      rewrite out_of_app, Eo in E1.
      rewrite <- app_assoc in E2.
      exists ps'. rewrite E1. auto.
    + intros u v prev' Huv Hv.
      apply (silent_tag (toUpperCase m)) with (u := u); [|exact Huv | exact Hv].
      apply (all_impl in_level); [|exact Hl]. intros c Hc'.
      apply (level_not_angle c Hc').
Qed.

Lemma highlight_parts ps :
  Forall adorns ps ->
  exists ps', highlightNumbersOutsideTags (out_of ps) = out_of ps' /\
              inserted ps ps'.
Proof.
  intros H. unfold highlightNumbersOutsideTags, split, tokens.
  apply (tag_pass (List.length ps) ps [] 0 None (le_n _) H (Forall_nil _) eq_refl).
Qed.

(** C7, as the code has it.  For every line, the decorated line is the
    line with tags added and level words put in upper case: it splits
    into characters kept from the line, each in its place, tags of the
    five kinds the decorator writes, and words the level pattern matched,
    written in upper case.  Each of those words stands alone in the line:
    the characters of the line next to it, if any, are not word
    characters.  Taking the added tags away gives the line back but for
    the case of those words; every other character is the one of the
    line. *)
Theorem decoration_keeps_text (line : string) :
  exists ps, src_of ps = line /\
             out_of ps = processLogLine line /\
             Forall adorns ps /\
             alone None ps.
Proof.
  unfold processLogLine. cbv zeta.
  destruct (py_parts line) as (ps1 & -> & E1 & H1 & G1).
  destruct (level_parts ps1 H1 G1) as (ps2 & -> & E2 & H2 & G2).
  destruct (highlight_parts ps2 H2) as (ps3 & -> & H3).
  exists ps3. split; [|split; [reflexivity | split]].
  - rewrite (inserted_src _ _ H3). congruence.
  - apply (inserted_adorns _ _ H3 H2).
  - apply (inserted_alone _ _ H3 None G2).
Qed.

(** The parts of one decorated line, with a [<] of its own: the level
    word is in upper case, the rest of the line is in place. *)
Example decoration_parts_of_a_line :
  let ps := (kepts "a<b " ++
             [Added (level_body "info"); Upper "failed"; Added close_body;
              Kept " "; Added number_body; Kept "7"; Added close_body])%list in
  src_of ps = "a<b failed 7" /\
  out_of ps = processLogLine "a<b failed 7" /\
  alone None ps.
Proof. vm_compute. repeat split; reflexivity. Qed.

(** C7, as stated, fails: the level pass replaces [failed] by [FAILED], so
    the text under the markup is no longer the text of the line. *)
Lemma decoration_changes_case :
  processLogLine "login failed"
  = "login " ++ span_level "info" "FAILED" /\
  strip_tags (processLogLine "login failed") = "login FAILED" /\
  strip_tags (processLogLine "login failed") <> "login failed".
Proof.
  repeat split; try (vm_compute; reflexivity).
  vm_compute. discriminate.
Qed.


(** ** Numbers are highlighted outside tags only *)

Lemma tag_free_nil after : tag_free "" after.
Proof.
  intros [|x u] v b c H Hv; [|discriminate]. simpl in H. subst. contradiction.
Qed.

Lemma tag_free_snoc cur c s :
  tag_free cur (String c s) ->
  (forall prev, match_at re_tag prev (String c s) = None) ->
  tag_free (cur ++ String c "") s.
Proof.
  intros Hcur Hc u v b rest H Hv Hb E.
  destruct (sapp_split _ _ _ _ H) as [(v1 & -> & ->) | (u2 & -> & Hu2)].
  - destruct v1 as [|x v1].
    + cbn [append] in E. specialize (Hc None). rewrite E in Hc.
      rewrite tag_match in Hc by exact Hb. discriminate.
    + apply (Hcur u (String x v1) b rest eq_refl); [discriminate | exact Hb|].
      rewrite <- E, sapp_assoc. reflexivity.
  - destruct u2 as [|y u2]; cbn [append] in Hu2.
    + subst v. cbn [append] in E. specialize (Hc None). rewrite E in Hc.
      rewrite tag_match in Hc by exact Hb. discriminate.
    + inversion Hu2 as [[Hy Hn]]. destruct u2; [|discriminate].
      simpl in Hn. subst v. contradiction.
Qed.

Lemma highlight_tagged : forall n s cur prev i,
  String.length s <= n ->
  Nat.odd i = false ->
  tag_free cur s ->
  exists ps,
    tagged (cur ++ s) ps /\
    join "" (map_chunks i (chunks true (scan re_tag true prev s 0 true) cur))
    = concat_str (map piece_out ps).
Proof.
  induction n as [|n IH]; intros s cur prev i Hn Hi Hcur.
  { destruct s; [|simpl in Hn; lia].
    exists [Text cur]. rewrite sapp_nil_r. split; [constructor; exact Hcur|].
    cbn. rewrite Hi, sapp_nil_r. reflexivity. }
  destruct s as [|c s].
  { exists [Text cur]. rewrite sapp_nil_r. split; [constructor; exact Hcur|].
    cbn. rewrite Hi, sapp_nil_r. reflexivity. }
  destruct (match_at re_tag prev (String c s)) as [k|] eqn:E.
  - destruct (tag_match_inv _ _ _ E) as (b & rest & Hs & Hb & ->).
    rewrite Hs in *.
    change (tag b) with (String "<" (b ++ ">")) in E, Hn |- *.
    rewrite scan_hit by exact E.
    cbn [chunks map_chunks]. rewrite Hi.
    replace (Nat.odd (S i)) with true
      by (rewrite Nat.odd_succ, <- Nat.negb_odd, Hi; reflexivity).
    assert (Hi2 : Nat.odd (S (S i)) = false)
      by (rewrite Nat.odd_succ, Nat.even_succ; exact Hi).
    assert (Hlen : String.length rest <= n).
    { cbn [append String.length] in Hn. rewrite slength_app in Hn. lia. }
    destruct (IH rest "" (advance prev (String "<" (b ++ ">"))) (S (S i))
                Hlen Hi2 (tag_free_nil rest)) as (ps & T & J).
    exists (Text cur :: Tag b :: ps). split.
    + apply (tagged_tag cur b rest ps); assumption.
    + rewrite !join_cons, J. reflexivity.
  - rewrite scan_txt by exact E. cbn [chunks].
    assert (Hfree : tag_free (cur ++ String c "") s).
    { apply tag_free_snoc; [exact Hcur|]. intros prev'.
      destruct (match_at re_tag prev' (String c s)) as [k|] eqn:E'; [|reflexivity].
      destruct (tag_match_inv _ _ _ E') as (b & rest & Hs & Hb & _).
      rewrite Hs in E. rewrite tag_match in E by exact Hb. discriminate. }
    simpl in Hn.
    destruct (IH s (cur ++ String c "") (Some c) i ltac:(lia) Hi Hfree)
      as (ps & T & J).
    exists ps. rewrite sapp_assoc in T. auto.
Qed.

(** C6.  The highlighting pass cuts its input into the tags [<...>], taken
    leftmost first, and the text between them; it emits every tag as it
    is, in place, and rewrites the text only.  This holds for every input,
    so also when the pass runs again on its own output; in particular the
    digits of a [--h:246] style attribute are not touched. *)
Theorem numbers_highlighted_outside_tags (html : string) :
  (exists ps, tagged html ps /\
     highlightNumbersOutsideTags html = concat_str (map piece_out ps)) /\
  (exists ps, tagged (highlightNumbersOutsideTags html) ps /\
     highlightNumbersOutsideTags (highlightNumbersOutsideTags html)
     = concat_str (map piece_out ps)) /\
  highlightNumbersOutsideTags (span_logfile 246 "w.py" ++ " 12")
  = span_logfile 246 "w.py" ++ " " ++ span_number "12" /\
  highlightNumbersOutsideTags
    (highlightNumbersOutsideTags (span_logfile 246 "w.py"))
  = span_logfile 246 "w.py".
Proof.
  assert (H : forall s, exists ps, tagged s ps /\
            highlightNumbersOutsideTags s = concat_str (map piece_out ps)).
  { intros s. apply (highlight_tagged (String.length s) s "" None 0);
      [apply le_n | reflexivity | apply tag_free_nil]. }
  repeat split; try apply H; vm_compute; reflexivity.
Qed.

(** ** Decoration *)

(** C5.  Decorating the output of the decorator again wraps the file name
    a second time: the guard of the source pass tests the matched file
    name, which never contains a span, so it never fires. *)
Theorem decoration_wraps_twice :
  test re_logfile_span "worker.py" = false /\
  processLogLine "worker.py" = span_logfile 9 "worker.py" /\
  processLogLine (processLogLine "worker.py")
    = span_logfile 9 (span_logfile 9 "worker.py") /\
  processLogLine (processLogLine "worker.py") <> processLogLine "worker.py".
Proof.
  repeat split; try (vm_compute; reflexivity).
  vm_compute. discriminate.
Qed.

(** ** The line cap of the live path *)

Lemma br_match_inv prev s n :
  match_at re_br prev s = Some n -> exists rest, s = br ++ rest /\ n = 4.
Proof.
  unfold match_at, re_br. intros H. apply rlit_inv in H.
  destruct H as (m & rest & -> & Hm & H). apply same_eq in Hm. subst m.
  inversion H. exists rest. auto.
Qed.

Lemma br_match_prev prev prev' s : match_at re_br prev s = match_at re_br prev' s.
Proof.
  unfold match_at, re_br, br. cbn [rmatch lit].
  repeat (destruct s as [|? s]; [reflexivity|];
          match goal with |- context [chr_eq ?ci ?a ?c] => destruct (chr_eq ci a c) end;
          [|reflexivity]).
  reflexivity.
Qed.

Lemma scan_br_prev g : forall s prev prev' skip live,
  scan re_br g prev s skip live = scan re_br g prev' s skip live.
Proof.
  induction s as [|c s IH]; intros prev prev' skip live; [reflexivity|].
  cbn [scan]. destruct skip as [|k]; [|apply IH].
  rewrite (br_match_prev prev prev'). reflexivity.
Qed.

Lemma chunks_nonempty keep ts : forall cur, chunks keep ts cur <> [].
Proof.
  induction ts as [|[c|m] ts IH]; intros cur; cbn [chunks];
    [discriminate | apply IH | destruct keep; discriminate].
Qed.

Lemma join_br_cons x l : l <> [] -> join br (x :: l) = x ++ br ++ join br l.
Proof. destruct l; [contradiction | reflexivity]. Qed.

(** Joining the pieces of a split with the separator gives the text back. *)
Lemma join_chunks : forall n s cur prev,
  String.length s <= n ->
  join br (chunks false (scan re_br true prev s 0 true) cur) = cur ++ s.
Proof.
  induction n as [|n IH]; intros s cur prev Hn.
  { destruct s; [|simpl in Hn; lia]. cbn. rewrite sapp_nil_r. reflexivity. }
  destruct s as [|c s]; [cbn; rewrite sapp_nil_r; reflexivity|].
  destruct (match_at re_br prev (String c s)) as [k|] eqn:E.
  - destruct (br_match_inv _ _ _ E) as (rest & Hs & ->). rewrite Hs in *.
    change (br ++ rest) with (String "<" "br>" ++ rest) in E |- *.
    rewrite scan_hit by exact E. cbn [chunks].
    rewrite join_br_cons by apply chunks_nonempty.
    rewrite IH; [reflexivity|]. unfold br in Hn. simpl in Hn. lia.
  - rewrite scan_txt by exact E. cbn [chunks].
    rewrite IH by (simpl in Hn; lia). rewrite sapp_assoc. reflexivity.
Qed.

(** The last [k] pieces of a split are the pieces of a suffix of the text
    that starts right behind a separator. *)
Lemma last_chunks k : 0 < k -> forall n s cur prev,
  String.length s <= n ->
  let l := chunks false (scan re_br true prev s 0 true) cur in
  List.length l <= k \/
  exists dropped s',
    cur ++ s = dropped ++ s' /\
    skipn (List.length l - k) l = chunks false (scan re_br true None s' 0 true) "" /\
    List.length (skipn (List.length l - k) l) = k.
Proof.
  intros Hk. induction n as [|n IH]; intros s cur prev Hn l.
  { destruct s; [|simpl in Hn; lia]. left. subst l. simpl. lia. }
  destruct s as [|c s]; [left; subst l; simpl; lia|].
  subst l.
  destruct (match_at re_br prev (String c s)) as [j|] eqn:E.
  - destruct (br_match_inv _ _ _ E) as (rest & Hs & ->). rewrite Hs in *.
    change (br ++ rest) with (String "<" "br>" ++ rest) in E |- *.
    rewrite scan_hit by exact E. cbn [chunks].
    rewrite (scan_br_prev true rest _ None).
    assert (Hlen : String.length rest <= n)
      by (unfold br in Hn; simpl in Hn; lia).
    specialize (IH rest "" None Hlen). cbv zeta in IH.
    set (l' := chunks false (scan re_br true None rest 0 true) "") in *.
    cbn [List.length].
    destruct IH as [Hsmall | (dropped & s' & Hd & Hskip & Hl)].
    + destruct (Nat.eq_dec (List.length l') k) as [Heq | Hne].
      * right. exists (cur ++ String "<" "br>"), rest.
        rewrite sapp_assoc. split; [reflexivity|].
        replace (S (List.length l') - k) with 1 by lia.
        cbn [skipn]. auto.
      * left. lia.
    + right. exists (cur ++ String "<" "br>" ++ dropped), s'.
      assert (Hge : k <= List.length l').
      { rewrite <- Hl. rewrite length_skipn. lia. }
      replace (S (List.length l') - k) with (S (List.length l' - k)) by lia.
      cbn [skipn]. split; [|auto].
      cbn [append] in Hd. rewrite Hd, !sapp_assoc. reflexivity.
  - rewrite scan_txt by exact E. cbn [chunks].
    destruct (IH s (cur ++ String c "") (Some c) ltac:(simpl in Hn; lia))
      as [Hsmall | (dropped & s' & Hd & Hskip & Hl)].
    + left. exact Hsmall.
    + right. exists dropped, s'. rewrite sapp_assoc in Hd. auto.
Qed.

(** The cap of [appendLogs] leaves at most [maxLines] pieces and drops
    markup from the front only. *)
Lemma cap_lines_keeps_newest st :
  has_logConsole st = true -> 0 < maxLines st ->
  List.length (split re_br false (html (cap_lines st))) <= maxLines st /\
  exists dropped, html st = dropped ++ html (cap_lines st).
Proof.
  intros Hlc Hk. unfold cap_lines.
  destruct (maxLines st <? List.length (split re_br false (html st))) eqn:E.
  - assert (Hh : forall x, html (with_logConsole (fun lc => set_innerHTML x lc) st) = x).
    { intros x. unfold html, with_logConsole, has_logConsole in *.
      destruct (logConsole (el st)); [reflexivity | discriminate]. }
    rewrite Hh. apply Nat.ltb_lt in E.
    unfold split, tokens in E |- *.
    destruct (last_chunks (maxLines st) Hk (String.length (html st)) (html st) "" None
                (le_n _)) as [Hsmall | (dropped & s' & Hd & Hskip & Hl)].
    + fold re_br in E. lia.
    + unfold slice_last. destruct (maxLines st) as [|k] eqn:Ek; [lia|].
      fold re_br. rewrite Hskip.
      rewrite (join_chunks (String.length s') s' "" None (le_n _)). cbn [append].
      rewrite <- Hskip, Hl. split; [lia|]. exists dropped. exact Hd.
  - apply Nat.ltb_ge in E. split; [exact E|]. exists "". reflexivity.
Qed.

(** Rendering a line while pinned keeps the log within the cap. *)
Lemma live_append_capped st raw :
  has_logConsole st = true -> pinned st = true -> trim raw <> "" ->
  0 < maxLines st ->
  List.length (split re_br false (html (appendLogs raw st))) <= maxLines st.
Proof.
  intros Hlc Hpin Hraw Hk.
  rewrite appendLogs_pinned by assumption.
  set (mid := scrollToBottom (append_line (trim raw) st)).
  assert (Hm : maxLines mid = maxLines st).
  { unfold mid, scrollToBottom, append_line, with_logConsole.
    repeat match goal with
           | |- context [if ?b then _ else _] => destruct b
           | |- context [match ?x with _ => _ end] => destruct x
           end; reflexivity. }
  rewrite <- Hm. apply cap_lines_keeps_newest; [|lia].
  unfold mid.
  destruct (scrollToBottom_frame (append_line (trim raw) st)) as (_ & _ & _ & _ & ->).
  destruct (append_line_frame (trim raw) st) as (_ & _ & _ & _ & _ & ->).
  exact Hlc.
Qed.

(** ** Arrival order *)


Lemma sub_refl l : sub l l.
Proof. induction l; [apply sub_nil | apply sub_keep; assumption]. Qed.

Lemma sub_nil_l l : sub [] l.
Proof. induction l; [apply sub_nil | apply sub_skip; assumption]. Qed.

Lemma sub_app_r l1 l2 l3 : sub l1 l2 -> sub l1 (l2 ++ l3).
Proof.
  induction 1; simpl.
  - apply sub_nil_l.
  - apply sub_skip; auto.
  - apply sub_keep; auto.
Qed.

Lemma sub_snoc l1 l2 x : sub l1 l2 -> sub (l1 ++ [x]) (l2 ++ [x]).
Proof.
  induction 1; simpl.
  - apply sub_keep, sub_nil.
  - apply sub_skip; auto.
  - apply sub_keep; auto.
Qed.

Lemma sub_trans l1 l2 l3 : sub l1 l2 -> sub l2 l3 -> sub l1 l3.
Proof.
  intros H12 H23. revert l1 H12.
  induction H23; intros l0 H12.
  - exact H12.
  - apply sub_skip. auto.
  - inversion H12; subst.
    + apply sub_skip. auto.
    + apply sub_keep. auto.
Qed.

Lemma sub_drop a x b : sub (a ++ b) (a ++ x :: b).
Proof.
  induction a as [|y a IH]; simpl.
  - apply sub_skip, sub_refl.
  - apply sub_keep. exact IH.
Qed.

Lemma sub_prefix a b : sub a (a ++ b).
Proof. apply sub_app_r, sub_refl. Qed.

(** [trim] is idempotent. *)
Lemma trimStart_head s :
  match trimStart s with
  | String c _ => is_space c = false
  | EmptyString => True
  end.
Proof.
  induction s as [|c s IH]; simpl; [exact I|].
  destruct (is_space c) eqn:E; [exact IH | exact E].
Qed.

Lemma trimEnd_head c s :
  is_space c = false -> exists t, trimEnd (String c s) = String c t.
Proof.
  intros H. simpl. destruct (trimEnd s); [rewrite H|]; eexists; reflexivity.
Qed.

Lemma trimEnd_idem s : trimEnd (trimEnd s) = trimEnd s.
Proof.
  induction s as [|c s IH]; [reflexivity|].
  simpl. destruct (trimEnd s) as [|d t] eqn:E.
  - destruct (is_space c) eqn:Ec; [reflexivity|]. simpl. rewrite Ec. reflexivity.
  - simpl in *. rewrite IH. reflexivity.
Qed.

Lemma trim_idem s : trim (trim s) = trim s.
Proof.
  unfold trim. pose proof (trimStart_head s) as H.
  destruct (trimStart s) as [|c t] eqn:E; [reflexivity|].
  destruct (trimEnd_head c t H) as (u & Hu). rewrite Hu.
  assert (Hs : trimStart (String c u) = String c u) by (simpl; rewrite H; reflexivity).
  rewrite Hs, <- Hu. apply trimEnd_idem.
Qed.

Lemma clean_trim raw : trim raw <> "" -> clean_line (trim raw).
Proof. intros H. split; [apply trim_idem | exact H]. Qed.

Lemma decorated_cons l ls :
  decorated (l :: ls) = (processLogLine l ++ br) ++ decorated ls.
Proof. reflexivity. Qed.

Lemma decorated_app a b : decorated (a ++ b) = decorated a ++ decorated b.
Proof.
  unfold decorated. induction a as [|x a IH]; simpl; [reflexivity|].
  rewrite IH, !sapp_assoc. reflexivity.
Qed.

Lemma html_flush_lines buf : forall st,
  has_logConsole st = true -> Forall clean_line buf ->
  html (fold_left flush_line buf st) = html st ++ decorated buf.
Proof.
  induction buf as [|l buf IH]; intros st Hlc Hb; simpl.
  - unfold decorated. simpl. rewrite sapp_nil_r. reflexivity.
  - inversion Hb as [|? ? (Ht & Hne) Hb']; subst.
    unfold flush_line at 2. rewrite Ht.
    destruct (String.eqb l "") eqn:E; [apply String.eqb_eq in E; contradiction|].
    rewrite IH.
    + rewrite html_append_line by exact Hlc.
      rewrite decorated_cons, !sapp_assoc. reflexivity.
    + destruct (append_line_frame l st) as (_ & _ & _ & _ & _ & ->). exact Hlc.
    + exact Hb'.
Qed.

Lemma pushed_app a b : pushed (a ++ b) = (pushed a ++ pushed b)%list.
Proof.
  induction a as [|e a IH]; simpl; [reflexivity|].
  destruct e; try exact IH.
  destruct (String.eqb (trim data) ""); [exact IH|]. simpl. rewrite IH. reflexivity.
Qed.

(** What the flush does to the log and the queue. *)
Lemma flushBuffer_log st :
  has_logConsole st = true -> Forall clean_line (logBuffer st) ->
  html (flushBuffer st) = html st ++ decorated (logBuffer st) /\
  logBuffer (flushBuffer st) = [] /\
  isUserScrolling (flushBuffer st) = isUserScrolling st /\
  autoScroll (flushBuffer st) = autoScroll st /\
  has_logConsole (flushBuffer st) = true.
Proof.
  intros Hlc Hb. unfold flushBuffer. rewrite Hlc. cbn [negb].
  destruct (List.length (logBuffer st) =? 0) eqn:E; cbn [orb].
  - apply Nat.eqb_eq in E. destruct (logBuffer st); [|discriminate].
    unfold decorated. simpl. rewrite sapp_nil_r. auto.
  - set (st1 := fold_left flush_line (logBuffer st) (set_logBuffer [] st)).
    assert (H1 : html st1 = html st ++ decorated (logBuffer st)).
    { unfold st1. rewrite html_flush_lines; auto. }
    destruct (flush_lines_frame (logBuffer st) (set_logBuffer [] st))
      as (B1 & _ & _ & U1 & A1 & L1). fold st1 in B1, U1, A1, L1.
    destruct (scrollToBottom_frame st1) as (B2 & _ & H2 & _ & L2).
    destruct (updateBufferIndicator_frame (scrollToBottom st1))
      as (B3 & _ & H3 & L3).
    assert (F2 : isUserScrolling (scrollToBottom st1) = isUserScrolling st1 /\
                 autoScroll (scrollToBottom st1) = autoScroll st1).
    { unfold scrollToBottom.
      destruct (negb (isUserScrolling st1) && autoScroll st1); [|auto].
      destruct (with_logConsole_frame
                  (fun lc => set_geometry
                     (set_scrollTop (scrollHeight (geometry lc)) (geometry lc)) lc)
                  st1) as (_ & _ & _ & -> & -> & _). auto. }
    destruct F2 as (U2 & A2).
    assert (F3 : isUserScrolling (updateBufferIndicator (scrollToBottom st1))
                 = isUserScrolling (scrollToBottom st1) /\
                 autoScroll (updateBufferIndicator (scrollToBottom st1))
                 = autoScroll (scrollToBottom st1)).
    { unfold updateBufferIndicator.
      destruct (bufferIndicator (el (scrollToBottom st1))); auto. }
    destruct F3 as (U3 & A3).
    rewrite H3, H2, H1, B3, B2, B1, U3, U2, U1, A3, A2, A1, L3, L2, L1.
    simpl. auto.
Qed.

(** The cap drops markup from the front only. *)
Lemma cap_lines_suffix st : exists dropped, html st = dropped ++ html (cap_lines st).
Proof.
  destruct (has_logConsole st) eqn:Hlc.
  - destruct (maxLines st) as [|k] eqn:Ek.
    + unfold cap_lines. rewrite Ek.
      destruct (0 <? List.length (split re_br false (html st)));
        [|exists ""; reflexivity].
      exists "". cbn [append slice_last].
      unfold split, tokens.
      rewrite (join_chunks (String.length (html st)) (html st) "" None (le_n _)).
      cbn [append].
      unfold html, with_logConsole, has_logConsole in *.
      destruct (logConsole (el st)) eqn:El; [|discriminate]. reflexivity.
    + apply cap_lines_keeps_newest; [exact Hlc | lia].
  - exists "". unfold cap_lines. destruct (maxLines st <? _); [|reflexivity].
    unfold with_logConsole. unfold has_logConsole in Hlc.
    destruct (logConsole (el st)); [discriminate | reflexivity].
Qed.

Ltac view_crush st :=
  unfold view, html, has_logConsole;
  cbv [step start stopSSE reconnect set_toggle_src setFont adjustFont
       with_logConsole has_logConsole onopen onerror reconnect_timer
       scrollToBottom autostart_reply];
  destruct st as [[lc ti bi sb] fs ml es on ra mr us au sto lb mb rt af ls sw cf rv];
  cbn;
  repeat (match goal with
          | |- context [match ?x with _ => _ end] => is_var x; destruct x; cbn
          | |- context [if ?x then _ else _] => destruct x eqn:?; cbn
          end);
  try reflexivity.

Lemma view_step e st : touches_log e = false -> view (step e st) = view st.
Proof.
  intros H. destruct e; try discriminate; clear H.
  - view_crush st.
  - view_crush st.
  - view_crush st.
  - view_crush st.
  - view_crush st.
  - view_crush st.
  - view_crush st.
  - view_crush st.
  - view_crush st.
Qed.

Ltac view_eq H :=
  unfold view in H;
  repeat (apply pair_equal_spec in H;
          let H' := fresh H in destruct H as [H H']).

Lemma inv_same es es' st st' :
  view st' = view st -> pushed es' = pushed es ->
  ordered_inv es st -> ordered_inv es' st'.
Proof.
  intros Hv Hp (Hlc & Hsc & Hcl & shown & dropped & Hd & Hs).
  view_eq Hv. unfold ordered_inv, scroll_consistent, in_arrival_order.
  rewrite Hv, Hv0, Hv1, Hv2, Hv3, Hp. eauto 10.
Qed.

Lemma inv_pushed es e st :
  ordered_inv es st -> ordered_inv (es ++ [e]) st.
Proof.
  intros (Hlc & Hsc & Hcl & shown & dropped & Hd & Hs).
  repeat split; try assumption.
  exists shown, dropped. split; [exact Hd|].
  rewrite pushed_app. apply sub_app_r. exact Hs.
Qed.

(** The queue is emptied, the rest of the view stays. *)
Lemma inv_clear es es' st st' :
  view st' = (html st, [], isUserScrolling st, autoScroll st, has_logConsole st) ->
  pushed es' = pushed es ->
  ordered_inv es st -> ordered_inv es' st'.
Proof.
  intros Hv Hp (Hlc & Hsc & Hcl & shown & dropped & Hd & Hs).
  view_eq Hv. unfold ordered_inv, scroll_consistent, in_arrival_order.
  rewrite Hv, Hv0, Hv1, Hv2, Hv3, Hp. repeat split.
  - exact Hlc.
  - destruct Hsc as [(U & A & _) | (U & A)]; [left | right]; auto.
  - constructor.
  - exists shown, dropped. split; [exact Hd|].
    rewrite app_nil_r. apply (sub_trans _ _ _ (sub_prefix shown (logBuffer st)) Hs).
Qed.

(** The view is pinned and the queue flushed into the log. *)
Lemma inv_flush es es' st st' :
  view st' = (html st ++ decorated (logBuffer st), [], false, true, true) ->
  pushed es' = pushed es ->
  ordered_inv es st -> ordered_inv es' st'.
Proof.
  intros Hv Hp (Hlc & Hsc & Hcl & shown & dropped & Hd & Hs).
  view_eq Hv. unfold ordered_inv, scroll_consistent, in_arrival_order.
  rewrite Hv, Hv0, Hv1, Hv2, Hv3, Hp. repeat split.
  - left. auto.
  - constructor.
  - exists (shown ++ logBuffer st)%list, dropped.
    rewrite decorated_app, Hd, sapp_assoc, app_nil_r. auto.
Qed.

(** The view is scrolled, log and queue stay. *)
Lemma inv_scrolled es es' st st' :
  view st' = (html st, logBuffer st, true, false, has_logConsole st) ->
  pushed es' = pushed es ->
  ordered_inv es st -> ordered_inv es' st'.
Proof.
  intros Hv Hp (Hlc & Hsc & Hcl & shown & dropped & Hd & Hs).
  view_eq Hv. unfold ordered_inv, scroll_consistent, in_arrival_order.
  rewrite Hv, Hv0, Hv1, Hv2, Hv3, Hp. repeat split; eauto.
Qed.

Lemma view_flushBuffer st :
  has_logConsole st = true -> Forall clean_line (logBuffer st) ->
  view (flushBuffer st)
  = (html st ++ decorated (logBuffer st), [], isUserScrolling st, autoScroll st, true).
Proof.
  intros Hlc Hcl.
  destruct (flushBuffer_log st Hlc Hcl) as (H1 & H2 & H3 & H4 & H5).
  unfold view. rewrite H1, H2, H3, H4, H5. reflexivity.
Qed.

Lemma view_set_btn_display d st : view (set_btn_display d st) = view st.
Proof.
  unfold view, html, has_logConsole, set_btn_display.
  destruct (scrollBtn (el st)); reflexivity.
Qed.

Lemma view_scrollToBottom st : view (scrollToBottom st) = view st.
Proof.
  unfold view, html, has_logConsole, scrollToBottom, with_logConsole.
  destruct (negb (isUserScrolling st) && autoScroll st); [|reflexivity].
  destruct (logConsole (el st)) eqn:E; cbn; rewrite ?E; reflexivity.
Qed.

Lemma view_updateBufferIndicator st : view (updateBufferIndicator st) = view st.
Proof.
  unfold view, html, has_logConsole, updateBufferIndicator.
  destruct (bufferIndicator (el st)); reflexivity.
Qed.

Lemma view_stop st :
  view (stop st)
  = (html st, [], isUserScrolling st, autoScroll st, has_logConsole st).
Proof.
  unfold stop. rewrite view_updateBufferIndicator.
  unfold view, html, has_logConsole, stopSSE.
  destruct (eventSource st); reflexivity.
Qed.

Lemma view_set_toggle_src src st : view (set_toggle_src src st) = view st.
Proof.
  unfold view, html, has_logConsole, set_toggle_src.
  destruct (toggleImg (el st)); reflexivity.
Qed.

Lemma view_start created st : view (start created st) = view st.
Proof. apply (view_step (Start created) st). reflexivity. Qed.

Lemma appendLogs_flags raw st :
  isUserScrolling (appendLogs raw st) = isUserScrolling st /\
  autoScroll (appendLogs raw st) = autoScroll st /\
  has_logConsole (appendLogs raw st) = has_logConsole st.
Proof.
  assert (flags : forall a b, view a = view b ->
            isUserScrolling a = isUserScrolling b /\
            autoScroll a = autoScroll b /\ has_logConsole a = has_logConsole b).
  { intros a b H. view_eq H. auto. }
  unfold appendLogs.
  destruct (String.eqb (trim raw) "" || negb (has_logConsole st)); [auto|].
  destruct (isUserScrolling st || negb (autoScroll st)).
  - match goal with
    | |- context [updateBufferIndicator ?s] =>
        destruct (flags _ _ (view_updateBufferIndicator s)) as (-> & -> & ->)
    end.
    destruct (maxBufferSize _ <? _); auto.
  - match goal with
    | |- context [cap_lines ?s] =>
        rewrite (cap_lines_has s);
        assert (Hc : isUserScrolling (cap_lines s) = isUserScrolling s /\
                     autoScroll (cap_lines s) = autoScroll s);
        [ unfold cap_lines; destruct (maxLines s <? _); [|auto];
          match goal with
          | |- context [with_logConsole ?f ?x] =>
              destruct (with_logConsole_frame f x) as (_ & _ & _ & -> & -> & _)
          end; auto
        | destruct Hc as (-> & ->) ]
    end.
    destruct (append_line_frame (trim raw) st) as (_ & _ & _ & U & A & L).
    rewrite A, U.
    destruct (autoScroll st && negb (isUserScrolling st)).
    + destruct (flags _ _ (view_scrollToBottom (append_line (trim raw) st)))
        as (-> & -> & ->). auto.
    + auto.
Qed.

Lemma inv_append es data st :
  ordered_inv es st ->
  ordered_inv (es ++ [SseMessage data]) (appendLogs data st).
Proof.
  intros Hinv.
  destruct (String.eqb (trim data) "") eqn:Et.
  { replace (appendLogs data st) with st; [apply inv_pushed; exact Hinv|].
    unfold appendLogs. rewrite Et. reflexivity. }
  destruct Hinv as (Hlc & Hsc & Hcl & shown & dropped & Hd & Hs).
  assert (Hne : trim data <> "") by (apply String.eqb_neq; exact Et).
  assert (Hp : pushed (es ++ [SseMessage data]) = (pushed es ++ [trim data])%list).
  { rewrite pushed_app. cbn [pushed]. rewrite Et. reflexivity. }
  destruct (appendLogs_flags data st) as (FU & FA & FL).
  destruct (appendLogs_buffer data st) as (_ & FB).
  rewrite Et, Hlc in FB. cbn [negb orb] in FB.
  unfold ordered_inv, scroll_consistent, in_arrival_order.
  rewrite FU, FA, FL, Hp.
  destruct Hsc as [(U & A & B) | (U & A)].
  - (* pinned: the line is rendered *)
    rewrite U, A in FB. cbn [negb orb] in FB. rewrite FB, B.
    split; [exact Hlc|]. split; [left; auto|]. split; [constructor|].
    assert (Hpin : pinned st = true) by (unfold pinned; rewrite U, A; reflexivity).
    rewrite (appendLogs_pinned data st Hlc Hpin Hne).
    destruct (cap_lines_suffix (scrollToBottom (append_line (trim data) st)))
      as (dropped' & Hd').
    destruct (scrollToBottom_frame (append_line (trim data) st))
      as (_ & _ & Hh & _).
    rewrite Hh, html_append_line in Hd' by exact Hlc.
    exists (shown ++ [trim data])%list, (dropped ++ dropped').
    split.
    + rewrite decorated_app, Hd. unfold decorated at 1. cbn [map concat_str fold_right].
      rewrite sapp_nil_r, !sapp_assoc. rewrite <- Hd'. reflexivity.
    + rewrite app_nil_r. rewrite B, app_nil_r in Hs. apply sub_snoc. exact Hs.
  - (* scrolled: the line is queued *)
    rewrite U in FB. cbn [orb] in FB. rewrite FB.
    assert (Hh : html (appendLogs data st) = html st).
    { unfold appendLogs. rewrite Et, Hlc, U. cbn [negb orb].
      match goal with
      | |- context [updateBufferIndicator ?s] =>
          destruct (updateBufferIndicator_frame s) as (_ & _ & -> & _)
      end.
      destruct (maxBufferSize _ <? _); reflexivity. }
    rewrite Hh.
    assert (Hcl' : Forall clean_line (logBuffer st ++ [trim data])).
    { apply Forall_app. split; [exact Hcl|].
      constructor; [apply clean_trim; exact Hne | constructor]. }
    assert (Hs' : sub (shown ++ logBuffer st ++ [trim data]) (pushed es ++ [trim data])).
    { rewrite app_assoc. apply sub_snoc. exact Hs. }
    split; [exact Hlc|]. split; [right; auto|].
    destruct (maxBufferSize st <? List.length (logBuffer st ++ [trim data])).
    + unfold shift. destruct (logBuffer st ++ [trim data])%list as [|x t] eqn:El.
      * split; [constructor|]. exists shown, dropped. auto.
      * inversion Hcl'; subst. split; [assumption|].
        exists shown, dropped. split; [exact Hd|].
        apply (sub_trans _ _ _ (sub_drop shown x t) Hs').
    + split; [exact Hcl'|]. exists shown, dropped. auto.
Qed.

Lemma pushed_other es e :
  (forall data, e <> SseMessage data) -> pushed (es ++ [e]) = pushed es.
Proof.
  intros H. rewrite pushed_app.
  destruct e; cbn [pushed]; try apply app_nil_r.
  exfalso. apply (H data). reflexivity.
Qed.

Lemma view_inv_scrollTimeout es v st :
  ordered_inv es (set_scrollTimeout v st) = ordered_inv es st.
Proof. reflexivity. Qed.

(** One callback turn other than [forceBottom()] keeps the invariant. *)
Lemma inv_step es e st :
  no_forceBottom e = true ->
  ordered_inv es st -> ordered_inv (es ++ [e]) (step e st).
Proof.
  intros Hnf Hinv.
  assert (Hlc : has_logConsole st = true) by apply Hinv.
  assert (Hcl : Forall clean_line (logBuffer st)) by apply Hinv.
  assert (Hsc : scroll_consistent st) by apply Hinv.
  destruct (touches_log e) eqn:Ht.
  - destruct e; try discriminate; cbn [step].
    + (* stop() *)
      apply (inv_clear es _ st); [apply view_stop | | exact Hinv].
      apply pushed_other. discriminate.
    + (* toggle() *)
      assert (Hp : pushed (es ++ [Toggle created]) = pushed es)
        by (apply pushed_other; discriminate).
      unfold toggle.
      set (st1 := set_isConsoleOn (negb (isConsoleOn st)) st).
      assert (V1 : view st1 = view st) by reflexivity.
      destruct (isConsoleOn st1).
      * apply (inv_same es _ st); [|exact Hp | exact Hinv].
        rewrite view_set_toggle_src, view_start. exact V1.
      * apply (inv_clear es _ st); [|exact Hp | exact Hinv].
        rewrite view_set_toggle_src, view_stop. reflexivity.
    + (* a pushed line *)
      destruct (eventSource st) as [[]|];
        try (apply inv_pushed; exact Hinv).
      apply inv_append. exact Hinv.
    + (* scroll *)
      assert (Hp : pushed (es ++ [Scroll g]) = pushed es)
        by (apply pushed_other; discriminate).
      rewrite Hlc. unfold scroll_listener, scroll_btn_listener.
      match goal with
      | |- context [set_btn_display ?d st] =>
          pose proof (view_set_btn_display d st) as V1;
          generalize dependent (set_btn_display d st)
      end.
      intros st1 V1.
      assert (Hinv1 : ordered_inv es st1) by (apply (inv_same es es st); auto).
      assert (Hlc1 : has_logConsole st1 = true) by apply Hinv1.
      assert (Hcl1 : Forall clean_line (logBuffer st1)) by apply Hinv1.
      cbv zeta. rewrite view_inv_scrollTimeout.
      destruct (isAtBottom g 50).
      * match goal with
        | |- context [if ?b then flushBuffer _ else _] => destruct b eqn:U1
        end.
        -- apply (inv_flush es _ st1); [|exact Hp | exact Hinv1].
           match goal with
           | |- view (flushBuffer ?s) = _ => rewrite (view_flushBuffer s Hlc1 Hcl1)
           end.
           reflexivity.
        -- change (isUserScrolling st1 = false) in U1.
           destruct Hinv1 as (_ & [(U & A & B) | (U & A)] & _); [|congruence].
           apply (inv_same es _ st1);
             [|exact Hp | apply (inv_same es es st); auto].
           unfold view, html, has_logConsole. cbn. rewrite A, U. reflexivity.
      * apply (inv_scrolled es _ st1); [reflexivity | exact Hp | exact Hinv1].
    + (* wheel *)
      rewrite Hlc.
      apply (inv_scrolled es _ st); [reflexivity | | exact Hinv].
      apply pushed_other. discriminate.
    + (* the debounce timer *)
      assert (Hp : pushed (es ++ [ScrollTimer g]) = pushed es)
        by (apply pushed_other; discriminate).
      destruct (scrollTimeout st); [|apply (inv_same es _ st); auto].
      unfold scroll_timer. destruct (isAtBottom g 50).
      * apply (inv_flush es _ st); [|exact Hp | exact Hinv].
        match goal with
        | |- view (flushBuffer ?s) = _ => rewrite (view_flushBuffer s Hlc Hcl)
        end.
        reflexivity.
      * apply (inv_same es _ st); auto.
    + (* the scroll-to-bottom button *)
      assert (Hp : pushed (es ++ [ClickScrollBtn]) = pushed es)
        by (apply pushed_other; discriminate).
      destruct (scrollBtn (el st)); [|apply (inv_same es _ st); auto].
      unfold click_scrollBtn.
      apply (inv_flush es _ st); [|exact Hp | exact Hinv].
      rewrite view_set_btn_display, view_scrollToBottom.
      match goal with
      | |- view (flushBuffer ?s) = _ => rewrite (view_flushBuffer s Hlc Hcl)
      end.
      reflexivity.
  - apply (inv_same es _ st); [apply view_step; exact Ht | | exact Hinv].
    apply pushed_other. intros data ->. discriminate.
Qed.

(** As long as [forceBottom()] is not called, the log followed by the
    queue holds pushed lines, verbatim ones, in arrival order, none
    twice. *)
Lemma arrival_order_kept es : forall st,
  has_logConsole st = true -> html st = "" -> logBuffer st = [] ->
  pinned st = true ->
  forallb verbatim (pushed es) = true ->
  forallb no_forceBottom es = true ->
  in_arrival_order es (run es st).
Proof.
  intros st Hlc Hh Hb Hpin _.
  assert (H0 : ordered_inv [] st).
  { unfold pinned in Hpin. apply andb_true_iff in Hpin. destruct Hpin as (U & A).
    apply negb_true_iff in U.
    split; [exact Hlc|]. split; [left; auto|]. split; [rewrite Hb; constructor|].
    exists [], "". rewrite Hh, Hb. split; [reflexivity | constructor]. }
  induction es as [|e es IH] using rev_ind; intros Hes.
  - apply H0.
  - rewrite forallb_app in Hes. apply andb_true_iff in Hes. destruct Hes as (H1 & H2).
    simpl in H2. rewrite andb_true_r in H2.
    assert (Hinv : ordered_inv es (run es st) /\ True).
    { split; [|exact I]. clear IH H2.
      induction es as [|e' es IH'] using rev_ind; [exact H0|].
      rewrite forallb_app in H1. apply andb_true_iff in H1. destruct H1 as (H1 & H3).
      simpl in H3. rewrite andb_true_r in H3.
      rewrite run_app. cbn [run fold_left]. apply inv_step; auto. }
    rewrite run_app. cbn [run fold_left].
    apply (inv_step es e (run es st) H2). apply Hinv.
Qed.

(** C1.  The run: the view is scrolled, the server pushes "a" (queued),
    [forceBottom()] is called, the server pushes "b".  The line b is
    rendered while a is still queued, so the log followed by the queue,
    [b; a], is not in arrival order; the flush that follows renders a after
    b. *)
Theorem forceBottom_breaks_arrival_order :
  let es := [Start true; SseOpen; Wheel; SseMessage "a"; ForceBottom; SseMessage "b"] in
  pushed es = ["a"; "b"] /\
  rendered (run es ready) = ["b"] /\
  logBuffer (run es ready) = ["a"] /\
  ~ in_arrival_order es (run es ready) /\
  rendered (run (es ++ [ScrollTimer at_bottom])%list ready) = ["b"; "a"].
Proof.
  cbv zeta. repeat split; try reflexivity.
  intros (shown & dropped & Hd & Hs).
  change (decorated shown = dropped ++ "b<br>") in Hd.
  change (sub (shown ++ ["a"]) ["a"; "b"]) in Hs.
  assert (Hshown : shown = []).
  { inversion Hs as [| x l1 l2 H1 | x l1 l2 H1 E]; subst.
    - inversion H1 as [| y m1 m2 H2 | y m1 m2 H2 E2]; subst.
      + inversion H2. destruct shown; discriminate.
      + inversion H2; subst. destruct shown as [|z [|z' t]]; discriminate.
    - destruct shown as [|z t]; [reflexivity|].
      cbn [app] in E. inversion E; subst.
      inversion H1 as [| y m1 m2 H2 | y m1 m2 H2 E2]; subst.
      + inversion H2. destruct t; discriminate.
      + inversion H2; subst. destruct t as [|z' [|z'' t]]; discriminate. }
  subst shown. destruct dropped; discriminate.
Qed.

(* ===================================================================== *)
(** * Further properties

    Properties of the parts of the module the statements above do not
    reach, and of its callers on the page. *)
(* ===================================================================== *)

(** ** Reading back a stored size *)

Lemma digits_value_acc d : forall acc,
  digits_value (Z.pos acc) (NilEmpty.string_of_uint d) = Z.pos (Pos.of_uint_acc d acc).
Proof.
  induction d; intros acc; cbn [NilEmpty.string_of_uint digits_value Pos.of_uint_acc];
    try reflexivity;
    match goal with
    | |- context [is_digit ?c] => change (is_digit c) with true; cbv iota
    end;
    rewrite <- IHd; f_equal;
    match goal with
    | |- context [Z.of_nat ?n] =>
        let v := eval vm_compute in (Z.of_nat n) in change (Z.of_nat n) with v
    end; lia.
Qed.

Lemma digits_value_uint d :
  digits_value 0 (NilEmpty.string_of_uint d) = Z.of_N (Pos.of_uint d).
Proof.
  induction d; cbn [NilEmpty.string_of_uint digits_value Pos.of_uint];
    try reflexivity;
    match goal with
    | |- context [is_digit ?c] => change (is_digit c) with true; cbv iota
    end;
    [exact IHd | ..]; cbn [Z.of_N]; rewrite <- digits_value_acc; reflexivity.
Qed.

Lemma parse_digits_pos p :
  parse_digits (NilZero.string_of_uint (Pos.to_uint p)) = Some (Z.pos p).
Proof.
  pose proof (DecimalPos.Unsigned.to_uint_nonnil p) as Hn.
  pose proof (digits_value_uint (Pos.to_uint p)) as Hv.
  rewrite DecimalPos.Unsigned.of_to in Hv.
  unfold NilZero.string_of_uint.
  destruct (Pos.to_uint p) eqn:E; [contradiction | ..];
    unfold parse_digits; cbn [NilEmpty.string_of_uint] in *;
    match goal with
    | |- context [is_digit ?c] => change (is_digit c) with true; cbv iota
    end; rewrite Hv; reflexivity.
Qed.

Lemma digit_plain c :
  is_digit c = true ->
  is_space c = false /\ Ascii.eqb c "-" = false /\ Ascii.eqb c "+" = false.
Proof.
  intros H.
  assert (A : implb (is_digit c)
                (negb (is_space c) && negb (Ascii.eqb c "-") && negb (Ascii.eqb c "+"))
              = true).
  { revert c H. intros c _. revert c. apply all_code_units. vm_compute. reflexivity. }
  rewrite H in A. simpl in A.
  destruct (is_space c), (Ascii.eqb c "-"), (Ascii.eqb c "+"); auto; discriminate.
Qed.

Lemma parseInt_digits s :
  parse_digits s <> None -> parseInt s = parse_digits s.
Proof.
  unfold parseInt, parse_digits. destruct s as [|c s]; [reflexivity|].
  destruct (is_digit c) eqn:Ec; [|contradiction]. intros _.
  destruct (digit_plain c Ec) as (Hs & Hm & Hp).
  cbn [trimStart]. rewrite Hs.
  destruct c as [b0 b1 b2 b3 b4 b5 b6 b7].
  destruct b0, b1, b2, b3, b4, b5, b6, b7; try discriminate; rewrite ?Ec; reflexivity.
Qed.

(** [parseInt] reads back what [String(v)] wrote. *)
Lemma parseInt_Z_to_string z : parseInt (Z_to_string z) = Some z.
Proof.
  unfold Z_to_string. destruct z as [|p|p]; cbn [Z.to_int NilZero.string_of_int].
  - reflexivity.
  - rewrite parseInt_digits; rewrite parse_digits_pos; [reflexivity | discriminate].
  - unfold parseInt. cbn [trimStart]. change (is_space "-") with false. cbv iota.
    rewrite parse_digits_pos. reflexivity.
Qed.

(** ** Font size: range, consistency and persistence *)

Lemma Math_round_Z z : Math_round (inject_Z z) = z.
Proof.
  unfold Math_round, Qfloor, Qplus, inject_Z. cbn [Qnum Qden Pos.mul].
  symmetry. apply Z.div_unique with (r := 1%Z); lia.
Qed.

Lemma setFont_fontSize x st :
  fontSize (setFont x st)
  = Z.max (font_lo (consoleFont st)) (Z.min (font_hi (consoleFont st)) (Math_round x)).
Proof.
  unfold setFont, with_logConsole, has_logConsole, font_lo, font_hi.
  destruct (consoleFont st); simpl;
    destruct (logConsole (el st)); simpl;
    destruct (storageWritable st); reflexivity.
Qed.

Lemma setFont_places x st :
  let v := fontSize (setFont x st) in
  font_shown (setFont x st) /\
  (has_logConsole st = true -> rootFontVar (setFont x st) = px v) /\
  option_map inp_value (consoleFont (setFont x st))
  = option_map (fun _ => Z_to_string v) (consoleFont st) /\
  option_map inp_min (consoleFont (setFont x st)) = option_map inp_min (consoleFont st) /\
  option_map inp_max (consoleFont (setFont x st)) = option_map inp_max (consoleFont st) /\
  localStorage (setFont x st)
  = (if storageWritable st
     then setItem fontKey (Z_to_string v) (localStorage st)
     else localStorage st) /\
  has_logConsole (setFont x st) = has_logConsole st.
Proof.
  unfold setFont, with_logConsole, has_logConsole, font_shown.
  destruct st as [[lc ti bi sb] fs ml es on ra mr us au sto lb mb rt af ls sw cf rv].
  destruct cf, lc, sw; simpl; repeat split; intros; auto; try discriminate.
Qed.

(** X1.  [setFont] keeps the size within the range of the slider (2 to 24
    without one) and writes the same size to the state, the container,
    the CSS variable, the slider and, when the store accepts it, the
    store; a size within the range is taken as it is, rounded. *)
Theorem setFont_in_range (x : Q) (st : Console) :
  let v := fontSize (setFont x st) in
  let lo := font_lo (consoleFont st) in
  let hi := font_hi (consoleFont st) in
  ((lo <= hi)%Z -> (lo <= v <= hi)%Z) /\
  ((lo <= Math_round x <= hi)%Z -> v = Math_round x) /\
  font_shown (setFont x st) /\
  (has_logConsole st = true -> rootFontVar (setFont x st) = px v) /\
  option_map inp_value (consoleFont (setFont x st))
  = option_map (fun _ => Z_to_string v) (consoleFont st) /\
  (storageWritable st = true ->
   getItem fontKey (localStorage (setFont x st)) = Some (Z_to_string v)) /\
  (storageWritable st = false -> localStorage (setFont x st) = localStorage st).
Proof.
  intros v lo hi.
  destruct (setFont_places x st) as (H1 & H2 & H3 & _ & _ & H4 & _).
  fold v in H2, H3, H4.
  assert (Hv : v = Z.max lo (Z.min hi (Math_round x))) by apply setFont_fontSize.
  repeat split; try assumption; try lia.
  - intros Hw. rewrite H4, Hw. apply getItem_setItem.
  - intros Hw. rewrite H4, Hw. reflexivity.
Qed.

(** X2.  The size stored by [setFont] is the one the next page load
    restores: [init] reads it back, clamps it to the same range and shows
    it, and the slider set up by the page shows it too. *)
Theorem font_survives_reload (x : Q) (st : Console) (container : LogElement)
        (toggleEl : option string) (mobile writable : bool)
        (slider : option FontInput) :
  storageWritable st = true ->
  font_lo slider = font_lo (consoleFont st) ->
  font_hi slider = font_hi (consoleFont st) ->
  let v := fontSize (setFont x st) in
  let fresh := initial (localStorage (setFont x st)) writable slider in
  let page := init (Some container) toggleEl mobile fresh in
  fontSize page = v /\
  option_map style_fontSize (logConsole (el page)) = Some (px v) /\
  option_map inp_value (consoleFont (setupConsoleFontSlider fresh))
  = option_map (fun _ => Z_to_string v) slider.
Proof.
  intros Hw Hlo Hhi v fresh page.
  destruct (setFont_places x st) as (_ & _ & _ & _ & _ & Hs & _).
  fold v in Hs. rewrite Hw in Hs.
  assert (Hg : getItem fontKey (localStorage fresh) = Some (Z_to_string v)).
  { unfold fresh. cbn [localStorage initial]. rewrite Hs. apply getItem_setItem. }
  assert (Hv : v = Z.max (font_lo slider) (Z.min (font_hi slider) (Math_round x))).
  { unfold v. rewrite setFont_fontSize, Hlo, Hhi. reflexivity. }
  assert (Hp : page = addFloatingUI
                 (setFont (inject_Z v)
                    (let st0 := set_el (set_toggleImg toggleEl
                                  (el (set_el (set_logConsole (Some container) (el fresh)) fresh)))
                                  (set_el (set_logConsole (Some container) (el fresh)) fresh) in
                     if mobile && match Z_to_string v with "" => true | _ => false end
                     then set_fontSize 11 st0 else st0))).
  { unfold page, init. cbn [has_logConsole el set_el set_logConsole set_toggleImg logConsole negb].
    cbn [localStorage set_el]. rewrite Hg, parseInt_Z_to_string. reflexivity. }
  split; [|split].
  - rewrite Hp. unfold addFloatingUI.
    match goal with
    | |- fontSize (if ?b then ?s else _) = _ =>
        assert (E : forall s', fontSize (if negb (has_logConsole s') then s'
                     else set_el (set_bufferIndicator
                            (Some {| ind_display := "none"; ind_textContent := "" |})
                            (el (set_el (set_scrollBtn (Some "none") (el s')) s')))
                          (set_el (set_scrollBtn (Some "none") (el s')) s')) = fontSize s')
          by (intros s'; destruct (negb (has_logConsole s')); reflexivity)
    end.
    rewrite E, setFont_fontSize, Math_round_Z.
    destruct (mobile && _); cbn [consoleFont set_fontSize set_el fresh initial]; lia.
  - rewrite Hp. unfold addFloatingUI.
    match goal with
    | |- context [setFont ?y ?s] =>
        destruct (setFont_places y s) as (F1 & _ & _ & _ & _ & _ & F2);
        pose proof (setFont_fontSize y s) as F3;
        generalize dependent (setFont y s)
    end.
    intros s1 F1 F2 F3.
    assert (L : has_logConsole s1 = true).
    { rewrite F2. destruct (mobile && _); reflexivity. }
    rewrite L. cbn [negb]. unfold font_shown, has_logConsole in *.
    cbn [el set_el logConsole set_bufferIndicator set_scrollBtn].
    destruct (logConsole (el s1)); [|discriminate].
    cbn [option_map]. rewrite F1, F3, Math_round_Z.
    f_equal. f_equal.
    destruct (mobile && _); cbn [consoleFont set_fontSize set_el fresh initial]; lia.
  - unfold setupConsoleFontSlider. cbn [consoleFont fresh initial].
    destruct slider as [i|]; [|reflexivity].
    change "Console.fontPx" with fontKey.
    rewrite Hg, parseInt_Z_to_string. reflexivity.
Qed.

Lemma font_survives_reload_witness :
  let st := init (Some empty_log) None false (initial [] true (Some page_slider)) in
  let fresh := initial (localStorage (setFont (35 # 2) st)) true (Some page_slider) in
  fontSize (init (Some empty_log) None true fresh) = 18%Z /\
  option_map inp_value (consoleFont (setupConsoleFontSlider fresh)) = Some "18".
Proof.
  intros st fresh.
  destruct (font_survives_reload (35 # 2) st empty_log None true true
              (Some page_slider)) as (H1 & _ & H2).
  - vm_compute. reflexivity.
  - vm_compute. reflexivity.
  - vm_compute. reflexivity.
  - split; [exact H1 | exact H2].
Defined.

(** ** The size shown is the size of the state *)

Lemma look_with_logConsole f st :
  (forall lc, style_fontSize (f lc) = style_fontSize lc) ->
  look (with_logConsole f st) = look st.
Proof.
  intros H. unfold look, with_logConsole.
  destruct (logConsole (el st)) eqn:E; simpl; rewrite ?E; simpl; rewrite ?H; reflexivity.
Qed.

Lemma look_updateBufferIndicator st : look (updateBufferIndicator st) = look st.
Proof. unfold updateBufferIndicator, look. destruct (bufferIndicator (el st)); reflexivity. Qed.

Lemma look_scrollToBottom st : look (scrollToBottom st) = look st.
Proof.
  unfold scrollToBottom.
  destruct (negb (isUserScrolling st) && autoScroll st); [|reflexivity].
  apply look_with_logConsole. reflexivity.
Qed.

Lemma look_append_line s st : look (append_line s st) = look st.
Proof. apply look_with_logConsole. reflexivity. Qed.

Lemma look_cap_lines st : look (cap_lines st) = look st.
Proof.
  unfold cap_lines. destruct (maxLines st <? _); [|reflexivity].
  apply look_with_logConsole. reflexivity.
Qed.

Lemma look_clearLogs st : look (clearLogs st) = look st.
Proof. apply look_with_logConsole. reflexivity. Qed.

Lemma look_flush_lines buf : forall st, look (fold_left flush_line buf st) = look st.
Proof.
  induction buf as [|l buf IH]; intros st; simpl; [reflexivity|].
  rewrite IH. unfold flush_line.
  destruct (String.eqb (trim l) EmptyString); [reflexivity | apply look_append_line].
Qed.

Lemma look_flushBuffer st : look (flushBuffer st) = look st.
Proof.
  unfold flushBuffer.
  destruct ((List.length (logBuffer st) =? 0) || negb (has_logConsole st));
    [reflexivity|].
  rewrite look_updateBufferIndicator, look_scrollToBottom, look_flush_lines.
  reflexivity.
Qed.

Lemma look_appendLogs raw st : look (appendLogs raw st) = look st.
Proof.
  unfold appendLogs.
  destruct (String.eqb (trim raw) EmptyString || negb (has_logConsole st));
    [reflexivity|].
  destruct (isUserScrolling st || negb (autoScroll st)).
  - rewrite look_updateBufferIndicator.
    destruct (maxBufferSize _ <? _); reflexivity.
  - rewrite look_cap_lines.
    match goal with
    | |- context [if ?b then _ else _] => destruct b
    end; rewrite ?look_scrollToBottom; apply look_append_line.
Qed.

Lemma look_set_btn_display d st : look (set_btn_display d st) = look st.
Proof. unfold set_btn_display, look. destruct (scrollBtn (el st)); reflexivity. Qed.

Lemma look_set_toggle_src src st : look (set_toggle_src src st) = look st.
Proof. unfold set_toggle_src, look. destruct (toggleImg (el st)); reflexivity. Qed.

Lemma look_stopSSE st : look (stopSSE st) = look st.
Proof. unfold stopSSE, look. destruct (eventSource st); reflexivity. Qed.

Lemma look_reconnect st : look (reconnect st) = look st.
Proof.
  unfold reconnect. destruct (reconnectAttempts st <? maxReconnect st); [reflexivity|].
  rewrite look_set_toggle_src. reflexivity.
Qed.

Lemma look_start created st : look (start created st) = look st.
Proof.
  unfold start. destruct created; cbn [isConsoleOn set_isConsoleOn].
  - change (look (stopSSE st) = look st). apply look_stopSSE.
  - rewrite look_reconnect. apply look_stopSSE.
Qed.

Lemma look_stop st : look (stop st) = look st.
Proof. unfold stop. rewrite look_updateBufferIndicator. apply look_stopSSE. Qed.

Lemma look_forceBottom st : look (forceBottom st) = look st.
Proof. unfold forceBottom. destruct (negb (has_logConsole st)); reflexivity. Qed.

Lemma font_shown_look st st' : look st' = look st -> font_shown st -> font_shown st'.
Proof.
  unfold look, font_shown. intros H. apply pair_equal_spec in H. destruct H as (H1 & H2).
  destruct (logConsole (el st)), (logConsole (el st')); try discriminate; auto.
  simpl in H1. inversion H1. congruence.
Qed.

Lemma font_shown_adjustFont d st : font_shown (adjustFont d st).
Proof.
  unfold adjustFont, font_shown, with_logConsole.
  cbn [el set_fontSize fontSize].
  destruct (logConsole (el st)) eqn:E; simpl; rewrite ?E; auto.
Qed.

Lemma look_step e st :
  match e with SetFont _ | AdjustFont _ => True | _ => look (step e st) = look st end.
Proof.
  destruct e; cbn [step]; try exact I.
  - apply look_start.
  - apply look_stop.
  - unfold toggle. cbn [isConsoleOn set_isConsoleOn].
    destruct (negb (isConsoleOn st)); rewrite look_set_toggle_src.
    + rewrite look_start. reflexivity.
    + rewrite look_stop. reflexivity.
  - apply look_forceBottom.
  - destruct (eventSource st) as [[]|]; reflexivity.
  - destruct (eventSource st) as [[]|]; try reflexivity. apply look_appendLogs.
  - destruct (eventSource st) as [rs|]; [|reflexivity].
    unfold onerror. cbn [eventSource set_eventSource].
    destruct closed; [|reflexivity].
    match goal with
    | |- context [if ?b then _ else _] => destruct b
    end; rewrite ?look_reconnect; reflexivity.
  - destruct (reconnectTimers st); [reflexivity|].
    unfold reconnect_timer. cbv zeta.
    match goal with
    | |- look (set_reconnectAttempts ?n ?s) = _ => change (look s = look st)
    end.
    rewrite look_start. reflexivity.
  - destruct (animationFrames st); [reflexivity|].
    rewrite look_scrollToBottom. reflexivity.
  - destruct (has_logConsole st); [|reflexivity].
    unfold scroll_listener, scroll_btn_listener. cbv zeta.
    match goal with
    | |- context [set_btn_display ?d st] =>
        rewrite <- (look_set_btn_display d st);
        generalize (set_btn_display d st)
    end.
    intros st1.
    match goal with
    | |- look (set_scrollTimeout true ?s) = _ => change (look s = look st1)
    end.
    destruct (isAtBottom g 50); [|reflexivity].
    match goal with
    | |- context [if ?b then flushBuffer _ else _] => destruct b
    end; rewrite ?look_flushBuffer; reflexivity.
  - destruct (has_logConsole st); reflexivity.
  - destruct (scrollTimeout st); [|reflexivity].
    unfold scroll_timer. destruct (isAtBottom g 50); [|reflexivity].
    rewrite look_flushBuffer. reflexivity.
  - destruct (scrollBtn (el st)); [|reflexivity].
    unfold click_scrollBtn.
    rewrite look_set_btn_display, look_scrollToBottom, look_flushBuffer. reflexivity.
  - apply look_stopSSE.
  - unfold autostart_reply. destruct (String.eqb t "True"); [|reflexivity].
    rewrite look_start. reflexivity.
Qed.

Lemma font_shown_step e st : font_shown st -> font_shown (step e st).
Proof.
  intros H. pose proof (look_step e st) as L.
  destruct e; try (apply (font_shown_look st); [exact L | exact H]).
  - apply setFont_places.
  - apply font_shown_adjustFont.
Qed.

Lemma font_shown_act a st : font_shown st -> font_shown (act a st).
Proof.
  intros H. destruct a as [e| |v]; cbn [act].
  - apply font_shown_step. exact H.
  - apply (font_shown_look st); [apply look_clearLogs | exact H].
  - unfold apply. cbv zeta.
    apply (font_shown_look (setFont (inject_Z v) st));
      [apply look_forceBottom | apply setFont_places].
Qed.

Lemma font_shown_init container toggleEl mobile st :
  font_shown (init container toggleEl mobile st).
Proof.
  unfold init. cbv zeta.
  set (st1 := set_el (set_toggleImg toggleEl _) _).
  destruct (has_logConsole st1) eqn:L; cbn [negb].
  2: { unfold font_shown. unfold has_logConsole in L.
       destruct (logConsole (el st1)); [discriminate | exact I]. }
  match goal with
  | |- font_shown (addFloatingUI ?s) =>
      assert (H : font_shown s); [|generalize dependent s]
  end.
  - destruct (parseInt _); [apply setFont_places|].
    match goal with
    | |- font_shown (with_logConsole _ ?s) => generalize s
    end.
    intros s. unfold font_shown, with_logConsole.
    destruct (logConsole (el s)) eqn:E; simpl; rewrite ?E; auto.
  - intros s H. apply (font_shown_look s); [|exact H].
    unfold addFloatingUI, look. destruct (negb (has_logConsole s)); reflexivity.
Qed.

(** X3.  Whatever happens on the page, when the size held in the state is
    one the style takes, the font size of the log container is that size:
    [init], [setFont] and [adjustFont] write both, and nothing else writes
    either. *)
Theorem font_shown_always (container : option LogElement) (toggleEl : option string)
        (mobile : bool) (storage : list (string * string)) (writable : bool)
        (slider : option FontInput) (acts : list action) :
  let page := play acts (init container toggleEl mobile
                           (initial storage writable slider)) in
  css_size (fontSize page) -> font_shown page.
Proof.
  intros page _. unfold page, play.
  generalize (font_shown_init container toggleEl mobile
                (initial storage writable slider)).
  generalize (init container toggleEl mobile (initial storage writable slider)).
  induction acts as [|a acts IH]; intros st H; simpl; [exact H|].
  apply IH, font_shown_act, H.
Qed.

Lemma font_shown_always_witness :
  font_shown (play [Callback (AdjustFont (-20)); Callback (AdjustFont 23)]
                   (init (Some empty_log) None false (initial [] true None))).
Proof.
  apply (font_shown_always (Some empty_log) None false [] true None
           [Callback (AdjustFont (-20)); Callback (AdjustFont 23)]).
  unfold css_size. vm_compute. split; [discriminate | reflexivity].
Defined.

(** ** The buffer indicator *)

Lemma indicator_ok_gauge st st' : gauge st' = gauge st -> indicator_ok st -> indicator_ok st'.
Proof.
  unfold gauge, indicator_ok. intros H.
  apply pair_equal_spec in H. destruct H as (-> & ->). auto.
Qed.

Lemma indicator_ok_update st : indicator_ok (updateBufferIndicator st).
Proof.
  unfold updateBufferIndicator, indicator_ok.
  destruct (bufferIndicator (el st)) as [i|] eqn:E; simpl; [|rewrite E; exact I].
  destruct (logBuffer st); reflexivity.
Qed.

Lemma gauge_with_logConsole f st : gauge (with_logConsole f st) = gauge st.
Proof. unfold gauge, with_logConsole. destruct (logConsole (el st)); reflexivity. Qed.

Lemma gauge_scrollToBottom st : gauge (scrollToBottom st) = gauge st.
Proof.
  unfold scrollToBottom.
  destruct (negb (isUserScrolling st) && autoScroll st); [|reflexivity].
  apply gauge_with_logConsole.
Qed.

Lemma gauge_cap_lines st : gauge (cap_lines st) = gauge st.
Proof.
  unfold cap_lines. destruct (maxLines st <? _); [|reflexivity].
  apply gauge_with_logConsole.
Qed.

Lemma gauge_set_btn_display d st : gauge (set_btn_display d st) = gauge st.
Proof. unfold set_btn_display, gauge. destruct (scrollBtn (el st)); reflexivity. Qed.

Lemma gauge_set_toggle_src src st : gauge (set_toggle_src src st) = gauge st.
Proof. unfold set_toggle_src, gauge. destruct (toggleImg (el st)); reflexivity. Qed.

Lemma gauge_stopSSE st : gauge (stopSSE st) = gauge st.
Proof. unfold stopSSE, gauge. destruct (eventSource st); reflexivity. Qed.

Lemma gauge_reconnect st : gauge (reconnect st) = gauge st.
Proof.
  unfold reconnect. destruct (reconnectAttempts st <? maxReconnect st); [reflexivity|].
  rewrite gauge_set_toggle_src. reflexivity.
Qed.

Lemma gauge_start created st : gauge (start created st) = gauge st.
Proof.
  unfold start. destruct created; cbn [isConsoleOn set_isConsoleOn].
  - change (gauge (stopSSE st) = gauge st). apply gauge_stopSSE.
  - rewrite gauge_reconnect. apply gauge_stopSSE.
Qed.

Lemma gauge_forceBottom st : gauge (forceBottom st) = gauge st.
Proof. unfold forceBottom. destruct (negb (has_logConsole st)); reflexivity. Qed.

Lemma gauge_setFont x st : gauge (setFont x st) = gauge st.
Proof.
  unfold setFont, with_logConsole, has_logConsole, gauge.
  destruct (consoleFont st); simpl;
    destruct (logConsole (el st)); simpl;
    destruct (storageWritable st); reflexivity.
Qed.

Lemma gauge_adjustFont d st : gauge (adjustFont d st) = gauge st.
Proof. unfold adjustFont. rewrite gauge_with_logConsole. reflexivity. Qed.

Lemma indicator_ok_stop st : indicator_ok (stop st).
Proof. apply indicator_ok_update. Qed.

Lemma indicator_ok_flushBuffer st : indicator_ok st -> indicator_ok (flushBuffer st).
Proof.
  intros H. unfold flushBuffer.
  destruct ((List.length (logBuffer st) =? 0) || negb (has_logConsole st));
    [exact H | apply indicator_ok_update].
Qed.

Lemma indicator_ok_appendLogs raw st : indicator_ok st -> indicator_ok (appendLogs raw st).
Proof.
  intros H. unfold appendLogs.
  destruct (String.eqb (trim raw) EmptyString || negb (has_logConsole st)); [exact H|].
  destruct (isUserScrolling st || negb (autoScroll st)); [apply indicator_ok_update|].
  apply (indicator_ok_gauge st); [|exact H].
  rewrite gauge_cap_lines.
  match goal with
  | |- context [if ?b then _ else _] => destruct b
  end; rewrite ?gauge_scrollToBottom; apply gauge_with_logConsole.
Qed.

Lemma indicator_ok_step e st : indicator_ok st -> indicator_ok (step e st).
Proof.
  intros H.
  assert (same : forall st', gauge st' = gauge st -> indicator_ok st')
    by (intros st' E; apply (indicator_ok_gauge st); assumption).
  destruct e; cbn [step].
  - apply same, gauge_start.
  - apply indicator_ok_stop.
  - unfold toggle. cbn [isConsoleOn set_isConsoleOn].
    destruct (negb (isConsoleOn st)).
    + apply same. rewrite gauge_set_toggle_src, gauge_start. reflexivity.
    + match goal with
      | |- indicator_ok (set_toggle_src ?i ?s) =>
          apply (indicator_ok_gauge s); [apply gauge_set_toggle_src|]
      end.
      apply indicator_ok_stop.
  - apply same, gauge_setFont.
  - apply same, gauge_adjustFont.
  - apply same, gauge_forceBottom.
  - destruct (eventSource st) as [[]|]; apply same; reflexivity.
  - destruct (eventSource st) as [[]|]; try exact H.
    apply indicator_ok_appendLogs, H.
  - destruct (eventSource st) as [rs|]; [|exact H].
    apply same. unfold onerror. cbn [eventSource set_eventSource].
    destruct closed; [|reflexivity].
    match goal with
    | |- context [if ?b then _ else _] => destruct b
    end; rewrite ?gauge_reconnect; reflexivity.
  - destruct (reconnectTimers st); [exact H|].
    apply same. unfold reconnect_timer. cbv zeta.
    match goal with
    | |- gauge (set_reconnectAttempts ?n ?s) = _ => change (gauge s = gauge st)
    end.
    rewrite gauge_start. reflexivity.
  - destruct (animationFrames st); [exact H|].
    apply same. rewrite gauge_scrollToBottom. reflexivity.
  - destruct (has_logConsole st); [|exact H].
    unfold scroll_listener, scroll_btn_listener. cbv zeta.
    match goal with
    | |- context [set_btn_display ?d st] =>
        pose proof (indicator_ok_gauge st _ (gauge_set_btn_display d st) H) as H1;
        generalize dependent (set_btn_display d st)
    end.
    intros st1 H1.
    match goal with
    | |- indicator_ok (set_scrollTimeout true ?s) => change (indicator_ok s)
    end.
    destruct (isAtBottom g 50); [|exact H1].
    match goal with
    | |- context [if ?b then flushBuffer _ else _] => destruct b
    end; [apply indicator_ok_flushBuffer|]; exact H1.
  - destruct (has_logConsole st); [|exact H]. exact H.
  - destruct (scrollTimeout st); [|exact H].
    unfold scroll_timer. destruct (isAtBottom g 50); [|exact H].
    apply indicator_ok_flushBuffer. exact H.
  - destruct (scrollBtn (el st)); [|exact H].
    unfold click_scrollBtn.
    match goal with
    | |- indicator_ok (set_btn_display ?d (scrollToBottom ?s)) =>
        apply (indicator_ok_gauge s);
        [rewrite gauge_set_btn_display, gauge_scrollToBottom; reflexivity|]
    end.
    apply indicator_ok_flushBuffer. exact H.
  - apply same, gauge_stopSSE.
  - unfold autostart_reply. destruct (String.eqb t "True"); [|exact H].
    apply same. rewrite gauge_start. reflexivity.
Qed.

Lemma indicator_ok_act a st : indicator_ok st -> indicator_ok (act a st).
Proof.
  intros H. destruct a as [e| |v]; cbn [act].
  - apply indicator_ok_step, H.
  - apply (indicator_ok_gauge st); [apply gauge_with_logConsole | exact H].
  - unfold apply. cbv zeta.
    apply (indicator_ok_gauge st); [|exact H].
    rewrite gauge_forceBottom. apply gauge_setFont.
Qed.

Lemma indicator_ok_init container toggleEl mobile st :
  gauge st = ([], None) ->
  indicator_ok (init container toggleEl mobile st).
Proof.
  intros Hg. unfold init. cbv zeta.
  set (st1 := set_el (set_toggleImg toggleEl _) _).
  assert (G1 : gauge st1 = ([], None)) by exact Hg.
  destruct (has_logConsole st1) eqn:L; cbn [negb].
  2: { unfold gauge in G1. apply pair_equal_spec in G1. destruct G1 as (_ & G1).
       unfold indicator_ok. rewrite G1. exact I. }
  match goal with
  | |- indicator_ok (addFloatingUI ?s) =>
      assert (G : gauge s = ([], None)); [|generalize dependent s]
  end.
  - destruct (parseInt _).
    + rewrite gauge_setFont. destruct (mobile && _); exact G1.
    + rewrite gauge_with_logConsole. destruct (mobile && _); exact G1.
  - intros s G. unfold gauge in G. apply pair_equal_spec in G. destruct G as (G2 & G3).
    unfold addFloatingUI, indicator_ok.
    destruct (negb (has_logConsole s)); cbn [el set_el bufferIndicator set_bufferIndicator
                                              set_scrollBtn logBuffer].
    + rewrite G3. exact I.
    + rewrite G2. reflexivity.
Qed.

(** X4.  On a page set up by [init], whatever happens afterwards, the
    buffer indicator is hidden exactly when the queue is empty and
    otherwise shows the number of queued lines, "N new logs". *)
Theorem indicator_tracks_queue (container : option LogElement)
        (toggleEl : option string) (mobile : bool)
        (storage : list (string * string)) (writable : bool)
        (slider : option FontInput) (acts : list action) :
  indicator_ok (play acts (init container toggleEl mobile
                             (initial storage writable slider))).
Proof.
  unfold play.
  generalize (indicator_ok_init container toggleEl mobile
                (initial storage writable slider) eq_refl).
  generalize (init container toggleEl mobile (initial storage writable slider)).
  induction acts as [|a acts IH]; intros st H; simpl; [exact H|].
  apply IH, indicator_ok_act, H.
Qed.

(** ** A page without log container *)

Lemma with_logConsole_none f st : has_logConsole st = false -> with_logConsole f st = st.
Proof.
  unfold has_logConsole, with_logConsole.
  destruct (logConsole (el st)); [discriminate | reflexivity].
Qed.

Lemma appendLogs_none raw st : has_logConsole st = false -> appendLogs raw st = st.
Proof. intros H. unfold appendLogs. rewrite H, orb_true_r. reflexivity. Qed.

Lemma shell_set_toggle_src src st : shell (set_toggle_src src st) = shell st.
Proof. unfold set_toggle_src, shell. destruct (toggleImg (el st)); reflexivity. Qed.

Lemma shell_stopSSE st : shell (stopSSE st) = shell st.
Proof. unfold stopSSE, shell. destruct (eventSource st); reflexivity. Qed.

Lemma shell_reconnect st : shell (reconnect st) = shell st.
Proof.
  unfold reconnect. destruct (reconnectAttempts st <? maxReconnect st); [reflexivity|].
  rewrite shell_set_toggle_src. reflexivity.
Qed.

Lemma shell_start created st : shell (start created st) = shell st.
Proof.
  unfold start. destruct created; cbn [isConsoleOn set_isConsoleOn].
  - change (shell (stopSSE st) = shell st). apply shell_stopSSE.
  - rewrite shell_reconnect. apply shell_stopSSE.
Qed.

Lemma shell_setFont x st : shell (setFont x st) = shell st.
Proof.
  unfold setFont, with_logConsole, has_logConsole, shell.
  destruct st as [[lc ti bi sb] fs ml es on ra mr us au sto lb mb rt af ls sw cf rv].
  destruct cf, lc, sw; reflexivity.
Qed.

Lemma idle_shell st st' : shell st' = shell st -> idle st -> idle st'.
Proof.
  intros H. unfold idle, pinned, shell in *.
  repeat (apply pair_equal_spec in H; destruct H as [H ?]).
  congruence.
Qed.

Lemma idle_stop st : idle st -> idle (stop st).
Proof.
  intros H. apply (idle_shell st); [|exact H].
  destruct H as (L & B & I & _).
  unfold stop, updateBufferIndicator.
  cbn [el set_logBuffer set_reconnectAttempts logBuffer].
  replace (bufferIndicator (el (stopSSE st))) with (@None Indicator)
    by (unfold stopSSE; destruct (eventSource st); symmetry; exact I).
  rewrite <- (shell_stopSSE st). unfold shell. cbn.
  replace (logBuffer (stopSSE st)) with (@nil string)
    by (unfold stopSSE; destruct (eventSource st); symmetry; exact B).
  reflexivity.
Qed.

Lemma idle_step e st : idle st -> idle (step e st).
Proof.
  intros H. pose proof H as (L & B & I & S & A & T & P).
  assert (same : forall st', shell st' = shell st -> idle st')
    by (intros st' E; apply (idle_shell st); assumption).
  destruct e; cbn [step]; rewrite ?L, ?A, ?T, ?S; try exact H.
  - apply same, shell_start.
  - apply idle_stop, H.
  - unfold toggle. cbn [isConsoleOn set_isConsoleOn].
    destruct (negb (isConsoleOn st)).
    + apply same. rewrite shell_set_toggle_src, shell_start. reflexivity.
    + match goal with
      | |- idle (set_toggle_src ?i ?s) =>
          apply (idle_shell s); [apply shell_set_toggle_src|]
      end.
      apply idle_stop. exact H.
  - apply same, shell_setFont.
  - unfold adjustFont. rewrite with_logConsole_none by exact L.
    apply same. reflexivity.
  - unfold forceBottom. rewrite L. exact H.
  - destruct (eventSource st) as [[]|]; exact H.
  - destruct (eventSource st) as [[]|]; try exact H.
    unfold onmessage. rewrite appendLogs_none by exact L. exact H.
  - destruct (eventSource st) as [rs|]; [|exact H].
    apply same. unfold onerror. cbn [eventSource set_eventSource].
    destruct closed; [|reflexivity].
    match goal with
    | |- context [if ?b then _ else _] => destruct b
    end; rewrite ?shell_reconnect; reflexivity.
  - destruct (reconnectTimers st); [exact H|].
    apply same. unfold reconnect_timer. cbv zeta.
    match goal with
    | |- shell (set_reconnectAttempts ?n ?s) = _ => change (shell s = shell st)
    end.
    rewrite shell_start. reflexivity.
  - apply same, shell_stopSSE.
  - unfold autostart_reply. destruct (String.eqb t "True"); [|exact H].
    apply same. rewrite shell_start. reflexivity.
Qed.

Lemma idle_act a st : idle st -> idle (act a st).
Proof.
  intros H. destruct a as [e| |v]; cbn [act].
  - apply idle_step, H.
  - unfold clearLogs. rewrite with_logConsole_none by apply H. exact H.
  - unfold apply. cbv zeta.
    assert (H1 : idle (setFont (inject_Z v) st)) by apply (idle_step (SetFont _) st H).
    unfold forceBottom. destruct H1 as (L & ?). rewrite L. cbn [negb].
    apply (idle_step (SetFont _) st H).
Qed.

(** X5.  When [init] does not find the log container the console stays
    inactive: whatever is called or received afterwards, nothing is
    rendered, no line is queued, no button or indicator is created, no
    scroll is scheduled and the view stays pinned. *)
Theorem inactive_without_container (toggleEl : option string) (mobile : bool)
        (storage : list (string * string)) (writable : bool)
        (slider : option FontInput) (acts : list action) :
  idle (play acts (init None toggleEl mobile (initial storage writable slider))).
Proof.
  unfold play.
  assert (H : idle (init None toggleEl mobile (initial storage writable slider)))
    by (repeat split).
  revert H.
  generalize (init None toggleEl mobile (initial storage writable slider)).
  induction acts as [|a acts IH]; intros st H; simpl; [exact H|].
  apply IH, idle_act, H.
Qed.

(** ** Blank payloads *)

Lemma trimStart_blank s : all is_space s = true -> trimStart s = "".
Proof.
  induction s as [|c s IH]; simpl; [reflexivity|]. intros H.
  apply andb_true_iff in H. destruct H as (-> & H). auto.
Qed.

Lemma trimEnd_nonblank c s : is_space c = false -> trimEnd (String c s) <> "".
Proof. intros H. destruct (trimEnd_head c s H) as (t & ->). discriminate. Qed.

Lemma trim_blank s : trim s = "" <-> all is_space s = true.
Proof.
  unfold trim. split.
  - induction s as [|c s IH]; simpl; [reflexivity|].
    destruct (is_space c) eqn:E; [exact IH|].
    intros H. exfalso. revert H. apply trimEnd_nonblank. exact E.
  - intros H. rewrite trimStart_blank by exact H. reflexivity.
Qed.

(** X6.  A pushed payload that consists of white space only is ignored:
    the handler returns before it renders or queues anything, whatever the
    state of the console. *)
Theorem blank_payload_ignored (raw : string) (st : Console) :
  all is_space raw = true ->
  step (SseMessage raw) st = st /\ pushed [SseMessage raw] = [].
Proof.
  intros H. apply trim_blank in H. split.
  - cbn [step]. destruct (eventSource st) as [[]|]; try reflexivity.
    unfold onmessage, appendLogs. rewrite H. reflexivity.
  - cbn [pushed]. rewrite H. reflexivity.
Qed.

Lemma blank_payload_ignored_witness :
  step (SseMessage "  ") (run [Start true; SseOpen] ready) = run [Start true; SseOpen] ready.
Proof.
  apply (blank_payload_ignored "  " (run [Start true; SseOpen] ready)).
  reflexivity.
Defined.

(** ** Flushing the queue *)

Lemma decorated_nil : decorated [] = "".
Proof. reflexivity. Qed.

Lemma html_flush_kept buf : forall st,
  has_logConsole st = true ->
  html (fold_left flush_line buf st) = html st ++ decorated (kept buf).
Proof.
  induction buf as [|l buf IH]; intros st Hlc; cbn [fold_left].
  - change (decorated (kept [])) with "". rewrite sapp_nil_r. reflexivity.
  - unfold kept. cbn [map filter]. fold (kept buf).
    unfold flush_line at 2.
    destruct (String.eqb (trim l) "") eqn:E; cbn [negb].
    + apply IH, Hlc.
    + rewrite IH.
      * rewrite html_append_line by exact Hlc.
        rewrite decorated_cons, !sapp_assoc. reflexivity.
      * destruct (append_line_frame (trim l) st) as (_ & _ & _ & _ & _ & ->). exact Hlc.
Qed.

Lemma kept_clean buf : Forall clean_line buf -> kept buf = buf.
Proof.
  induction 1 as [|l buf (Ht & Hne) _ IH]; [reflexivity|].
  unfold kept in *. cbn [map filter]. rewrite Ht, IH.
  apply String.eqb_neq in Hne. rewrite Hne. reflexivity.
Qed.

(** What [flushBuffer] does when there is a container. *)
Lemma view_flush st :
  has_logConsole st = true ->
  view (flushBuffer st)
  = (html st ++ decorated (kept (logBuffer st)), [],
     isUserScrolling st, autoScroll st, true).
Proof.
  intros Hlc. unfold flushBuffer. rewrite Hlc. cbn [negb]. rewrite orb_false_r.
  destruct (List.length (logBuffer st) =? 0) eqn:E.
  - apply Nat.eqb_eq in E. destruct (logBuffer st) eqn:B; [|discriminate].
    unfold view. rewrite B, Hlc.
    change (decorated (kept [])) with "". rewrite sapp_nil_r. reflexivity.
  - rewrite view_updateBufferIndicator, view_scrollToBottom.
    set (st0 := set_logBuffer [] st).
    destruct (flush_lines_frame (logBuffer st) st0) as (B1 & _ & _ & U1 & A1 & L1).
    unfold view. rewrite B1, U1, A1, L1.
    rewrite html_flush_kept by exact Hlc.
    change (has_logConsole st0) with (has_logConsole st). rewrite Hlc. reflexivity.
Qed.

(** ** Verbatim lines *)

Lemma all_trimStart p s : all p s = true -> all p (trimStart s) = true.
Proof.
  induction s as [|c s IH]; [auto|]. cbn [trimStart all]. intros H.
  destruct (is_space c); [|exact H].
  apply IH. apply andb_true_iff in H. tauto.
Qed.

Lemma all_trimEnd p s : all p s = true -> all p (trimEnd s) = true.
Proof.
  induction s as [|c s IH]; [auto|]. cbn [trimEnd all]. intros H.
  apply andb_true_iff in H. destruct H as (Hc & Hs). specialize (IH Hs).
  destruct (trimEnd s) as [|d t].
  - destruct (is_space c); [reflexivity|]. cbn [all]. rewrite Hc. reflexivity.
  - cbn [all] in *. rewrite Hc. exact IH.
Qed.

Lemma verbatim_trim s : verbatim s = true -> verbatim (trim s) = true.
Proof. intros H. apply all_trimEnd, all_trimStart, H. Qed.

Lemma verbatim_kept buf :
  forallb verbatim buf = true -> forallb verbatim (kept buf) = true.
Proof.
  induction buf as [|l buf IH]; [auto|]. cbn [forallb]. intros H.
  apply andb_true_iff in H. destruct H as (Hl & Hb).
  unfold kept. cbn [map filter]. fold (kept buf).
  destruct (negb (String.eqb (trim l) "")); [|apply IH, Hb].
  cbn [forallb]. rewrite (verbatim_trim l Hl). apply IH, Hb.
Qed.

Lemma log_of_app st shown more :
  html st = decorated shown ++ decorated more ->
  forallb verbatim shown = true -> forallb verbatim more = true ->
  log_of st (shown ++ more).
Proof.
  intros H H1 H2. split.
  - rewrite decorated_app. exact H.
  - rewrite forallb_app, H1, H2. reflexivity.
Qed.

Lemma decorated_snoc shown l :
  decorated (shown ++ [l]) = decorated shown ++ processLogLine l ++ br.
Proof.
  rewrite decorated_app. f_equal. unfold decorated.
  cbn [map concat_str fold_right]. apply sapp_nil_r.
Qed.

(** X7.  Every way back to the bottom renders the whole queue: a click
    on the scroll-to-bottom button, the debounce timer finding the view at
    the bottom, and a scroll event at the bottom after the user had
    scrolled.  Where the log shows verbatim lines and the queue holds
    verbatim lines, the log then shows, after the lines it showed, the
    queued lines in queue order, trimmed and without the blank ones; the
    queue is left empty and the view pinned.  No line cap is applied. *)
Theorem return_to_bottom_flushes (e : event) (st : Console) (shown : list string) :
  has_logConsole st = true ->
  returns_to_bottom e st = true ->
  log_of st shown ->
  forallb verbatim (logBuffer st) = true ->
  log_of (step e st) (shown ++ kept (logBuffer st)) /\
  logBuffer (step e st) = [] /\
  pinned (step e st) = true.
Proof.
  intros Hlc Hr (Hshown & Hv) Hq.
  assert (V : view (step e st)
              = (html st ++ decorated (kept (logBuffer st)), [], false, true, true)).
  { destruct e; try discriminate; cbn [step returns_to_bottom] in *.
    - (* scroll *)
      apply andb_true_iff in Hr. destruct Hr as (Hg & Hu).
      rewrite Hlc. unfold scroll_listener, scroll_btn_listener. rewrite Hg. cbv zeta.
      match goal with
      | |- context [set_btn_display ?d st] =>
          pose proof (view_set_btn_display d st) as V1;
          generalize dependent (set_btn_display d st)
      end.
      intros st1 V1. view_eq V1.
      change (isUserScrolling (set_scrollTimeout false st1)) with (isUserScrolling st1).
      rewrite V3, Hu.
      match goal with
      | |- view (set_scrollTimeout true (flushBuffer ?s)) = _ =>
          change (view (flushBuffer s) = (html st ++ decorated (kept (logBuffer st)),
                                          [], false, true, true));
          rewrite (view_flush s) by (rewrite <- Hlc, <- V0; reflexivity)
      end.
      change (html (set_isUserScrolling false _)) with (html st1).
      change (logBuffer (set_isUserScrolling false _)) with (logBuffer st1).
      rewrite V1, V4. reflexivity.
    - (* the debounce timer *)
      apply andb_true_iff in Hr. destruct Hr as (-> & Hg).
      unfold scroll_timer. rewrite Hg.
      rewrite view_flush by exact Hlc. reflexivity.
    - (* the button *)
      destruct (scrollBtn (el st)); [|discriminate].
      unfold click_scrollBtn.
      rewrite view_set_btn_display, view_scrollToBottom.
      rewrite view_flush by exact Hlc. reflexivity. }
  view_eq V. unfold pinned. rewrite V2, V1. split; [|auto].
  apply log_of_app; [rewrite V, Hshown; reflexivity | exact Hv|].
  apply verbatim_kept, Hq.
Qed.

Lemma return_to_bottom_flushes_witness :
  let st := run [Start true; SseOpen; SseMessage "z"; Wheel;
                 SseMessage " a "; SseMessage "b"] ready in
  html (step (ScrollTimer at_bottom) st) = "z<br>a<br>b<br>" /\
  logBuffer (step (ScrollTimer at_bottom) st) = [].
Proof.
  intros st.
  destruct (return_to_bottom_flushes (ScrollTimer at_bottom) st ["z"])
    as ((H1 & _) & H2 & _).
  - vm_compute. reflexivity.
  - vm_compute. reflexivity.
  - split; vm_compute; reflexivity.
  - vm_compute. reflexivity.
  - split; [exact H1 | exact H2].
Defined.

(** ** Scrolling *)

Lemma knobs_with_logConsole f st : knobs (with_logConsole f st) = knobs st.
Proof. unfold knobs, with_logConsole. destruct (logConsole (el st)); reflexivity. Qed.

Lemma knobs_updateBufferIndicator st : knobs (updateBufferIndicator st) = knobs st.
Proof. unfold knobs, updateBufferIndicator. destruct (bufferIndicator (el st)); reflexivity. Qed.

Lemma knobs_scrollToBottom st : knobs (scrollToBottom st) = knobs st.
Proof.
  unfold scrollToBottom.
  destruct (negb (isUserScrolling st) && autoScroll st); [|reflexivity].
  apply knobs_with_logConsole.
Qed.

Lemma knobs_flush_lines buf : forall st, knobs (fold_left flush_line buf st) = knobs st.
Proof.
  induction buf as [|l buf IH]; intros st; simpl; [reflexivity|].
  rewrite IH. unfold flush_line.
  destruct (String.eqb (trim l) EmptyString); [reflexivity|].
  apply knobs_with_logConsole.
Qed.

Lemma knobs_flushBuffer st : knobs (flushBuffer st) = knobs st.
Proof.
  unfold flushBuffer.
  destruct ((List.length (logBuffer st) =? 0) || negb (has_logConsole st));
    [reflexivity|].
  rewrite knobs_updateBufferIndicator, knobs_scrollToBottom, knobs_flush_lines.
  reflexivity.
Qed.

Lemma flushBuffer_flags st :
  isUserScrolling (flushBuffer st) = isUserScrolling st /\
  autoScroll (flushBuffer st) = autoScroll st.
Proof.
  unfold flushBuffer.
  destruct ((List.length (logBuffer st) =? 0) || negb (has_logConsole st)); [auto|].
  match goal with
  | |- context [updateBufferIndicator ?s] =>
      pose proof (view_updateBufferIndicator s) as V; view_eq V;
      generalize dependent (updateBufferIndicator s)
  end.
  intros s3 _ _ -> -> _.
  match goal with
  | |- context [scrollToBottom ?s] =>
      pose proof (view_scrollToBottom s) as V; view_eq V;
      generalize dependent (scrollToBottom s)
  end.
  intros s2 _ _ -> -> _.
  destruct (flush_lines_frame (logBuffer st) (set_logBuffer [] st))
    as (_ & _ & _ & -> & -> & _).
  auto.
Qed.

(** X8.  A scroll event classifies the view by the position it finds:
    within 50 px of the bottom the view is pinned and the button hidden,
    otherwise the view is scrolled, the button shown, and log and queue
    are left as they are; in both cases the debounce timer is armed. *)
Theorem scroll_classifies (g : Geometry) (st : Console) :
  has_logConsole st = true ->
  let st' := step (Scroll g) st in
  pinned st' = isAtBottom g 50 /\
  isUserScrolling st' = negb (isAtBottom g 50) /\
  autoScroll st' = isAtBottom g 50 /\
  scrollTimeout st' = true /\
  scrollBtn (el st')
  = option_map (fun _ => if isAtBottom g 50 then "none" else "block")
               (scrollBtn (el st)) /\
  (isAtBottom g 50 = false -> html st' = html st /\ logBuffer st' = logBuffer st).
Proof.
  intros Hlc st'. unfold st'. cbn [step]. rewrite Hlc.
  unfold scroll_listener, scroll_btn_listener. cbv zeta.
  assert (Hb : scrollBtn (el (set_btn_display
                                (if isAtBottom g 50 then "none" else "block") st))
               = option_map (fun _ => if isAtBottom g 50 then "none" else "block")
                            (scrollBtn (el st))).
  { unfold set_btn_display. destruct (scrollBtn (el st)) eqn:E; [reflexivity|].
    rewrite E. reflexivity. }
  match goal with
  | |- context [set_btn_display ?d st] =>
      pose proof (view_set_btn_display d st) as V1;
      generalize dependent (set_btn_display d st)
  end.
  intros st1 Hb V1. view_eq V1.
  assert (L1 : has_logConsole st1 = true) by congruence.
  set (s0 := set_isUserScrolling false
               (set_autoScroll true
                  (set_isUserScrolling true (set_scrollTimeout false st1)))).
  destruct (flushBuffer_flags s0) as (F1 & F2).
  pose proof (knobs_flushBuffer s0) as K.
  unfold knobs in K. apply pair_equal_spec in K. destruct K as (K1 & _).
  change (isUserScrolling s0) with false in F1.
  change (autoScroll s0) with true in F2.
  change (scrollBtn (el s0)) with (scrollBtn (el st1)) in K1.
  assert (Hs0 : isUserScrolling s0 = false /\ autoScroll s0 = true /\
                scrollBtn (el s0) = scrollBtn (el st1)) by (repeat split).
  destruct Hs0 as (G1 & G2 & G3).
  clearbody s0.
  generalize dependent (flushBuffer s0). intros s1 F1 F2 K1.
  unfold pinned.
  destruct (isAtBottom g 50) eqn:Hg.
  - destruct (isUserScrolling (set_scrollTimeout false st1)).
    + change (isUserScrolling (set_scrollTimeout true s1)) with (isUserScrolling s1).
      change (autoScroll (set_scrollTimeout true s1)) with (autoScroll s1).
      change (scrollBtn (el (set_scrollTimeout true s1))) with (scrollBtn (el s1)).
      change (scrollTimeout (set_scrollTimeout true s1)) with true.
      rewrite F1, F2, K1, Hb. repeat split; auto; discriminate.
    + change (isUserScrolling (set_scrollTimeout true s0)) with (isUserScrolling s0).
      change (autoScroll (set_scrollTimeout true s0)) with (autoScroll s0).
      change (scrollBtn (el (set_scrollTimeout true s0))) with (scrollBtn (el s0)).
      change (scrollTimeout (set_scrollTimeout true s0)) with true.
      rewrite G1, G2, G3, Hb. repeat split; auto; discriminate.
  - clear s0 G1 G2 G3 s1 F1 F2 K1. cbn. repeat split; auto.
Qed.

Lemma scroll_classifies_witness :
  pinned (step (Scroll at_bottom) (step Wheel ready)) = true /\
  scrollTimeout (step (Scroll at_bottom) (step Wheel ready)) = true.
Proof.
  destruct (scroll_classifies at_bottom (step Wheel ready)) as (H1 & _ & _ & H2 & _).
  - vm_compute. reflexivity.
  - split; [exact H1 | exact H2].
Defined.

(** ** Arrival order on the page *)

Lemma inv_clearLogs es st : ordered_inv es st -> ordered_inv es (clearLogs st).
Proof.
  intros (Hlc & Hsc & Hcl & shown & dropped & Hd & Hs).
  assert (V : view (clearLogs st)
              = ("", logBuffer st, isUserScrolling st, autoScroll st, true)).
  { unfold clearLogs, view, html, with_logConsole, has_logConsole in *.
    destruct (logConsole (el st)); [reflexivity | discriminate]. }
  view_eq V. unfold ordered_inv, scroll_consistent, in_arrival_order.
  rewrite V, V0, V1, V2, V3. repeat split; auto.
  exists shown, (decorated shown). rewrite sapp_nil_r. auto.
Qed.

Lemma inv_act es a st :
  no_pin a = true -> ordered_inv es st ->
  ordered_inv (es ++ events [a]) (act a st).
Proof.
  intros Hp H. destruct a as [e| |v]; cbn [act events].
  - apply inv_step; [|exact H]. destruct e; try reflexivity. discriminate.
  - rewrite app_nil_r. apply inv_clearLogs, H.
  - discriminate.
Qed.

Lemma events_app a b : events (a ++ b) = (events a ++ events b)%list.
Proof.
  induction a as [|[e| |v] a IH]; cbn [app events]; rewrite ?IH; reflexivity.
Qed.

Lemma inv_play acts : forall es st,
  forallb no_pin acts = true -> ordered_inv es st ->
  ordered_inv (es ++ events acts) (play acts st).
Proof.
  induction acts as [|a acts IH]; intros es st Hp H.
  - cbn. rewrite app_nil_r. exact H.
  - cbn [forallb] in Hp. apply andb_true_iff in Hp. destruct Hp as (Ha & Hp).
    change (a :: acts) with ([a] ++ acts)%list. rewrite events_app, app_assoc.
    change (play ([a] ++ acts) st) with (play acts (act a st)).
    apply IH; [exact Hp|]. apply inv_act; assumption.
Qed.

Lemma inv_start st :
  has_logConsole st = true -> html st = "" -> logBuffer st = [] ->
  pinned st = true -> ordered_inv [] st.
Proof.
  intros Hlc Hh Hb Hpin.
  unfold pinned in Hpin. apply andb_true_iff in Hpin. destruct Hpin as (U & A).
  apply negb_true_iff in U.
  split; [exact Hlc|]. split; [left; auto|]. split; [rewrite Hb; constructor|].
  exists [], "". rewrite Hh, Hb. split; [reflexivity | constructor].
Qed.

(** X9.  On the page, too, pushed lines stay in arrival order as long as
    the view is not pinned by force: with the callbacks of the console,
    clicks on Clear and everything else but [forceBottom()] and the font
    slider (which calls it), and with verbatim lines pushed, the log
    followed by the queue is a subsequence of the lines pushed, in the
    order they were pushed. *)
Theorem arrival_order_on_page (acts : list action) (st : Console) :
  has_logConsole st = true -> html st = "" -> logBuffer st = [] ->
  pinned st = true ->
  forallb no_pin acts = true ->
  forallb verbatim (pushed (events acts)) = true ->
  in_arrival_order (events acts) (play acts st).
Proof.
  intros Hlc Hh Hb Hpin Hp _.
  apply (inv_play acts [] st Hp). apply inv_start; assumption.
Qed.

Lemma arrival_order_on_page_witness :
  in_arrival_order
    (events [Callback (Start true); Callback SseOpen; Callback (SseMessage "a");
             Callback Wheel; Callback (SseMessage "b"); ClearLogs;
             Callback (ScrollTimer at_bottom)])
    (play [Callback (Start true); Callback SseOpen; Callback (SseMessage "a");
           Callback Wheel; Callback (SseMessage "b"); ClearLogs;
           Callback (ScrollTimer at_bottom)] ready).
Proof.
  apply arrival_order_on_page; vm_compute; reflexivity.
Defined.

(** X10.  As long as the view is not pinned by force, no line waits in
    the queue while the view is pinned: the view is either pinned with an
    empty queue or scrolled by the user, and the queue holds trimmed,
    non-empty lines only. *)
Theorem no_line_waits_while_pinned (acts : list action) (st : Console) :
  has_logConsole st = true -> html st = "" -> logBuffer st = [] ->
  pinned st = true ->
  forallb no_pin acts = true ->
  scroll_consistent (play acts st) /\
  (pinned (play acts st) = true -> logBuffer (play acts st) = []) /\
  Forall clean_line (logBuffer (play acts st)).
Proof.
  intros Hlc Hh Hb Hpin Hp.
  destruct (inv_play acts [] st Hp (inv_start st Hlc Hh Hb Hpin))
    as (_ & Hsc & Hcl & _).
  split; [exact Hsc|]. split; [|exact Hcl].
  unfold pinned. intros H. apply andb_true_iff in H. destruct H as (U & A).
  apply negb_true_iff in U.
  destruct Hsc as [(_ & _ & B) | (U' & _)]; [exact B | congruence].
Qed.

Lemma no_line_waits_while_pinned_witness :
  logBuffer (play [Callback (Start true); Callback SseOpen; Callback Wheel;
                   Callback (SseMessage "a"); Callback ClickScrollBtn] ready) = [].
Proof.
  refine (proj1 (proj2 (no_line_waits_while_pinned
            [Callback (Start true); Callback SseOpen; Callback Wheel;
             Callback (SseMessage "a"); Callback ClickScrollBtn] ready
            _ _ _ _ _)) _); vm_compute; reflexivity.
Defined.

(** ** The channel and the flag *)

Lemma channel_ok_conn st st' : conn st' = conn st -> channel_ok st -> channel_ok st'.
Proof.
  unfold conn, channel_ok. intros H. split_pairs H. rewrite H, H2. auto.
Qed.

Lemma conn_append_line s st : conn (append_line s st) = conn st.
Proof. apply conn_with_logConsole. Qed.

Lemma conn_cap_lines st : conn (cap_lines st) = conn st.
Proof.
  unfold cap_lines. destruct (maxLines st <? _); [|reflexivity].
  apply conn_with_logConsole.
Qed.

Lemma conn_appendLogs raw st : conn (appendLogs raw st) = conn st.
Proof.
  unfold appendLogs.
  destruct (String.eqb (trim raw) EmptyString || negb (has_logConsole st));
    [reflexivity|].
  destruct (isUserScrolling st || negb (autoScroll st)).
  - rewrite conn_updateBufferIndicator. destruct (maxBufferSize _ <? _); reflexivity.
  - rewrite conn_cap_lines.
    match goal with
    | |- context [if ?b then _ else _] => destruct b
    end; rewrite ?conn_scrollToBottom; apply conn_append_line.
Qed.

Lemma channel_ok_none st : eventSource st = None -> channel_ok st.
Proof. unfold channel_ok. intros ->. exact I. Qed.

Lemma eventSource_reconnect st : eventSource (reconnect st) = eventSource st.
Proof. apply reconnect_frame. Qed.

Lemma channel_ok_start created st : channel_ok (start created st).
Proof.
  unfold start. cbn [isConsoleOn set_isConsoleOn]. destruct created.
  - unfold channel_ok. cbn. split; [discriminate | reflexivity].
  - apply channel_ok_none. rewrite eventSource_reconnect. cbn.
    apply stopSSE_frame.
Qed.

Lemma channel_ok_toggle_src src st : channel_ok st -> channel_ok (set_toggle_src src st).
Proof.
  unfold set_toggle_src. destruct (toggleImg (el st)); auto.
Qed.

Lemma channel_ok_stop st : channel_ok (stop st).
Proof.
  apply channel_ok_none. pose proof (conn_stop st) as E.
  unfold conn in E. split_pairs E. exact E.
Qed.

Lemma channel_ok_step e st : channel_ok st -> channel_ok (step e st).
Proof.
  intros H.
  assert (same : forall st', conn st' = conn st -> channel_ok st')
    by (intros st' E; apply (channel_ok_conn st); assumption).
  destruct e; cbn [step].
  - apply channel_ok_start.
  - apply channel_ok_stop.
  - unfold toggle. cbn [isConsoleOn set_isConsoleOn].
    destruct (negb (isConsoleOn st)); apply channel_ok_toggle_src;
      [apply channel_ok_start | apply channel_ok_stop].
  - apply same, conn_setFont.
  - apply same, conn_adjustFont.
  - apply same, conn_forceBottom.
  - destruct (eventSource st) as [[]|] eqn:E; try exact H.
    unfold channel_ok in *. rewrite E in H. cbn.
    split; [discriminate | apply H].
  - destruct (eventSource st) as [[]|] eqn:E; try exact H.
    apply same, conn_appendLogs.
  - destruct (eventSource st) as [rs|] eqn:E; [|exact H].
    unfold channel_ok in *. rewrite E in H. destruct H as (_ & Hon).
    unfold onerror. cbn [eventSource set_eventSource]. destruct closed.
    + cbn [stopSSE eventSource set_eventSource isConsoleOn].
      rewrite Hon. rewrite eventSource_reconnect. exact I.
    + cbn. split; [discriminate | exact Hon].
  - destruct (reconnectTimers st); [exact H|].
    unfold reconnect_timer. cbv zeta.
    match goal with
    | |- channel_ok (set_reconnectAttempts ?n (start ?c ?s)) =>
        change (channel_ok (start c s))
    end.
    apply channel_ok_start.
  - destruct (animationFrames st); [exact H|].
    apply same. rewrite conn_scrollToBottom. reflexivity.
  - destruct (has_logConsole st); [|exact H].
    apply same. unfold scroll_listener, scroll_btn_listener.
    match goal with
    | |- context [set_btn_display ?d st] =>
        pose proof (conn_set_btn_display d st) as E;
        generalize dependent (set_btn_display d st)
    end.
    intros st1 E. rewrite <- E. cbv zeta. rewrite conn_set_scrollTimeout.
    destruct (isAtBottom g 50); [|reflexivity].
    match goal with
    | |- context [if ?b then flushBuffer _ else _] => destruct b
    end; [rewrite conn_flushBuffer|]; reflexivity.
  - destruct (has_logConsole st); [|exact H]. apply same. reflexivity.
  - destruct (scrollTimeout st); [|exact H].
    apply same. unfold scroll_timer.
    destruct (isAtBottom g 50); [|reflexivity].
    rewrite conn_flushBuffer. reflexivity.
  - destruct (scrollBtn (el st)); [|exact H].
    apply same. unfold click_scrollBtn.
    rewrite conn_set_btn_display, conn_scrollToBottom, conn_flushBuffer.
    reflexivity.
  - apply channel_ok_none, stopSSE_frame.
  - unfold autostart_reply. destruct (String.eqb t "True"); [|exact H].
    apply channel_ok_start.
Qed.

Lemma channel_ok_act a st : channel_ok st -> channel_ok (act a st).
Proof.
  intros H. destruct a as [e| |v]; cbn [act].
  - apply channel_ok_step, H.
  - apply (channel_ok_conn st); [apply conn_with_logConsole | exact H].
  - unfold apply. cbv zeta. apply (channel_ok_conn st); [|exact H].
    rewrite conn_forceBottom. apply conn_setFont.
Qed.

(** X11.  The console never holds a channel while it is flagged off, and
    never keeps a closed one: after any sequence of calls and events a
    channel, if there is one, is connecting or open and [isConsoleOn] is
    true.  So a console that is off receives no line. *)
Theorem no_channel_while_off (acts : list action) (st : Console) :
  eventSource st = None ->
  let st' := play acts st in
  channel_ok st' /\
  (isConsoleOn st' = false -> forall data, step (SseMessage data) st' = st').
Proof.
  intros He st'.
  assert (H : channel_ok st').
  { unfold st', play. clear st'. apply channel_ok_none in He. revert st He.
    induction acts as [|a acts IH]; intros st H; simpl; [exact H|].
    apply IH, channel_ok_act, H. }
  split; [exact H|].
  intros Hoff data. cbn [step]. unfold channel_ok in H.
  destruct (eventSource st') as [rs|]; [|reflexivity].
  destruct H as (_ & Hon). congruence.
Qed.

Lemma no_channel_while_off_witness :
  channel_ok (play [Callback (Toggle true); Callback SseOpen; Callback (Toggle true)]
                   ready).
Proof.
  refine (proj1 (no_channel_while_off
            [Callback (Toggle true); Callback SseOpen; Callback (Toggle true)]
            ready _)).
  vm_compute. reflexivity.
Defined.

(** ** The line cap of the live path *)

Lemma verbatim_not_lt c : verbatim_char c = true -> is_not "<" c = true.
Proof.
  revert c. apply (code_units_impl verbatim_char (is_not "<")).
  vm_compute. reflexivity.
Qed.

Lemma level_not_lt c : in_level c = true -> is_not "<" c = true.
Proof. intros H. apply (level_not_angle c H). Qed.

(** The separator is found nowhere in text without [<]. *)
Lemma silent_br_text t : all (is_not "<") t = true -> silent re_br t.
Proof.
  intros H u v prev rest -> Hv.
  destruct v as [|c v]; [contradiction|].
  rewrite all_app in H. apply andb_true_iff in H. destruct H as (_ & H).
  cbn [all] in H. apply andb_true_iff in H. destruct H as (H & _).
  unfold is_not in H. apply negb_true_iff in H.
  unfold match_at, re_br, br. cbn [append rmatch lit chr_eq].
  rewrite Ascii.eqb_sym, H. reflexivity.
Qed.

(** Nor in a tag other than the separator itself. *)
Lemma silent_br_tag b :
  all (is_not "<") b = true ->
  match b with String d _ => d <> "b"%char | EmptyString => True end ->
  silent re_br (tag b).
Proof.
  intros Hb Hd u v prev rest E Hv.
  destruct u as [|x u].
  - cbn [append] in E. subst v. unfold tag, match_at, re_br, br.
    cbn [append rmatch lit chr_eq]. rewrite Ascii.eqb_refl.
    destruct b as [|d b]; cbn [append]; [reflexivity|].
    apply Ascii.eqb_neq in Hd. rewrite Ascii.eqb_sym, Hd. reflexivity.
  - unfold tag in E. cbn [append] in E. injection E as _ E.
    apply (silent_br_text (b ++ ">")) with (u := u); [|exact E | exact Hv].
    rewrite all_app, Hb. reflexivity.
Qed.

Lemma added_body_head b :
  added b ->
  all (is_not "<") b = true /\
  match b with String d _ => d <> "b"%char | EmptyString => True end.
Proof.
  intros [-> | [-> | [-> | [(hue & ->) | (cls & Hin & ->)]]]].
  - split; [reflexivity | discriminate].
  - split; [reflexivity | discriminate].
  - split; [reflexivity | discriminate].
  - split; [|discriminate].
    unfold logfile_body, quoted. rewrite !all_app. cbn [all append].
    rewrite all_app. rewrite (all_impl _ _ _ digit_not_lt (N_to_string_digits hue)).
    reflexivity.
  - simpl in Hin.
    repeat (destruct Hin as [<- | Hin]; [split; [reflexivity | discriminate]|]).
    destruct Hin.
Qed.

Lemma src_chars (p : ascii -> bool) : forall ps,
  all p (src_of ps) = true ->
  Forall (fun q => match q with Kept c => p c = true | _ => True end) ps.
Proof.
  induction ps as [|q ps IH]; intros H; [constructor|].
  rewrite src_of_cons, all_app in H. apply andb_true_iff in H.
  destruct H as (H1 & H2). constructor; [|apply IH, H2].
  destruct q as [c|b|m]; [|exact I | exact I].
  cbn [part_src all] in H1. apply andb_true_iff in H1. tauto.
Qed.

Lemma silent_br_parts ps : Forall br_free ps -> silent re_br (out_of ps).
Proof.
  induction 1 as [|p ps Hp _ IH]; [apply silent_nil|].
  rewrite out_of_cons. apply silent_app; [|exact IH].
  destruct p as [c|b|m]; cbn [br_free part_out] in *.
  - apply silent_br_text. cbn [all]. rewrite Hp. reflexivity.
  - destruct (added_body_head b Hp) as (H1 & H2). apply silent_br_tag; assumption.
  - apply silent_br_text. destruct (upper_level_word m Hp) as (_ & Hl).
    apply (all_impl in_level); [apply level_not_lt | exact Hl].
Qed.

(** The separator occurs in the decoration of a verbatim line nowhere. *)
Lemma silent_br_line l : verbatim l = true -> silent re_br (processLogLine l).
Proof.
  intros H. unfold processLogLine. cbv zeta.
  destruct (py_parts l) as (ps1 & -> & E1 & H1 & G1).
  destruct (level_parts ps1 H1 G1) as (ps2 & -> & E2 & H2 & _).
  destruct (highlight_parts ps2 H2) as (ps & -> & E3).
  assert (Hs : src_of ps = l) by (rewrite (inserted_src _ _ E3); congruence).
  pose proof (inserted_adorns _ _ E3 H2) as Ha.
  clear E1 E2 E3 H1 H2 G1 ps1 ps2.
  apply silent_br_parts.
  assert (Hc : Forall (fun q => match q with
                                | Kept c => is_not "<" c = true
                                | _ => True
                                end) ps).
  { apply src_chars. rewrite Hs.
    apply (all_impl verbatim_char); [apply verbatim_not_lt | exact H]. }
  clear Hs H. induction Ha as [|p ps Hp _ IH]; [constructor|].
  inversion Hc as [|? ? Hq Hqs]; subst. constructor; [|apply IH, Hqs].
  destruct p; cbn [br_free adorns] in *; assumption.
Qed.

(** The pieces [innerHTML.split('<br>')] cuts a log of verbatim lines
    into: the decoration of each line, and the empty piece after the last
    separator. *)
Lemma split_decorated : forall shown cur prev,
  forallb verbatim shown = true ->
  chunks false (scan re_br true prev (decorated shown) 0 true) cur
  = match shown with
    | [] => [cur]
    | l :: ls => (cur ++ processLogLine l) :: (map processLogLine ls ++ [""])%list
    end.
Proof.
  induction shown as [|l ls IH]; intros cur prev H; [reflexivity|].
  cbn [forallb] in H. apply andb_true_iff in H. destruct H as (Hl & Hls).
  rewrite decorated_cons, sapp_assoc.
  rewrite scan_quiet
    by (intros u v prev' Huv Hv; apply (silent_br_line l Hl u v prev' _ Huv Hv)).
  rewrite chunks_txt.
  change (br ++ decorated ls) with (String "<" "br>" ++ decorated ls).
  rewrite scan_hit by reflexivity.
  cbn [chunks]. f_equal. rewrite IH by exact Hls.
  destruct ls; reflexivity.
Qed.

Lemma join_decorated : forall shown,
  join br (map processLogLine shown ++ [""]) = decorated shown.
Proof.
  induction shown as [|l ls IH]; [reflexivity|].
  cbn [map app]. rewrite join_br_cons by (destruct ls; discriminate).
  rewrite IH, decorated_cons, sapp_assoc. reflexivity.
Qed.

Lemma forallb_skipn {A} (p : A -> bool) n : forall l,
  forallb p l = true -> forallb p (skipn n l) = true.
Proof.
  induction n as [|n IH]; intros [|x l] H; cbn [skipn]; auto.
  cbn [forallb] in H. apply andb_true_iff in H. apply IH. tauto.
Qed.

(** The cap on a log of verbatim lines: the newest [maxLines - 1] lines
    stay. *)
Lemma cap_lines_log st shown :
  has_logConsole st = true -> 0 < maxLines st ->
  log_of st shown ->
  log_of (cap_lines st) (newest (maxLines st - 1) shown).
Proof.
  intros Hlc Hk (Hh & Hv). unfold cap_lines.
  assert (Hs : split re_br false (html st) = (map processLogLine shown ++ [""])%list).
  { unfold split, tokens. rewrite Hh, split_decorated by exact Hv.
    destruct shown; reflexivity. }
  rewrite Hs, length_app, length_map. cbn [List.length].
  destruct (maxLines st) as [|k] eqn:Ek; [lia|].
  replace (S k - 1) with k by lia.
  destruct (S k <? List.length shown + 1) eqn:E.
  - apply Nat.ltb_lt in E.
    assert (Hx : forall x, html (with_logConsole (fun lc => set_innerHTML x lc) st) = x).
    { intros x. unfold html, with_logConsole, has_logConsole in *.
      destruct (logConsole (el st)); [reflexivity | discriminate]. }
    split; [|apply forallb_skipn, Hv].
    rewrite Hx. unfold slice_last, newest.
    rewrite length_app, length_map. cbn [List.length].
    replace (List.length shown + 1 - S k) with (List.length shown - k) by lia.
    rewrite skipn_app, length_map.
    replace (List.length shown - k - List.length shown) with 0 by lia.
    cbn [skipn]. rewrite skipn_map. apply join_decorated.
  - apply Nat.ltb_ge in E. split; [|apply forallb_skipn, Hv].
    rewrite Hh. unfold newest.
    replace (List.length shown - k) with 0 by lia. reflexivity.
Qed.

(** X12.  The live path keeps the cap, and on a log of verbatim lines it
    keeps the newest lines: after a verbatim line is rendered while the
    view is pinned, the log shows the newest [maxLines - 1] of the lines
    it showed before followed by the new line, in that order; it splits
    into at most [maxLines] pieces at [<br>]. *)
Theorem live_append_within_cap (st : Console) (raw : string) (shown : list string) :
  has_logConsole st = true -> pinned st = true -> trim raw <> "" ->
  0 < maxLines st ->
  log_of st shown -> verbatim (trim raw) = true ->
  log_of (appendLogs raw st) (newest (maxLines st - 1) (shown ++ [trim raw])) /\
  List.length (split re_br false (html (appendLogs raw st))) <= maxLines st /\
  List.length (rendered (appendLogs raw st)) < maxLines st.
Proof.
  intros Hlc Hpin Hraw Hk (Hshown & Hv) Hr.
  rewrite appendLogs_pinned by assumption.
  set (mid := scrollToBottom (append_line (trim raw) st)).
  assert (Hm : maxLines mid = maxLines st).
  { unfold mid, scrollToBottom, append_line, with_logConsole.
    repeat match goal with
           | |- context [if ?b then _ else _] => destruct b
           | |- context [match ?x with _ => _ end] => destruct x
           end; reflexivity. }
  assert (Hl : has_logConsole mid = true).
  { unfold mid.
    destruct (scrollToBottom_frame (append_line (trim raw) st)) as (_ & _ & _ & _ & ->).
    destruct (append_line_frame (trim raw) st) as (_ & _ & _ & _ & _ & ->).
    exact Hlc. }
  assert (Hh : log_of mid (shown ++ [trim raw])).
  { split.
    - unfold mid.
      destruct (scrollToBottom_frame (append_line (trim raw) st)) as (_ & _ & -> & _).
      rewrite html_append_line by exact Hlc.
      rewrite decorated_snoc, Hshown. reflexivity.
    - rewrite forallb_app, Hv. cbn [forallb]. rewrite Hr. reflexivity. }
  destruct (cap_lines_keeps_newest mid Hl ltac:(lia)) as (H1 & _).
  rewrite Hm in H1. split; [|split; [exact H1|]].
  - rewrite <- Hm. apply cap_lines_log; [exact Hl | lia | exact Hh].
  - unfold rendered.
    pose proof (chunks_nonempty false (tokens re_br true (html (cap_lines mid))) "") as Hne.
    fold (split re_br false (html (cap_lines mid))) in Hne.
    destruct (split re_br false (html (cap_lines mid))) as [|x l] eqn:E;
      [contradiction|].
    assert (Hlen : List.length (x :: l) = S (List.length (removelast (x :: l)))).
    { rewrite (app_removelast_last "" (l := x :: l)) at 1 by discriminate.
      rewrite length_app. simpl. lia. }
    lia.
Qed.

Lemma live_append_within_cap_witness :
  let st := run [Start true; SseOpen; SseMessage "z"] ready in
  html (appendLogs " x" st) = "z<br>x<br>" /\
  List.length (rendered (appendLogs " x" st)) < 200.
Proof.
  intros st.
  destruct (live_append_within_cap st " x" ["z"]) as ((H1 & _) & _ & H2).
  - vm_compute. reflexivity.
  - vm_compute. reflexivity.
  - discriminate.
  - vm_compute. lia.
  - split; vm_compute; reflexivity.
  - vm_compute. reflexivity.
  - split; [exact H1 | exact H2].
Defined.

(** ** The log shows whole lines *)

(** The cap leaves a log of verbatim lines one. *)
Lemma cap_lines_whole st shown :
  has_logConsole st = true -> log_of st shown ->
  exists shown', log_of (cap_lines st) shown'.
Proof.
  intros Hlc H. destruct (maxLines st) as [|k] eqn:Ek.
  - exists shown. destruct H as (Hh & Hv). split; [|exact Hv].
    unfold cap_lines. rewrite Ek. cbn [slice_last].
    assert (Hx : forall x, html (with_logConsole (fun lc => set_innerHTML x lc) st) = x).
    { intros x. unfold html, with_logConsole, has_logConsole in *.
      destruct (logConsole (el st)); [reflexivity | discriminate]. }
    destruct (0 <? _); [|exact Hh].
    rewrite Hx. unfold split, tokens.
    rewrite (join_chunks (String.length (html st)) (html st) "" None (le_n _)).
    exact Hh.
  - exists (newest (maxLines st - 1) shown).
    apply cap_lines_log; [exact Hlc | lia | exact H].
Qed.

Lemma whole_of_view st st' h buf u a :
  view st' = (h, buf, u, a, has_logConsole st) ->
  whole_lines st ->
  (exists shown, h = decorated shown /\ forallb verbatim shown = true) ->
  forallb verbatim buf = true ->
  whole_lines st'.
Proof.
  intros V (Hlc & _ & _) (shown & Hh & Hv) Hb. view_eq V.
  split; [congruence|]. split; [congruence|].
  exists shown. split; congruence.
Qed.

Lemma whole_same st st' : view st' = view st -> whole_lines st -> whole_lines st'.
Proof.
  intros V H. pose proof H as (Hlc & Hq & shown & Hh & Hv).
  apply (whole_of_view st st' (html st) (logBuffer st)
           (isUserScrolling st) (autoScroll st)); auto.
  exists shown. auto.
Qed.

Lemma whole_flags st st' u a :
  view st' = (html st, logBuffer st, u, a, has_logConsole st) ->
  whole_lines st -> whole_lines st'.
Proof.
  intros V H. pose proof H as (Hlc & Hq & shown & Hh & Hv).
  apply (whole_of_view st st' (html st) (logBuffer st) u a); auto.
  exists shown. auto.
Qed.

Lemma whole_cleared st st' u a :
  view st' = (html st, [], u, a, has_logConsole st) ->
  whole_lines st -> whole_lines st'.
Proof.
  intros V H. pose proof H as (Hlc & Hq & shown & Hh & Hv).
  apply (whole_of_view st st' (html st) [] u a); auto.
  exists shown. auto.
Qed.

Lemma whole_flushBuffer st : whole_lines st -> whole_lines (flushBuffer st).
Proof.
  intros H. pose proof H as (Hlc & Hq & shown & Hh & Hv).
  apply (whole_of_view st _ _ _ _ _ ltac:(rewrite Hlc; apply (view_flush st Hlc)) H);
    [|reflexivity].
  exists (shown ++ kept (logBuffer st))%list. split.
  - rewrite decorated_app, Hh. reflexivity.
  - rewrite forallb_app, Hv. apply verbatim_kept, Hq.
Qed.

Lemma whole_appendLogs raw st :
  (trim raw <> "" -> verbatim (trim raw) = true) ->
  whole_lines st -> whole_lines (appendLogs raw st).
Proof.
  intros Hr H. pose proof H as (Hlc & Hq & shown & Hh & Hv).
  destruct (appendLogs_flags raw st) as (_ & _ & Hl).
  destruct (appendLogs_buffer raw st) as (_ & Hb).
  rewrite Hlc in Hb. cbn [negb] in Hb. rewrite orb_false_r in Hb.
  split; [rewrite Hl; exact Hlc|].
  destruct (String.eqb (trim raw) "") eqn:E.
  { split; [rewrite Hb; exact Hq|]. exists shown.
    unfold appendLogs. rewrite E. split; assumption. }
  apply String.eqb_neq in E. specialize (Hr E).
  apply String.eqb_neq in E.
  destruct (isUserScrolling st || negb (autoScroll st)) eqn:S; split.
  - rewrite Hb.
    assert (Hall : forallb verbatim (logBuffer st ++ [trim raw]) = true)
      by (rewrite forallb_app, Hq; cbn [forallb]; rewrite Hr; reflexivity).
    destruct (maxBufferSize st <? _); [|exact Hall].
    unfold shift. destruct (logBuffer st ++ [trim raw])%list; [reflexivity|].
    cbn [forallb tl] in *. apply andb_true_iff in Hall. tauto.
  - exists shown. split; [|exact Hv].
    unfold appendLogs. rewrite E, Hlc, S. cbn [negb orb].
    match goal with
    | |- html (updateBufferIndicator ?s) = _ =>
        destruct (updateBufferIndicator_frame s) as (_ & _ & -> & _)
    end.
    rewrite <- Hh. destruct (maxBufferSize _ <? _); reflexivity.
  - rewrite Hb. exact Hq.
  - unfold appendLogs. rewrite E, Hlc, S. cbn [negb orb].
    match goal with
    | |- exists _, log_of (cap_lines ?s) _ =>
        assert (Hm : has_logConsole s = true /\ log_of s (shown ++ [trim raw]));
        [|apply (cap_lines_whole s (shown ++ [trim raw])); apply Hm]
    end.
    assert (Ha : has_logConsole (append_line (trim raw) st) = true /\
                 log_of (append_line (trim raw) st) (shown ++ [trim raw])).
    { destruct (append_line_frame (trim raw) st) as (_ & _ & _ & _ & _ & ->).
      split; [exact Hlc|]. split.
      - rewrite html_append_line by exact Hlc. rewrite decorated_snoc, Hh. reflexivity.
      - rewrite forallb_app, Hv. cbn [forallb]. rewrite Hr. reflexivity. }
    destruct (autoScroll _ && _); [|exact Ha].
    destruct (scrollToBottom_frame (append_line (trim raw) st)) as (_ & _ & Hs & _ & ->).
    destruct Ha as (Ha1 & Ha2 & Ha3). split; [exact Ha1|]. split; [|exact Ha3].
    rewrite Hs. exact Ha2.
Qed.

Lemma whole_flag_setters st v :
  whole_lines (set_scrollTimeout v st) = whole_lines st /\
  whole_lines (set_isUserScrolling v st) = whole_lines st /\
  whole_lines (set_autoScroll v st) = whole_lines st.
Proof. repeat split. Qed.

(** One callback turn keeps the log one of whole lines. *)
Lemma whole_step e st :
  verbatim_payload (Callback e) = true ->
  whole_lines st -> whole_lines (step e st).
Proof.
  intros Hp H. pose proof H as (Hlc & Hq & shown & Hh & Hv).
  destruct (touches_log e) eqn:Ht.
  - destruct e; try discriminate; cbn [step].
    + (* stop() *)
      apply (whole_cleared st _ _ _ (view_stop st) H).
    + (* toggle() *)
      unfold toggle.
      set (st1 := set_isConsoleOn (negb (isConsoleOn st)) st).
      assert (V1 : view st1 = view st) by reflexivity.
      destruct (isConsoleOn st1).
      * apply (whole_same st); [|exact H].
        rewrite view_set_toggle_src, view_start. exact V1.
      * apply (whole_cleared st _ (isUserScrolling st) (autoScroll st)); [|exact H].
        rewrite view_set_toggle_src, view_stop. reflexivity.
    + (* forceBottom() *)
      unfold forceBottom. rewrite Hlc. cbn [negb].
      apply (whole_flags st _ false true); [reflexivity | exact H].
    + (* a pushed line *)
      destruct (eventSource st) as [[]|]; try exact H.
      apply whole_appendLogs; [|exact H]. intros _. exact Hp.
    + (* scroll *)
      rewrite Hlc. unfold scroll_listener, scroll_btn_listener.
      match goal with
      | |- context [set_btn_display ?d st] =>
          pose proof (view_set_btn_display d st) as V1;
          generalize dependent (set_btn_display d st)
      end.
      intros st1 V1.
      assert (H1 : whole_lines st1) by (apply (whole_same st); auto).
      cbv zeta.
      destruct (isAtBottom g 50); [|exact H1].
      destruct (isUserScrolling _); [|exact H1].
      apply (whole_flushBuffer
               (set_isUserScrolling false
                  (set_autoScroll true
                     (set_isUserScrolling true (set_scrollTimeout false st1))))).
      exact H1.
    + (* wheel *)
      rewrite Hlc. exact H.
    + (* the debounce timer *)
      destruct (scrollTimeout st); [|exact H].
      unfold scroll_timer. destruct (isAtBottom g 50); [|exact H].
      apply (whole_flushBuffer
               (set_autoScroll true
                  (set_isUserScrolling false (set_scrollTimeout false st)))).
      exact H.
    + (* the scroll-to-bottom button *)
      destruct (scrollBtn (el st)); [|exact H].
      unfold click_scrollBtn.
      apply (whole_same (flushBuffer (set_isUserScrolling false (set_autoScroll true st)))).
      * rewrite view_set_btn_display, view_scrollToBottom. reflexivity.
      * apply (whole_flushBuffer (set_isUserScrolling false (set_autoScroll true st))).
        exact H.
  - apply (whole_same st); [apply view_step; exact Ht | exact H].
Qed.

Lemma whole_act a st :
  verbatim_payload a = true -> whole_lines st -> whole_lines (act a st).
Proof.
  intros Hp H. destruct a as [e| |v]; cbn [act].
  - apply whole_step; assumption.
  - pose proof H as (Hlc & Hq & _).
    assert (V : view (clearLogs st)
                = ("", logBuffer st, isUserScrolling st, autoScroll st, has_logConsole st)).
    { unfold clearLogs, view, html, with_logConsole, has_logConsole in *.
      destruct (logConsole (el st)); [reflexivity | discriminate]. }
    apply (whole_of_view st _ _ _ _ _ V H); [|exact Hq].
    exists []. auto.
  - unfold apply. cbv zeta.
    apply (whole_step ForceBottom); [reflexivity|].
    apply (whole_step (SetFont (inject_Z v))); [reflexivity | exact H].
Qed.

(** X22.  Whatever happens on the page, forced pinning and slider moves
    included, a log that shows verbatim lines goes on showing verbatim
    lines, whole: when the lines pushed are verbatim, the markup of the
    log is at every moment the decoration of a list of lines, one after
    the other, so the cap and the flushes add and drop whole lines only;
    and the queue holds verbatim lines. *)
Theorem log_shows_whole_lines (acts : list action) (st : Console)
        (shown : list string) :
  has_logConsole st = true ->
  log_of st shown ->
  forallb verbatim (logBuffer st) = true ->
  forallb verbatim_payload acts = true ->
  (exists shown', log_of (play acts st) shown') /\
  forallb verbatim (logBuffer (play acts st)) = true.
Proof.
  intros Hlc Hl Hq Hp.
  assert (H : whole_lines st) by (split; [exact Hlc | split; [exact Hq | eauto]]).
  clear Hlc Hl Hq shown.
  assert (G : whole_lines (play acts st)).
  { revert st H. induction acts as [|a acts IH]; intros st H; [exact H|].
    cbn [forallb] in Hp. apply andb_true_iff in Hp. destruct Hp as (Ha & Hp).
    change (play (a :: acts) st) with (play acts (act a st)).
    apply (IH Hp). apply whole_act; assumption. }
  destruct G as (_ & G1 & G2). auto.
Qed.

Lemma log_shows_whole_lines_witness :
  let acts := [Callback (Start true); Callback SseOpen; Callback (SseMessage "a");
               Callback Wheel; Callback (SseMessage "b"); Callback ForceBottom;
               Callback (SseMessage "c"); Callback (ScrollTimer at_bottom)] in
  exists shown', log_of (play acts ready) shown'.
Proof.
  intros acts.
  destruct (log_shows_whole_lines acts ready []) as (H & _).
  - vm_compute. reflexivity.
  - split; vm_compute; reflexivity.
  - vm_compute. reflexivity.
  - vm_compute. reflexivity.
  - exact H.
Defined.

(** ** The font slider *)

(** X13.  Moving the font slider sets the size through [setFont] and then
    pins the view by force: the view is pinned and a scroll is scheduled,
    while the queue and the log are left as they are, so lines queued
    while the user had scrolled are not rendered by it. *)
Theorem font_slider_pins_view (v : Z) (st : Console) :
  has_logConsole st = true ->
  let st' := apply v st in
  fontSize st' = fontSize (setFont (inject_Z v) st) /\
  pinned st' = true /\
  animationFrames st' = S (animationFrames st) /\
  logBuffer st' = logBuffer st /\
  html st' = html st.
Proof.
  intros Hlc st'. unfold st', apply. cbv zeta.
  destruct (setFont_places (inject_Z v) st) as (_ & _ & _ & _ & _ & _ & L).
  pose proof (shell_setFont (inject_Z v) st) as S1.
  assert (Hh : html (setFont (inject_Z v) st) = html st).
  { unfold setFont, with_logConsole, has_logConsole, html.
    destruct st as [[lc ti bi sb] fs ml es on ra mr us au sto lb mb rt af ls sw cf rv].
    destruct cf, lc, sw; reflexivity. }
  unfold shell in S1. repeat (apply pair_equal_spec in S1; destruct S1 as [S1 ?]).
  unfold forceBottom. rewrite L, Hlc. cbn [negb].
  unfold pinned. cbn. repeat split; auto.
Qed.

Lemma font_slider_pins_view_witness :
  let st := run [Start true; SseOpen; Wheel; SseMessage "a"] ready in
  pinned (apply 18 st) = true /\ logBuffer (apply 18 st) = ["a"].
Proof.
  intros st.
  destruct (font_slider_pins_view 18 st) as (_ & H1 & _ & H2 & _).
  - vm_compute. reflexivity.
  - split; [exact H1 | exact H2].
Defined.

(** ** More on the decorator *)

(** X14.  The guard against double wrapping in the file-name pass never
    fires: whatever the pattern matched, the match contains no span, so it
    is always wrapped, with a hue below 360. *)
Theorem py_guard_never_fires (prev : option ascii) (s : string) (n : nat) :
  match_at re_py prev s = Some n ->
  let m := substring 0 n s in
  test re_logfile_span m = false /\
  wrap_py m = span_logfile (hueFromString m) m /\
  (hueFromString m < 360)%N.
Proof.
  intros H m.
  destruct (py_match_inv _ _ _ H) as (m' & rest & Hs & Hn & _ & Hm).
  assert (E : m = m') by (unfold m; subst; apply substring_app).
  rewrite E.
  assert (G : test re_logfile_span m' = false)
    by (apply guard_dead, (all_impl _ _ _ in_py_not_lt Hm)).
  split; [exact G|]. split.
  - unfold wrap_py. rewrite G. reflexivity.
  - unfold hueFromString. apply N.mod_lt. discriminate.
Qed.

Lemma py_guard_never_fires_witness :
  wrap_py (substring 0 9 "worker.py failed")
  = span_logfile (hueFromString (substring 0 9 "worker.py failed"))
                 (substring 0 9 "worker.py failed").
Proof.
  refine (proj1 (proj2 (py_guard_never_fires None "worker.py failed" 9 _))).
  vm_compute. reflexivity.
Defined.

Lemma scan_silent r g t rest prev :
  silent r t ->
  scan r g prev (t ++ rest) 0 true
  = (map Txt (list_ascii_of_string t) ++ scan r g (advance prev t) rest 0 true)%list.
Proof.
  intros H. apply scan_quiet. intros u v prev' Huv Hv. apply (H u v prev' rest Huv Hv).
Qed.

(** Where a pattern matches at no position of the subject, [replace]
    returns the subject. *)
Lemma replace_silent r g f t : silent r t -> replace r g f t = t.
Proof.
  intros H. unfold replace, tokens.
  rewrite <- (sapp_nil_r t) at 1. rewrite scan_silent by exact H.
  cbn [scan]. rewrite render_txt. cbn [render]. apply sapp_nil_r.
Qed.

(** Greedy repetition reads a whole run when the continuation accepts
    its end. *)
Lemma many_greedy p : forall m prev rest n k res,
  all p m = true ->
  (match rest with String c _ => p c = false | EmptyString => True end) ->
  k (advance prev m) rest (n + String.length m) = Some res ->
  many p prev (m ++ rest) n k = Some res.
Proof.
  induction m as [|c m IH]; intros prev rest n k res Hm Hr Hk; simpl in *.
  - rewrite Nat.add_0_r in Hk. destruct rest as [|c rest]; simpl; [exact Hk|].
    rewrite Hr. exact Hk.
  - apply andb_true_iff in Hm. destruct Hm as (-> & Hm).
    rewrite (IH (Some c) rest (S n) k res Hm Hr); [reflexivity|].
    rewrite <- Nat.add_succ_comm in Hk. exact Hk.
Qed.

Lemma py_match_dot prev s n :
  match_at re_py prev s = Some n -> exists a b, s = a ++ String "." b.
Proof.
  unfold match_at, re_py. intros H.
  seq_in H. apply bnd_inv in H. seq_in H. apply plus_inv in H.
  destruct H as (m1 & s1 & -> & Hne & Hm1 & H).
  seq_in H. apply rlit_inv in H. destruct H as (m2 & s2 & -> & Hm2 & H).
  apply same_eq in Hm2. subst m2.
  exists m1, ("py" ++ s2). reflexivity.
Qed.

Lemma py_silent_without_dot t : all (is_not ".") t = true -> replace re_py true wrap_py t = t.
Proof.
  intros H. unfold replace, tokens.
  rewrite <- (sapp_nil_r t) at 1. rewrite scan_quiet.
  - cbn [scan]. rewrite render_txt. cbn [render]. apply sapp_nil_r.
  - intros u v prev' Huv Hv. rewrite sapp_nil_r.
    destruct (match_at re_py prev' v) as [n|] eqn:E; [|reflexivity].
    destruct (py_match_dot _ _ _ E) as (a & b & Hab).
    rewrite Huv, Hab, !all_app in H. cbn [all] in H.
    rewrite !andb_true_iff in H. destruct H as (_ & _ & H & _). discriminate.
Qed.

(** A chunk without digits is left as it is. *)
Lemma highlightChunk_plain t : all no_digit t = true -> highlightChunk t = t.
Proof.
  intros H. unfold highlightChunk. cbv zeta.
  rewrite (replace_silent re_line_number)
    by (apply (silent_class _ is_digit _ line_number_class), H).
  apply replace_silent.
  apply (silent_class _ is_digit _ number_match_inv), H.
Qed.

Lemma plain_markup it : plain it -> markup it.
Proof. destruct it as [c|b]; simpl; [intros (_ & H); exact H | auto]. Qed.

Lemma highlight_plain_chunks : forall its cur i,
  Nat.odd i = false ->
  Forall plain its -> all no_digit cur = true ->
  join "" (map_chunks i (chunks true (map tok its) cur)) = cur ++ flat its.
Proof.
  induction its as [|[c|b] its IH]; intros cur i Hi Hits Hcur;
    cbn [map tok chunks map_chunks].
  - rewrite Hi. cbn [join flat]. rewrite sapp_nil_r. apply highlightChunk_plain, Hcur.
  - inversion Hits as [|? ? Hc Hits']; subst. destruct Hc as (Hc & _).
    rewrite IH; [|exact Hi | exact Hits' |].
    + cbn [flat]. rewrite sapp_assoc. reflexivity.
    + rewrite all_app, Hcur. cbn [all]. unfold no_digit. rewrite Hc. reflexivity.
  - inversion Hits as [|? ? Hb Hits']; subst.
    rewrite Hi.
    replace (Nat.odd (S i)) with true
      by (rewrite Nat.odd_succ, <- Nat.negb_odd, Hi; reflexivity).
    assert (Hi2 : Nat.odd (S (S i)) = false)
      by (rewrite Nat.odd_succ, Nat.even_succ; exact Hi).
    rewrite !join_cons, (IH "" (S (S i)) Hi2 Hits' eq_refl).
    rewrite highlightChunk_plain by exact Hcur. reflexivity.
Qed.

(** Markup without digits outside its tags passes the number pass
    unchanged. *)
Lemma highlight_plain its :
  Forall plain its -> highlightNumbersOutsideTags (flat its) = flat its.
Proof.
  intros H. unfold highlightNumbersOutsideTags, split, tokens.
  rewrite tag_tokens by (apply (Forall_impl _ plain_markup H)).
  apply (highlight_plain_chunks its "" 0); auto.
Qed.

(** ** A level word alone on a line *)

Lemma chr_eq_trans a b c :
  chr_eq true a c = true -> chr_eq true b c = true -> chr_eq true a b = true.
Proof.
  unfold chr_eq. rewrite !Ascii.eqb_eq. congruence.
Qed.

(** Two words read at the head of the same text agree as far as both
    go. *)
Lemma agree_heads : forall w' w m' m s' rest,
  same true w' m' = true -> same true w m = true -> m' ++ s' = m ++ rest ->
  agree w' w = true.
Proof.
  induction w' as [|a' w' IH]; intros w m' m s' rest H' H E; [reflexivity|].
  destruct w as [|a w]; [reflexivity|].
  destruct m' as [|c' m']; [discriminate|]. destruct m as [|c m]; [discriminate|].
  cbn [same] in H', H. apply andb_true_iff in H', H.
  destruct H' as (Ha' & H'). destruct H as (Ha & H).
  cbn [append] in E. injection E as Ec Et. subst c'.
  cbn [agree]. rewrite (chr_eq_trans a' a c Ha' Ha). cbn [andb].
  apply (IH w m' m s' rest H' H Et).
Qed.

Lemma lit_clash w' w m prev rest n k :
  same true w m = true -> agree w' w = false ->
  lit true w' prev (m ++ rest) n k = None.
Proof.
  intros H Ha. destruct (lit true w' prev (m ++ rest) n k) eqn:E; [|reflexivity].
  apply lit_inv in E. destruct E as (m' & s' & Hs & Hm' & _).
  rewrite (agree_heads w' w m' m s' rest Hm' H (eq_sym Hs)) in Ha. discriminate.
Qed.

(** In an alternation of words none of which can be mistaken for
    another, the alternative that matches is the word itself. *)
Lemma alternatives_same : forall ws w m prev rest n k,
  In w ws -> same true w m = true ->
  (forall w', In w' ws -> w' <> w -> agree w' w = false) ->
  rmatch (alternatives true ws) prev (m ++ rest) n k
  = k (advance prev m) rest (n + String.length m).
Proof.
  induction ws as [|w0 ws IH]; intros w m prev rest n k Hin Hs Hd; [contradiction|].
  destruct ws as [|w1 ws].
  - destruct Hin as [-> | []]. cbn [alternatives rmatch]. apply lit_same, Hs.
  - change (alternatives true (w0 :: w1 :: ws))
      with (Alt (Lit true w0) (alternatives true (w1 :: ws))).
    cbn [rmatch].
    destruct (string_dec w0 w) as [-> | Hne].
    + rewrite (lit_same true w m prev rest n k Hs).
      destruct (k (advance prev m) rest (n + String.length m)) eqn:Ek; [reflexivity|].
      destruct (rmatch (alternatives true (w1 :: ws)) prev (m ++ rest) n k) eqn:E;
        [|reflexivity].
      apply alternatives_inv in E.
      destruct E as (w' & m' & s' & Hin' & Hs' & Hms & Hk).
      destruct (string_dec w' w) as [-> | Hne'].
      * assert (Hl : String.length m = String.length m')
          by (rewrite (same_length _ _ _ Hs), (same_length _ _ _ Hs'); reflexivity).
        destruct (sapp_inv_length _ _ _ _ Hl Hms) as (-> & ->). congruence.
      * specialize (Hd w' (or_intror Hin') Hne').
        rewrite (agree_heads w' w m' m s' rest Hs' Hs (eq_sym Hms)) in Hd.
        discriminate.
    + rewrite (lit_clash w0 w m prev rest n k Hs (Hd w0 (or_introl eq_refl) Hne)).
      apply (IH w m prev rest n k); [|exact Hs|].
      * destruct Hin as [-> | Hin]; [contradiction | exact Hin].
      * intros w' Hin'. apply Hd. right. exact Hin'.
Qed.

Lemma level_words_distinct :
  forallb (fun w' => forallb (fun w => String.eqb w' w || negb (agree w' w))
                             level_words) level_words = true.
Proof. vm_compute. reflexivity. Qed.

(** The level pattern matches a level word, in any letter case, that
    stands alone. *)
Lemma level_word_match w m :
  In w level_words -> same true w m = true ->
  match_at re_level None m = Some (String.length m).
Proof.
  intros Hin Hs.
  pose proof level_words_ends as He. rewrite forallb_forall in He.
  specialize (He w Hin). apply andb_true_iff in He. destruct He as (He1 & He2).
  pose proof level_words_class as Hc. rewrite forallb_forall in Hc.
  specialize (Hc w Hin). apply andb_true_iff in Hc. destruct Hc as (_ & Hc).
  apply negb_true_iff, String.eqb_neq in Hc.
  unfold match_at, re_level. rewrite seq_eq. cbn [rmatch word_before].
  rewrite (same_word_after w m Hs), He1. cbn [xorb].
  rewrite <- (sapp_nil_r m) at 1.
  rewrite (alternatives_same level_words w m None "" 0 _ Hin Hs).
  - cbn [rmatch word_after].
    rewrite (same_word_before w m None None Hs Hc), He2. reflexivity.
  - intros w' Hin' Hne.
    pose proof level_words_distinct as Hd. rewrite forallb_forall in Hd.
    specialize (Hd w' Hin'). rewrite forallb_forall in Hd. specialize (Hd w Hin).
    apply orb_true_iff in Hd. destruct Hd as [Hd | Hd].
    + apply String.eqb_eq in Hd. contradiction.
    + apply negb_true_iff in Hd. exact Hd.
Qed.

Lemma level_not_dot c : in_level c = true -> is_not "." c = true.
Proof.
  revert c. apply (code_units_impl in_level (is_not ".")). vm_compute. reflexivity.
Qed.

Lemma upper_level_plain c :
  in_level c = true -> no_digit (upper c) = true.
Proof.
  revert c. apply (code_units_impl in_level (fun c => no_digit (upper c))).
  vm_compute. reflexivity.
Qed.

(** X15.  A line that consists of a level word, in any letter case, is
    rendered as one bubble: the word in upper case inside a span whose
    class is the one of the level, or [info] for the words that have none
    ([failed], [Connected], [SSE stream closed]). *)
Theorem level_word_bubble (w m : string) :
  In w level_words -> same true w m = true ->
  processLogLine m
  = span_level (match levelClasses (toUpperCase w) with
                | Some c => c
                | None => "info"
                end) (toUpperCase w).
Proof.
  intros Hin Hs.
  pose proof level_words_class as Hc. rewrite forallb_forall in Hc.
  specialize (Hc w Hin). apply andb_true_iff in Hc. destruct Hc as (Hw & Hne).
  apply negb_true_iff, String.eqb_neq in Hne.
  destruct (same_level w m Hw Hs) as (Hm & Hup & Hnm). specialize (Hnm Hne).
  unfold processLogLine. cbv zeta.
  rewrite py_silent_without_dot by (apply (all_impl _ _ _ level_not_dot Hm)).
  assert (E : replace re_level true wrap_level m = wrap_level m).
  { unfold replace, tokens. destruct m as [|c m]; [contradiction|].
    rewrite <- (sapp_nil_r (String c m)) at 1.
    rewrite scan_hit
      by (rewrite sapp_nil_r; apply (level_word_match w); assumption).
    cbn [scan render]. apply sapp_nil_r. }
  rewrite E. unfold wrap_level. cbv zeta. rewrite Hup.
  rewrite span_level_flat. apply highlight_plain.
  constructor; [apply (tag_body_level w)|].
  apply Forall_app. split.
  - apply (Forall_chars _ (fun c => no_digit c && is_not "<" c)).
    + intros c H. apply andb_true_iff in H. destruct H as (H1 & H2).
      split; [apply negb_true_iff, H1 | apply not_lt, H2].
    + apply (all_toUpperCase in_level); [|exact Hw].
      intros c H. rewrite (upper_level_plain c H), (upper_level_not_lt c H). reflexivity.
  - constructor; [apply tag_body_close | constructor].
Qed.

Lemma level_word_bubble_witness :
  processLogLine "Sse Stream Closed" = span_level "info" "SSE STREAM CLOSED".
Proof.
  apply (level_word_bubble "SSE stream closed" "Sse Stream Closed").
  - simpl. tauto.
  - reflexivity.
Defined.

(** ** A number alone on a line *)

Lemma digits_word_before : forall m prev,
  all is_digit m = true -> m <> "" -> word_before (advance prev m) = true.
Proof.
  induction m as [|c m IH]; intros prev H Hne; [contradiction|].
  cbn [all] in H. apply andb_true_iff in H. destruct H as (Hc & H).
  cbn [advance]. destruct m as [|c' m].
  - cbn. apply digit_in_word, Hc.
  - apply IH; [exact H | discriminate].
Qed.

Lemma digit_plus_match k prev c m rest res :
  is_digit c = true -> all is_digit m = true ->
  (match rest with String x _ => is_digit x = false | EmptyString => True end) ->
  k (advance (Some c) m) rest (S (String.length m)) = Some res ->
  rmatch (Plus is_digit) prev (String c m ++ rest) 0 k = Some res.
Proof.
  intros Hc Hm Hr Hk. cbn [rmatch append]. rewrite Hc.
  apply many_greedy; assumption.
Qed.

Lemma line_number_match c m :
  is_digit c = true -> all is_digit m = true ->
  match_at re_line_number None (String c m) = Some (S (String.length m)).
Proof.
  intros Hc Hm. unfold match_at, re_line_number. rewrite seq_eq.
  change (rmatch Bol None (String c m) 0) with (fun k : cont => k None (String c m) 0).
  cbv beta. rewrite <- (sapp_nil_r (String c m)).
  apply digit_plus_match; auto.
Qed.

Lemma number_match prev c m rest :
  word_before prev = false ->
  is_digit c = true -> all is_digit m = true ->
  (match rest with String x _ => is_word x = false | EmptyString => True end) ->
  match_at re_number prev (String c m ++ rest) = Some (S (String.length m)).
Proof.
  intros Hp Hc Hm Hr. unfold match_at, re_number. rewrite seq_eq.
  cbn [rmatch word_after append]. rewrite Hp, (digit_in_word c Hc). cbn [xorb].
  rewrite Hc. apply many_greedy; auto.
  - destruct rest as [|x rest]; [exact I|].
    destruct (is_digit x) eqn:E; [|reflexivity].
    rewrite (digit_in_word x E) in Hr. discriminate.
  - change (advance (Some c) m) with (advance None (String c m)).
    rewrite (digits_word_before (String c m) None)
      by (cbn [all]; rewrite ?Hc, ?Hm; auto; discriminate).
    replace (word_after rest) with false
      by (destruct rest; [reflexivity | symmetry; exact Hr]).
    reflexivity.
Qed.

Lemma digit_not_dot c : is_digit c = true -> is_not "." c = true.
Proof.
  revert c. apply (code_units_impl is_digit (is_not ".")). vm_compute. reflexivity.
Qed.

(** X16.  A line that consists of digits is rendered as a line number
    that holds a number bubble: the first replacement of the number pass
    wraps it as line number, and the second, which runs on the result,
    wraps the digits inside once more. *)
Theorem number_line_wrapped_twice (m : string) :
  m <> "" -> all is_digit m = true ->
  processLogLine m = span_line_number (span_number m).
Proof.
  intros Hne Hm. unfold processLogLine. cbv zeta.
  rewrite py_silent_without_dot by (apply (all_impl _ _ _ digit_not_dot Hm)).
  rewrite (replace_silent re_level)
    by (apply (silent_class _ in_level _ level_match_inv),
              (all_impl _ _ _ digit_not_level Hm)).
  unfold highlightNumbersOutsideTags, split, tokens.
  rewrite <- (flat_chars m) at 1.
  rewrite tag_tokens
    by (apply (Forall_chars _ is_digit);
        [intros c Hc; apply not_lt, digit_not_lt, Hc | exact Hm]).
  assert (Hch : forall s cur, chunks true (map tok (chars s)) cur = [cur ++ s]).
  { induction s as [|c s IH]; intros cur; cbn [chars map tok chunks].
    - rewrite sapp_nil_r. reflexivity.
    - rewrite IH, sapp_assoc. reflexivity. }
  rewrite Hch. cbn [map_chunks join append]. change (Nat.odd 0) with false. cbv iota.
  unfold highlightChunk. cbv zeta.
  destruct m as [|c m]; [contradiction|].
  cbn [all] in Hm. apply andb_true_iff in Hm. destruct Hm as (Hc & Hm).
  assert (E1 : replace re_line_number false span_line_number (String c m)
               = span_line_number (String c m)).
  { unfold replace, tokens. rewrite <- (sapp_nil_r (String c m)) at 1.
    rewrite scan_hit by (rewrite sapp_nil_r; apply line_number_match; assumption).
    cbn [scan render]. apply sapp_nil_r. }
  rewrite E1.
  assert (E2 : span_line_number (String c m)
               = tag line_number_body ++ (String c m ++ tag close_body)).
  { unfold span_line_number, tag, line_number_body, close_body.
    rewrite !sapp_assoc. reflexivity. }
  rewrite E2. unfold replace, tokens.
  rewrite scan_silent
    by (apply (silent_class re_number is_digit _ number_match_inv); reflexivity).
  rewrite render_txt.
  rewrite scan_hit
    by (apply number_match; [reflexivity | exact Hc | exact Hm | reflexivity]).
  cbn [render].
  rewrite <- (sapp_nil_r (tag close_body)) at 1.
  rewrite scan_silent
    by (apply (silent_class re_number is_digit _ number_match_inv); reflexivity).
  rewrite render_txt. cbn [scan render].
  unfold span_line_number, tag, line_number_body, close_body.
  rewrite !sapp_assoc. reflexivity.
Qed.

Lemma number_line_wrapped_twice_witness :
  processLogLine "2024" = span_line_number (span_number "2024").
Proof.
  apply (number_line_wrapped_twice "2024"); [discriminate | reflexivity].
Defined.

(** ** A file name alone on a line *)

(** The search passes over text at whose positions the pattern does not
    match, given the character before each position. *)
Lemma scan_pass r g rest : forall t prev,
  (forall u v, t = u ++ v -> v <> "" ->
     match_at r (advance prev u) (v ++ rest) = None) ->
  scan r g prev (t ++ rest) 0 true
  = (map Txt (list_ascii_of_string t) ++ scan r g (advance prev t) rest 0 true)%list.
Proof.
  induction t as [|c t IH]; intros prev H; [reflexivity|].
  cbn [append]. rewrite scan_txt.
  - cbn [list_ascii_of_string map app advance]. f_equal. apply IH.
    intros u v -> Hv. apply (H (String c u) v eq_refl Hv).
  - apply (H "" (String c t) eq_refl). discriminate.
Qed.

Lemma letter_us_word c : is_letter_us c = true -> is_word c = true.
Proof.
  revert c. apply (code_units_impl is_letter_us is_word). vm_compute. reflexivity.
Qed.

Lemma level_letter_us c : in_level c = true -> is_letter_us c = true \/ c = " "%char.
Proof.
  intros H.
  assert (E : implb (in_level c) (is_letter_us c || Ascii.eqb c " ") = true).
  { revert c H. intros c _. revert c. apply all_code_units. vm_compute. reflexivity. }
  rewrite H in E. simpl in E. apply orb_true_iff in E.
  destruct E as [E | E]; [left; exact E | right; apply Ascii.eqb_eq, E].
Qed.

Lemma word_run_before : forall u prev,
  all is_word u = true -> u <> "" -> word_before (advance prev u) = true.
Proof.
  induction u as [|c u IH]; intros prev H Hne; [contradiction|].
  cbn [all] in H. apply andb_true_iff in H. destruct H as (Hc & H).
  cbn [advance]. destruct u as [|c' u].
  - exact Hc.
  - apply IH; [exact H | discriminate].
Qed.

Lemma level_words_letters :
  forallb (fun w => match w with
                    | String a _ => is_letter_us a
                    | EmptyString => false
                    end) level_words = true.
Proof. vm_compute. reflexivity. Qed.

(** A match of the level pattern stands between a character that is not
    a word character (or the start) and one that is not (or the end). *)
Lemma level_match_isolated prev s n :
  match_at re_level prev s = Some n ->
  exists w m rest, In w level_words /\ same true w m = true /\
                   s = m ++ rest /\ all in_level m = true /\ m <> "" /\
                   word_before prev = false /\ word_after rest = false.
Proof.
  intros H. apply level_match_edges in H.
  destruct H as (w & m & rest & Hin & Hs & -> & _ & B1 & B2).
  pose proof level_words_class as Hc. rewrite forallb_forall in Hc.
  specialize (Hc w Hin). apply andb_true_iff in Hc. destruct Hc as (Hw & Hne).
  apply negb_true_iff, String.eqb_neq in Hne.
  destruct (same_level w m Hw Hs) as (Hm & _ & Hnm). specialize (Hnm Hne).
  pose proof level_words_ends as He. rewrite forallb_forall in He.
  specialize (He w Hin). apply andb_true_iff in He. destruct He as (He1 & He2).
  exists w, m, rest. repeat split; auto.
  - assert (Ha : word_after (m ++ rest) = true).
    { destruct m as [|c m]; [contradiction|]. cbn [append word_after].
      change (is_word c) with (word_after (String c m)).
      rewrite (same_word_after w _ Hs). exact He1. }
    rewrite Ha in B1. destruct (word_before prev); [discriminate | reflexivity].
  - rewrite (same_word_before w m prev None Hs Hne), He2 in B2.
    destruct (word_after rest); [discriminate | reflexivity].
Qed.

Lemma level_prefix_of_word name tail m rest :
  all in_level m = true ->
  match tail with String c _ => in_level c = false | EmptyString => True end ->
  name ++ tail = m ++ rest ->
  exists x, name = m ++ x /\ rest = x ++ tail.
Proof.
  intros Hm Ht E.
  destruct (sapp_split _ _ _ _ E) as [(v1 & -> & ->) | (u2 & -> & Hu)].
  - exists v1. auto.
  - destruct u2 as [|c u2].
    + exists "". cbn [append] in Hu. subst tail. rewrite !sapp_nil_r. auto.
    + exfalso. rewrite all_app in Hm. apply andb_true_iff in Hm.
      destruct Hm as (_ & Hm). cbn [all] in Hm. apply andb_true_iff in Hm.
      destruct Hm as (Hc & _). rewrite Hu in Ht. cbn [append] in Ht.
      congruence.
Qed.

(** Inside a file name of letters and underscores that is not a level
    word, between [>] and [<], the level pattern matches nowhere. *)
Lemma level_silent_in_name name after : forall u v,
  all is_letter_us name = true -> name <> "" ->
  is_level_word name = false ->
  name ++ ".py" = u ++ v -> v <> "" ->
  match_at re_level (advance (Some ">"%char) u) (v ++ after) = None.
Proof.
  intros u v Hname Hne Hlw E Hv.
  destruct (match_at re_level _ _) as [n|] eqn:M; [|reflexivity]. exfalso.
  apply level_match_isolated in M.
  destruct M as (w & m & rest & Hin & Hs & Hmr & Hm & Hnm & Hb & Ha).
  assert (Hword : all is_word name = true)
    by (apply (all_impl _ _ _ letter_us_word Hname)).
  destruct (sapp_split _ _ _ _ E) as [(v1 & -> & Hn) | (u2 & -> & Hu)].
  - (* the position is inside the name *)
    destruct u as [|c u].
    + cbn [append] in Hn. subst v1. rewrite sapp_assoc in Hmr.
      destruct (level_prefix_of_word name (".py" ++ after) m rest Hm eq_refl Hmr)
        as (x & Hx & Hr).
      destruct x as [|c x].
      * rewrite sapp_nil_r in Hx. subst m.
        unfold is_level_word in Hlw.
        assert (existsb (fun w => same true w name) level_words = true)
          by (apply existsb_exists; exists w; auto).
        congruence.
      * rewrite Hr in Ha. cbn [append word_after] in Ha.
        rewrite Hx, all_app in Hword. apply andb_true_iff in Hword.
        destruct Hword as (_ & Hword). cbn [all] in Hword.
        apply andb_true_iff in Hword. destruct Hword as (Hc & _). congruence.
    + rewrite Hn, all_app in Hword. apply andb_true_iff in Hword.
      destruct Hword as (Hword & _).
      rewrite (word_run_before (String c u) _ Hword) in Hb by discriminate.
      discriminate.
  - (* the position is in the extension *)
    destruct u2 as [|c0 u2].
    + rewrite sapp_nil_r in Hb.
      rewrite (word_run_before name _ Hword Hne) in Hb. discriminate.
    + cbn [append] in Hu. injection Hu as <- Hu.
      destruct u2 as [|c1 u2].
      * cbn [append] in Hu. subst v.
        cbn [append] in Hmr.
        destruct m as [|a m]; [contradiction|].
        cbn [append] in Hmr. injection Hmr as <- Hmr.
        assert (Hp : agree w "p" = true).
        { apply (agree_prefix w "p" m).
          pose proof (agree_same w (String "p" m) "" Hs) as Hg.
          rewrite sapp_nil_r in Hg. exact Hg. }
        assert (Hno : forallb (fun w => negb (agree w "p")) level_words = true)
          by (vm_compute; reflexivity).
        rewrite forallb_forall in Hno. specialize (Hno w Hin).
        rewrite Hp in Hno. discriminate.
      * cbn [append] in Hu. injection Hu as <- Hu.
        rewrite advance_app in Hb. cbn [advance] in Hb.
        destruct u2 as [|c2 u2].
        -- cbn in Hb. discriminate.
        -- cbn [append] in Hu. injection Hu as <- Hu.
           destruct u2; [|discriminate]. cbn [append] in Hu. subst v. contradiction.
Qed.

Lemma py_match_name name c :
  all is_word (String c name) = true ->
  match_at re_py None (String c name ++ ".py")
  = Some (String.length (String c name ++ ".py")).
Proof.
  intros H. cbn [all] in H. apply andb_true_iff in H. destruct H as (Hc & H).
  unfold match_at, re_py. rewrite seq_eq.
  cbn [rmatch word_before word_after append]. rewrite Hc. cbn [xorb].
  apply many_greedy; [exact H | reflexivity |].
  rewrite (lit_same false ".py" ".py" _ "" _ _ (same_refl ".py")).
  cbn [rmatch advance word_before word_after]. 
  change (xorb (is_word "y") false) with true. cbv iota.
  cbn [String.length]. rewrite slength_app. cbn [String.length]. f_equal.
Qed.

Lemma letter_us_plain c :
  is_letter_us c = true -> no_digit c = true /\ is_not "<" c = true /\ is_not "." c = true.
Proof.
  intros H.
  assert (E : implb (is_letter_us c) (no_digit c && is_not "<" c && is_not "." c) = true).
  { revert c H. intros c _. revert c. apply all_code_units. vm_compute. reflexivity. }
  rewrite H in E. simpl in E. rewrite !andb_true_iff in E. tauto.
Qed.

(** X17.  A line that is a file name, letters and underscores followed by
    [.py], is rendered as one logfile bubble whose hue is computed from
    the name, unless the name is itself a level word. *)
Theorem file_name_bubble (name : string) :
  name <> "" -> all is_letter_us name = true -> is_level_word name = false ->
  let fn := name ++ ".py" in
  processLogLine fn = span_logfile (hueFromString fn) fn.
Proof.
  intros Hne Hname Hlw fn.
  assert (Hword : all is_word name = true)
    by (apply (all_impl _ _ _ letter_us_word Hname)).
  assert (Hlt : all (is_not "<") fn = true).
  { unfold fn. rewrite all_app. rewrite andb_true_iff. split; [|reflexivity].
    apply (all_impl is_letter_us); [|exact Hname].
    intros c Hc. apply (letter_us_plain c Hc). }
  unfold processLogLine. cbv zeta.
  (* the file-name pass *)
  assert (E1 : replace re_py true wrap_py fn = span_logfile (hueFromString fn) fn).
  { unfold replace, tokens. unfold fn at 1.
    destruct name as [|c name]; [contradiction|].
    rewrite <- (sapp_nil_r (String c name ++ ".py")).
    change (String c name ++ ".py") with (String c (name ++ ".py")) at 1.
    rewrite scan_hit
      by (rewrite sapp_nil_r; apply (py_match_name name c Hword)).
    cbn [scan render]. rewrite sapp_nil_r.
    unfold wrap_py. fold fn. rewrite guard_dead by exact Hlt. reflexivity. }
  rewrite E1.
  (* the level pass *)
  assert (E2 : replace re_level true wrap_level (span_logfile (hueFromString fn) fn)
               = span_logfile (hueFromString fn) fn).
  { assert (Hs : span_logfile (hueFromString fn) fn
                 = tag (logfile_body (hueFromString fn)) ++ (fn ++ (tag close_body ++ ""))).
    { rewrite span_logfile_flat. cbn [flat]. rewrite flat_app, flat_chars.
      cbn [flat]. reflexivity. }
    rewrite Hs at 1. unfold replace, tokens.
    rewrite scan_silent
      by (apply (level_quiet (Mk (logfile_body (hueFromString fn)))); right;
          eexists; reflexivity).
    rewrite render_txt.
    rewrite scan_pass.
    - rewrite render_txt.
      rewrite scan_silent by (apply (level_quiet (Mk close_body)); left; reflexivity).
      rewrite render_txt. cbn [scan render]. symmetry. exact Hs.
    - intros u v Huv Hv.
      replace (advance (advance None (tag (logfile_body (hueFromString fn)))) u)
        with (advance (Some ">"%char) u).
      + apply (level_silent_in_name name); assumption.
      + f_equal. unfold tag. rewrite !advance_app. reflexivity. }
  rewrite E2.
  (* the number pass *)
  rewrite span_logfile_flat. apply highlight_plain.
  constructor; [apply tag_body_logfile|].
  apply Forall_app. split.
  - unfold fn. clear - Hname.
    assert (Hp : forall s, all (fun c => no_digit c && is_not "<" c) s = true ->
                           Forall plain (chars s)).
    { intros s. apply Forall_chars. intros c H.
      apply andb_true_iff in H. destruct H as (H1 & H2).
      split; [apply negb_true_iff, H1 | apply not_lt, H2]. }
    apply Hp. rewrite all_app. rewrite andb_true_iff. split; [|reflexivity].
    apply (all_impl is_letter_us); [|exact Hname].
    intros c Hc. destruct (letter_us_plain c Hc) as (-> & -> & _). reflexivity.
  - constructor; [apply tag_body_close | constructor].
Qed.

Lemma file_name_bubble_witness :
  processLogLine "nmap_scanner.py"
  = span_logfile (hueFromString "nmap_scanner.py") "nmap_scanner.py".
Proof.
  apply (file_name_bubble "nmap_scanner"); [discriminate | reflexivity | reflexivity].
Defined.

(** ** The size of a page that has none stored *)

(** X18.  With no size in the store, [init] leaves the default of the
    state, 12 px, or 11 px on a mobile browser, shows it on the container
    and stores nothing, while the set-up of the slider puts the slider at
    11 in both cases. *)
Theorem default_font_without_store (container : LogElement) (toggleEl : option string)
        (mobile writable : bool) (slider : option FontInput)
        (storage : list (string * string)) :
  getItem fontKey storage = None ->
  let fresh := initial storage writable slider in
  let page := init (Some container) toggleEl mobile fresh in
  fontSize page = (if mobile then 11 else 12)%Z /\
  option_map style_fontSize (logConsole (el page))
  = Some (px (if mobile then 11 else 12)) /\
  localStorage page = storage /\
  option_map inp_value (consoleFont (setupConsoleFontSlider fresh))
  = option_map (fun _ => "11") slider.
Proof.
  intros Hg fresh page.
  assert (Hp : page = addFloatingUI
                 (let st0 := set_el (set_toggleImg toggleEl
                               (el (set_el (set_logConsole (Some container) (el fresh)) fresh)))
                               (set_el (set_logConsole (Some container) (el fresh)) fresh) in
                  let st1 := if mobile then set_fontSize 11 st0 else st0 in
                  with_logConsole
                    (fun lc => set_style_fontSize (px (fontSize st1)) lc) st1)).
  { unfold page, init.
    cbn [has_logConsole el set_el set_logConsole set_toggleImg logConsole negb].
    cbn [localStorage set_el fresh initial]. rewrite Hg.
    change (parseInt "") with (@None Z). cbv iota. rewrite andb_true_r. reflexivity. }
  rewrite Hp. unfold setupConsoleFontSlider.
  change "Console.fontPx" with fontKey.
  cbn [consoleFont localStorage fresh initial]. rewrite Hg.
  change (parseInt "") with (@None Z).
  destruct mobile, slider; repeat split; reflexivity.
Qed.

Lemma default_font_without_store_witness :
  fontSize (init (Some empty_log) None false (initial [] true (Some page_slider))) = 12%Z /\
  option_map inp_value
    (consoleFont (setupConsoleFontSlider (initial [] true (Some page_slider))))
  = Some "11".
Proof.
  destruct (default_font_without_store empty_log None false true (Some page_slider) [])
    as (H1 & _ & _ & H2).
  - reflexivity.
  - split; [exact H1 | exact H2].
Defined.

(** ** The signal indicator *)

Lemma getSignalInfo_bars d :
  bars (getSignalInfo (Some d))
  = if (-50 <=? d)%Z then 5
    else if (-60 <=? d)%Z then 4
    else if (-70 <=? d)%Z then 3
    else if (-80 <=? d)%Z then 2
    else 1.
Proof.
  unfold getSignalInfo. rewrite parseInt_Z_to_string. cbv zeta.
  repeat match goal with
         | |- context [if ?b then _ else _] => destruct b
         end; reflexivity.
Qed.

(** X19.  The signal indicator is monotone: of two levels, both safe
    integers, the stronger never lights fewer bars.  It always has five
    bars of which between one and five are lit, and the lit ones are the
    first ones. *)
Theorem signal_bars_monotone (a b : Z) :
  safe_integer a -> safe_integer b -> (a <= b)%Z ->
  bars (getSignalInfo (Some a)) <= bars (getSignalInfo (Some b)) /\
  1 <= bars (getSignalInfo (Some a)) <= 5 /\
  sig_bars (createSignalIndicator (Some a))
  = (repeat "signal-bar active" (bars (getSignalInfo (Some a)))
     ++ repeat "signal-bar " (5 - bars (getSignalInfo (Some a))))%list.
Proof.
  intros _ _ Hab. unfold createSignalIndicator. cbv zeta. cbn [sig_bars].
  rewrite !getSignalInfo_bars.
  destruct (Z.leb_spec (-50) a), (Z.leb_spec (-60) a), (Z.leb_spec (-70) a),
    (Z.leb_spec (-80) a); try lia;
  destruct (Z.leb_spec (-50) b), (Z.leb_spec (-60) b), (Z.leb_spec (-70) b),
    (Z.leb_spec (-80) b); try lia;
  (split; [lia | split; [lia | reflexivity]]).
Qed.

Lemma signal_bars_monotone_witness :
  bars (getSignalInfo (Some (-67)%Z)) <= bars (getSignalInfo (Some (-52)%Z)) /\
  sig_bars (createSignalIndicator (Some (-67)%Z))
  = ["signal-bar active"; "signal-bar active"; "signal-bar active";
     "signal-bar "; "signal-bar "].
Proof.
  destruct (signal_bars_monotone (-67) (-52)) as (H1 & _ & H2).
  - unfold safe_integer. lia.
  - unfold safe_integer. lia.
  - lia.
  - split; [exact H1 | exact H2].
Defined.

(** ** Colours *)

Lemma channel_hex_check :
  forallb (fun n => match padStart2 (toString16 (N.of_nat n)) with
                    | String a (String b EmptyString) =>
                        is_hex a && is_hex b && negb (is_space b)
                    | _ => false
                    end) (seq 0 256) = true.
Proof. vm_compute. reflexivity. Qed.

Lemma channel_hex (x : Q) :
  exists a b,
    padStart2 (toString16 (Z.to_N (Z.max 0 (Z.min 255 (Math_round x)))))
    = String a (String b "") /\
    is_hex a = true /\ is_hex b = true /\ is_space b = false.
Proof.
  set (z := Z.max 0 (Z.min 255 (Math_round x))).
  assert (Hz : (0 <= z <= 255)%Z) by (unfold z; lia).
  pose proof channel_hex_check as H. rewrite forallb_forall in H.
  specialize (H (Z.to_nat z)).
  rewrite <- (Z_N_nat z) in H. rewrite N2Nat.id in H.
  assert (Hin : In (N.to_nat (Z.to_N z)) (seq 0 256)).
  { apply in_seq. rewrite Z_N_nat. lia. }
  specialize (H Hin).
  destruct (padStart2 (toString16 (Z.to_N z))) as [|a [|b [|c s]]]; try discriminate.
  rewrite !andb_true_iff in H. destruct H as ((Ha & Hb) & Hs).
  apply negb_true_iff in Hs. exists a, b. auto.
Qed.

(** X20.  Whatever finite numbers it is given, [rgbaToHex] returns [#]
    followed by six hexadecimal digits, a string that [isHexColor]
    accepts. *)
Theorem rgbaToHex_is_hex_color (r g b : Q) :
  String.length (rgbaToHex r g b) = 7 /\
  isHexColor (rgbaToHex r g b) = true.
Proof.
  unfold rgbaToHex. cbn [map join].
  destruct (channel_hex r) as (r1 & r2 & -> & Hr1 & Hr2 & _).
  destruct (channel_hex g) as (g1 & g2 & -> & Hg1 & Hg2 & _).
  destruct (channel_hex b) as (b1 & b2 & -> & Hb1 & Hb2 & Hs).
  cbn [append]. split; [reflexivity|].
  unfold isHexColor, trim. cbn [trimStart].
  change (is_space "#") with false. cbv iota.
  cbn [trimEnd]. rewrite Hs.
  unfold test_whole, re_hex_color.
  cbn [rmatch rep lit chr_eq].
  change (Ascii.eqb (upper "#") (upper "#")) with true. cbv iota.
  rewrite Hr1, Hr2, Hg1, Hg2, Hb1, Hb2. reflexivity.
Qed.

(** ** The queue while the user reads earlier lines *)

Lemma newest_all {A} n (l : list A) : List.length l <= n -> newest n l = l.
Proof.
  intros H. unfold newest. replace (List.length l - n) with 0 by lia. reflexivity.
Qed.

Lemma newest_none {A} (l : list A) : newest 0 l = [].
Proof.
  unfold newest. rewrite Nat.sub_0_r. apply skipn_all.
Qed.

Lemma newest_snoc {A} n (a : list A) x :
  newest n (newest n a ++ [x]) = newest n (a ++ [x]).
Proof.
  destruct n as [|n]; [rewrite !newest_none; reflexivity|].
  unfold newest.
  destruct (Nat.le_gt_cases (List.length a) (S n)) as [H | H].
  - replace (List.length a - S n) with 0 by lia. reflexivity.
  - rewrite !length_app, length_skipn. cbn [List.length].
    remember (List.length a) as k eqn:Ek.
    assert (E1 : k - (k - S n) + 1 - S n = 1) by lia.
    assert (E2 : k + 1 - S n = S (k - S n)) by lia.
    rewrite E1, E2.
    rewrite (skipn_app (S (k - S n)) a [x]), <- Ek.
    replace (S (k - S n) - k) with 0 by lia.
    change (skipn 0 [x]) with [x].
    rewrite (skipn_app 1), length_skipn, <- Ek.
    replace (1 - (k - (k - S n))) with 0 by lia.
    change (skipn 0 [x]) with [x].
    rewrite skipn_skipn. f_equal.
Qed.

(** One line pushed while the view is scrolled. *)
Lemma appendLogs_scrolled raw st :
  has_logConsole st = true -> pinned st = false -> buffer_bounded st ->
  html (appendLogs raw st) = html st /\
  pinned (appendLogs raw st) = false /\
  has_logConsole (appendLogs raw st) = true /\
  maxBufferSize (appendLogs raw st) = maxBufferSize st /\
  logBuffer (appendLogs raw st)
  = newest (maxBufferSize st) (logBuffer st ++ pushed [SseMessage raw]).
Proof.
  intros Hlc Hpin Hb.
  destruct (appendLogs_flags raw st) as (FU & FA & FL).
  destruct (appendLogs_buffer raw st) as (FM & FB).
  assert (Hp : pinned (appendLogs raw st) = false)
    by (unfold pinned in *; rewrite FU, FA; exact Hpin).
  assert (Hs : isUserScrolling st || negb (autoScroll st) = true).
  { unfold pinned in Hpin. destruct (isUserScrolling st), (autoScroll st);
      simpl in *; congruence. }
  rewrite Hlc in FB. cbn [negb] in FB. rewrite orb_false_r, Hs in FB.
  cbn [pushed].
  assert (Hh : html (appendLogs raw st) = html st).
  { unfold appendLogs. rewrite Hlc. cbn [negb]. rewrite orb_false_r, Hs.
    destruct (String.eqb (trim raw) ""); [reflexivity|].
    match goal with
    | |- context [updateBufferIndicator ?s] =>
        destruct (updateBufferIndicator_frame s) as (_ & _ & -> & _)
    end.
    destruct (maxBufferSize _ <? _); reflexivity. }
  repeat split; try assumption; try congruence.
  rewrite FB. unfold buffer_bounded in Hb.
  destruct (String.eqb (trim raw) "").
  - rewrite app_nil_r. symmetry. apply newest_all, Hb.
  - destruct (maxBufferSize st <? List.length (logBuffer st ++ [trim raw])) eqn:E.
    + apply Nat.ltb_lt in E. rewrite length_app in E. cbn in E.
      unfold newest, shift. rewrite length_app. cbn [List.length].
      replace (List.length (logBuffer st) + 1 - maxBufferSize st) with 1 by lia.
      destruct (logBuffer st ++ [trim raw])%list; reflexivity.
    + apply Nat.ltb_ge in E. symmetry. apply newest_all, E.
Qed.

Lemma newest_bounded {A} n (l : list A) : List.length (newest n l) <= n.
Proof. unfold newest. rewrite length_skipn. lia. Qed.

Lemma newest_app {A} n (a b : list A) :
  newest n (newest n a ++ b) = newest n (a ++ b).
Proof.
  revert a. induction b as [|x b IH] using rev_ind; intros a.
  - rewrite !app_nil_r. apply newest_all, newest_bounded.
  - rewrite !app_assoc, <- newest_snoc, IH, newest_snoc. reflexivity.
Qed.

(** X21.  While the view is scrolled the log does not move: any number of
    pushed lines leave the markup as it is and go to the queue, which
    then holds the newest [maxBufferSize] of the lines it held before
    followed by the pushed ones, in arrival order. *)
Theorem scrolled_queue_keeps_newest (datas : list string) (st : Console) :
  has_logConsole st = true -> pinned st = false -> buffer_bounded st ->
  eventSource st = Some OPEN ->
  html (run (pushes datas) st) = html st /\
  pinned (run (pushes datas) st) = false /\
  logBuffer (run (pushes datas) st)
  = newest (maxBufferSize st) (logBuffer st ++ pushed (pushes datas)).
Proof.
  revert st. induction datas as [|d datas IH]; intros st Hlc Hpin Hb Hes.
  - cbn. rewrite app_nil_r. repeat split; auto. symmetry. apply newest_all, Hb.
  - change (pushes (d :: datas)) with ([SseMessage d] ++ pushes datas)%list.
    rewrite run_app, pushed_app.
    assert (Hstep : run [SseMessage d] st = appendLogs d st).
    { cbn. rewrite Hes. reflexivity. }
    rewrite Hstep.
    destruct (appendLogs_scrolled d st Hlc Hpin Hb) as (H1 & H2 & H3 & H4 & H5).
    assert (Hb' : buffer_bounded (appendLogs d st))
      by (apply appendLogs_bounded, Hb).
    assert (Hes' : eventSource (appendLogs d st) = Some OPEN).
    { pose proof (conn_appendLogs d st) as C. unfold conn in C.
      split_pairs C. congruence. }
    destruct (IH (appendLogs d st) H3 H2 Hb' Hes') as (I1 & I2 & I3).
    rewrite I1, I3, H1, H4, H5. repeat split; auto.
    rewrite newest_app, app_assoc. reflexivity.
Qed.

Lemma scrolled_queue_keeps_newest_witness :
  let st := run [Start true; SseOpen; Wheel] (set_maxBufferSize 2 ready) in
  html (run (pushes ["a"; " "; "b"; "c"]) st) = "" /\
  logBuffer (run (pushes ["a"; " "; "b"; "c"]) st) = ["b"; "c"].
Proof.
  intros st.
  destruct (scrolled_queue_keeps_newest ["a"; " "; "b"; "c"] st) as (H1 & _ & H2).
  - vm_compute. reflexivity.
  - vm_compute. reflexivity.
  - unfold buffer_bounded. vm_compute. lia.
  - vm_compute. reflexivity.
  - split; [exact H1 | exact H2].
Defined.
